(** * Review-request dispatch: the phone normalizer, the SMS endpoint, the
    Meta error hints, the dispatch queue and the customer list.

    A shallow embedding of [src/sms-server.js], [src/App.tsx] and the
    settings page ([handleSendSms]), with the properties the specification
    states about them.

    Conventions of the embedding.
    - A JavaScript string is a [string]: a sequence of 8-bit characters.
      Code units above 255 are left out; they are neither digits nor ['+'],
      and no property below looks at them.  A character outside ASCII in a
      literal stands as its UTF-8 bytes.
    - A JSON field that may be absent is an [option]; JavaScript truthiness
      of such a field is [truthy]: present and not the empty string.
    - React state is an explicit record; a functional update
      [setX(prev => f prev)] is [f] applied to the live record, while a plain
      read of [x] inside a closure reads the record of the render in which
      the closure was created.
    - The drain of the queue is followed on its own: no other handler runs
      between its steps, and the component renders again while the drain
      waits (for the network, or in its pauses of 150 and 500 ms). *)

From Stdlib Require Import String Ascii List ZArith Lia Bool Arith.
From Stdlib Require Import Numbers.DecimalString.
Import ListNotations.

Local Open Scope string_scope.
Local Open Scope nat_scope.

(** ** Strings *)

Module Str.

Definition is_digit (c : ascii) : bool :=
  (48 <=? nat_of_ascii c) && (nat_of_ascii c <=? 57).

(** [s.replace(/[^...]/g, "")] with a character class: the characters kept
    are those of the class. *)
Fixpoint keep (p : ascii -> bool) (s : string) : string :=
  match s with
  | EmptyString => EmptyString
  | String c r => if p c then String c (keep p r) else keep p r
  end.

Fixpoint all (p : ascii -> bool) (s : string) : bool :=
  match s with
  | EmptyString => true
  | String c r => p c && all p r
  end.

(** White space of [String.prototype.trim], within 8 bits. *)
Definition is_space (c : ascii) : bool :=
  let n := nat_of_ascii c in
  ((9 <=? n) && (n <=? 13)) || (n =? 32) || (n =? 160).

Fixpoint trim_start (s : string) : string :=
  match s with
  | String c r => if is_space c then trim_start r else s
  | EmptyString => EmptyString
  end.

(** [trim_end] drops the trailing white space: a character stays when it is
    not a space or something that stays follows it. *)
Fixpoint trim_end (s : string) : string :=
  match s with
  | EmptyString => EmptyString
  | String c r =>
      match trim_end r with
      | EmptyString => if is_space c then EmptyString else String c EmptyString
      | r' => String c r'
      end
  end.

Definition trim (s : string) : string := trim_end (trim_start s).

(** [s.startsWith(p)] *)
Definition startsWith (p s : string) : bool := String.prefix p s.

(** [s.includes(p)] *)
Fixpoint includes (p s : string) : bool :=
  String.prefix p s ||
  match s with
  | EmptyString => false
  | String _ r => includes p r
  end.

(** JavaScript truthiness of a string. *)
Definition nonempty (s : string) : bool :=
  match s with EmptyString => false | _ => true end.

(** Truthiness of a field that may be absent. *)
Definition truthy (o : option string) : bool :=
  match o with Some s => nonempty s | None => false end.

(** Decimal rendering of a number inside a template literal. *)
Definition of_nat (n : nat) : string := NilEmpty.string_of_uint (Nat.to_uint n).
Definition of_Z (z : Z) : string := NilZero.string_of_int (Z.to_int z).

End Str.

(** ** The phone normalizer ([normalizePhone], sms-server.js) *)

Module Phone.

Inductive result : Type :=
| Ok (value : string)
| Fail (reason : string).

Definition ok (r : result) : bool :=
  match r with Ok _ => true | Fail _ => false end.

Definition is_plus (c : ascii) : bool := Ascii.eqb c "+".

(** [String(raw).replace(/[^0-9+]/g, "").trim()] *)
Definition cleaned (raw : string) : string :=
  Str.trim (Str.keep (fun c => Str.is_digit c || is_plus c) raw).

(** [/^[0-9]{10,15}$/.test(s)] *)
Definition re_e164_digits (s : string) : bool :=
  Str.all Str.is_digit s && (10 <=? String.length s) && (String.length s <=? 15).

(** [/^[6-9][0-9]{9}$/.test(s)] *)
Definition re_mobile10 (s : string) : bool :=
  match s with
  | String c r =>
      (54 <=? nat_of_ascii c) && (nat_of_ascii c <=? 57)
      && Str.all Str.is_digit r && (String.length r =? 9)
  | EmptyString => false
  end.

(** [s.replace(/^0+/, "")] *)
Fixpoint strip_zeros (s : string) : string :=
  match s with
  | String c r => if Ascii.eqb c "0" then strip_zeros r else s
  | EmptyString => EmptyString
  end.

Definition normalizePhone (raw : string) : result :=
  if negb (Str.nonempty raw) then Fail "Empty phone"
  else
    let cleaned := cleaned raw in
    if Str.startsWith "+" cleaned then
      let digits := String.substring 1 (String.length cleaned - 1) cleaned in
      if re_e164_digits digits then Ok cleaned
      else Fail "Invalid E.164 format"
    else
      let digitsOnly := strip_zeros cleaned in
      if re_mobile10 digitsOnly then Ok ("+91" ++ digitsOnly)
      else if re_e164_digits digitsOnly then
        Fail "Ambiguous country code; include +<country_code>"
      else Fail "Unrecognized phone pattern".

(** The first step as the specification words it: digits stay, and a ['+']
    stays only when it leads, that is when nothing kept comes before it. *)
Fixpoint spec_strip (s : string) : string :=
  match s with
  | EmptyString => EmptyString
  | String c r =>
      if is_plus c then String c (Str.keep Str.is_digit r)
      else if Str.is_digit c then String c (Str.keep Str.is_digit r)
      else spec_strip r
  end.

End Phone.

(** ** The SMS endpoint ([POST /send-sms], sms-server.js) *)

Module Server.

(** [req.body] of [/send-sms]. *)
Record SmsRequest : Type := {
  accountSid : option string;
  authToken : option string;
  from : option string;
  to : option string;
  body : option string;
  statusCallback : option string
}.

(** The argument of [client.messages.create]. *)
Record CreateParams : Type := {
  p_body : string;
  p_from : string;
  p_to : string;
  p_statusCallback : option string
}.

(** One use of the Twilio client: [twilio(accountSid, authToken)] and the
    [messages.create] call on it. *)
Record TwilioCall : Type := {
  call_sid : string;
  call_token : string;
  call_params : CreateParams
}.

(** What the Twilio client does with a call: a message with its [sid], or an
    exception with [message] and [code]. *)
Inductive TwilioOutcome : Type :=
| Created (sid : string)
| Threw (message : string) (code : option Z).

(** The JSON answer with its HTTP status; a field that an answer does not
    carry is [None]. *)
Record Reply : Type := {
  status : nat;
  success : bool;
  error : option string;
  original : option string;
  fields : option (list (string * bool));
  sid : option string;
  sent_to : option string;
  code : option Z;
  hint : option string
}.

Definition reply (st : nat) (ok : bool) : Reply :=
  {| status := st; success := ok; error := None; original := None;
     fields := None; sid := None; sent_to := None; code := None;
     hint := None |}.

Definition get (o : option string) : string :=
  match o with Some s => s | None => "" end.

(** The first truthy of two optional strings: [a || b]. *)
Definition or_else (a b : option string) : option string :=
  if Str.truthy a then a else if Str.truthy b then b else None.

(** The hint of the [catch] branch of [/send-sms]. *)
Definition sms_hint (twilioCode : option Z) : option string :=
  match twilioCode with
  | Some 21211%Z =>
      Some "Check destination number formatting (must be in E.164 and enabled for SMS)."
  | Some 21608%Z => Some "Trial account: destination number not verified."
  | _ => None
  end.

Section Handler.

(** [process.env.TWILIO_STATUS_CALLBACK_URL] *)
Variable env_status_callback : option string.
(** The Twilio client the handler is linked with. *)
Variable twilio : TwilioCall -> TwilioOutcome.

(** The handler: its answer and the calls it made to the Twilio client, in
    order. *)
Definition send_sms (req : SmsRequest) : Reply * list TwilioCall :=
  let statusCallback := or_else (statusCallback req) env_status_callback in
  if negb (Str.truthy (accountSid req)) || negb (Str.truthy (authToken req))
     || negb (Str.truthy (from req)) || negb (Str.truthy (to req))
     || negb (Str.truthy (body req))
  then
    ({| status := 400; success := false;
        error := Some "Missing required fields.";
        original := None;
        fields := Some [("accountSid", Str.truthy (accountSid req));
                        ("authToken", Str.truthy (authToken req));
                        ("from", Str.truthy (from req));
                        ("to", Str.truthy (to req));
                        ("body", Str.truthy (body req))];
        sid := None; sent_to := None; code := None; hint := None |}, [])
  else
    let normFrom := Phone.normalizePhone (get (from req)) in
    let normTo := Phone.normalizePhone (get (to req)) in
    match normFrom with
    | Phone.Fail reason =>
        ({| status := 400; success := false;
            error := Some ("Invalid 'from' number: " ++ reason);
            original := from req;
            fields := None; sid := None; sent_to := None; code := None;
            hint := None |}, [])
    | Phone.Ok fromValue =>
        match normTo with
        | Phone.Fail reason =>
            ({| status := 400; success := false;
                error := Some ("Invalid 'to' number: " ++ reason);
                original := to req;
                fields := None; sid := None; sent_to := None; code := None;
                hint := None |}, [])
        | Phone.Ok toValue =>
            let call :=
              {| call_sid := get (accountSid req);
                 call_token := get (authToken req);
                 call_params :=
                   {| p_body := get (body req); p_from := fromValue;
                      p_to := toValue; p_statusCallback := statusCallback |} |} in
            match twilio call with
            | Created msid =>
                ({| status := 200; success := true; error := None;
                    original := None; fields := None; sid := Some msid;
                    sent_to := Some toValue; code := None; hint := None |},
                 [call])
            | Threw message twilioCode =>
                ({| status := 500; success := false; error := Some message;
                    original := None; fields := None; sid := None;
                    sent_to := None; code := twilioCode;
                    hint := sms_hint twilioCode |}, [call])
            end
        end
    end.

End Handler.

(** A required field is missing: absent, or falsy. *)
Definition missing_field (req : SmsRequest) : Prop :=
  Str.truthy (accountSid req) = false \/ Str.truthy (authToken req) = false \/
  Str.truthy (from req) = false \/ Str.truthy (to req) = false \/
  Str.truthy (body req) = false.

End Server.

(** ** The hints of the Meta WhatsApp endpoint ([POST /send-whatsapp]) *)

Module Meta.

(** A JSON value where the code asks [typeof v === "string"]: a string, or
    a truthy value of another type. *)
Inductive jsval : Type :=
| JStr (s : string)
| JOther.

(** [data.error] of the Cloud API: the fields the handler reads. *)
Record ApiError : Type := {
  message : option string;
  code : option Z;
  error_subcode : option Z;
  error_data_details : option jsval
}.

(** [data?.error || {}] when the answer carries no error object. *)
Definition no_error : ApiError :=
  {| message := None; code := None; error_subcode := None;
     error_data_details := None |}.

(** ASCII lower case, for the [i] flag. *)
Definition lower (c : ascii) : ascii :=
  let n := nat_of_ascii c in
  if (65 <=? n) && (n <=? 90) then ascii_of_nat (n + 32) else c.

Fixpoint lower_s (s : string) : string :=
  match s with
  | EmptyString => EmptyString
  | String c r => String (lower c) (lower_s r)
  end.

Fixpoint drop (n : nat) (s : string) : string :=
  match n, s with
  | S k, String _ r => drop k r
  | _, _ => s
  end.

(** [24\s*hour] matched at the start of [s] (already in lower case). *)
Definition at_24_hour (s : string) : bool :=
  String.prefix "24" s && String.prefix "hour" (Str.trim_start (drop 2 s)).

Fixpoint has_24_hour (s : string) : bool :=
  at_24_hour s ||
  match s with
  | EmptyString => false
  | String _ r => has_24_hour r
  end.

(** [/24\s*hour|customer care window|outside the 24/i.test(s)] *)
Definition re_window (s : string) : bool :=
  let l := lower_s s in
  has_24_hour l || Str.includes "customer care window" l
  || Str.includes "outside the 24" l.

(** [/Unsupported message type|type is invalid/i.test(s)] *)
Definition re_unsupported (s : string) : bool :=
  let l := lower_s s in
  Str.includes "unsupported message type" l || Str.includes "type is invalid" l.

(** [err?.error_data?.details || err?.message || ""] *)
Definition details_of (err : ApiError) : jsval :=
  match error_data_details err with
  | Some JOther => JOther
  | Some (JStr s) =>
      if Str.nonempty s then JStr s
      else JStr (Server.get (Server.or_else (message err) None))
  | None => JStr (Server.get (Server.or_else (message err) None))
  end.

Definition hint_404 : string :=
  "Phone Number ID not found or token lacks permission. Confirm Phone Number ID in Meta > WhatsApp > Getting Started and use a token from the same Business Account.".
Definition hint_expired : string :=
  "Access token expired. Create a System User permanent token in Business Settings and update your server env.".
Definition hint_invalid_token : string :=
  "Invalid access token. Ensure you're using a valid token from the same Business Account with whatsapp_business_messaging scope.".
Definition hint_token : string :=
  "Invalid or expired access token. Regenerate and use a longâ€‘lived System User token.".
Definition hint_100 : string :=
  "Invalid parameter. Ensure 'to' is a valid E.164 phone and this business has user opt-in.".
Definition hint_131026 : string :=
  "Recipient is not a valid WhatsApp user for this API or may have blocked messages. Verify the phone has WhatsApp, is not blocked, and is added as a tester if using a test business phone.".
Definition hint_window : string :=
  "Free-form text can only be sent within 24h of user's last message. Use an approved template for initial outreach or outside the 24h window.".
Definition hint_unsupported : string :=
  "Message payload invalid. For simple text, ensure type='text' and text.body is a non-empty string.".

Definition code_is (n : Z) (o : option Z) : bool :=
  match o with Some m => Z.eqb m n | None => false end.

(** The [if]/[else if] chain of the [!resp.ok] branch: [hint] stays
    [undefined] ([None]) when no branch is taken. *)
Definition whatsapp_hint (resp_status : nat) (err : ApiError) : option string :=
  let details := details_of err in
  if resp_status =? 404 then Some hint_404
  else if code_is 190 (code err) then
    let sub := error_subcode err in
    if code_is 463 sub then Some hint_expired
    else if code_is 467 sub then Some hint_invalid_token
    else Some hint_token
  else if code_is 100 (code err) then Some hint_100
  else if code_is 131026 (code err) then Some hint_131026
  else
    match details with
    | JStr d =>
        if re_window d then Some hint_window
        else if re_unsupported d then Some hint_unsupported
        else None
    | JOther => None
    end.

(** A hint mentions a word. *)
Definition mentions (word : string) (h : option string) : bool :=
  match h with Some t => Str.includes word t | None => false end.

End Meta.

(** ** The customer list, the activity log and the dispatch queue (App.tsx) *)

Module App.

Local Open Scope list_scope.

Inductive CustomerStatus : Type := Pending | Sent | Clicked | Reviewed | Failed.

Inductive Sentiment : Type := positive | negative.

Record FeedbackEntry : Type := {
  fb_id : string;
  fb_text : string;
  fb_sentiment : Sentiment;
  fb_date : Z;
  fb_phone : option string;
  fb_rating : option Z
}.

Record Customer : Type := {
  id : string;
  name : string;
  phone : string;
  status : CustomerStatus;
  addedAt : Z;
  rating : option Z;
  feedback : option (list FeedbackEntry)
}.

Record ActivityLog : Type := {
  log_id : string;
  customerName : string;
  action : string;
  timestamp : Z
}.

(** The settings the send helpers read. *)
Record Settings : Type := {
  messageTemplate : string;
  businessName : string;
  googleReviewLink : string;
  twilioAccountSid : string;
  twilioAuthToken : string;
  twilioPhoneNumber : string
}.

(** What [await fetch(...)] followed by [await res.json()] gives: the parsed
    answer, or an exception with its [message]. *)
Inductive FetchOutcome : Type :=
| Answered (data : Server.Reply)
| Rejected (message : option string).

(** The state of the component, and what it has done to the outside:
    [requests] are the POSTs issued to [/send-sms], oldest first, each with
    the id of the customer it was for; [chunks] are the batches taken from
    the queue, oldest first; [ticks] counts the readings of the clock and of
    the random source. *)
Record World : Type := {
  customers : list Customer;
  activityLogs : list ActivityLog;
  smsQueue : list string;
  queueActive : bool;
  requests : list (string * Server.SmsRequest);
  chunks : list (list string);
  ticks : nat
}.

Definition status_eqb (a b : CustomerStatus) : bool :=
  match a, b with
  | Pending, Pending | Sent, Sent | Clicked, Clicked
  | Reviewed, Reviewed | Failed, Failed => true
  | _, _ => false
  end.

Definition with_status (s : CustomerStatus) (c : Customer) : Customer :=
  {| id := id c; name := name c; phone := phone c; status := s;
     addedAt := addedAt c; rating := rating c; feedback := feedback c |}.


(** [setCustomers(prev => f prev)] and the other setters. *)
Definition setCustomers (f : list Customer -> list Customer) (w : World) : World :=
  {| customers := f (customers w); activityLogs := activityLogs w;
     smsQueue := smsQueue w; queueActive := queueActive w;
     requests := requests w; chunks := chunks w; ticks := ticks w |}.

Definition setActivityLogs (f : list ActivityLog -> list ActivityLog)
  (w : World) : World :=
  {| customers := customers w; activityLogs := f (activityLogs w);
     smsQueue := smsQueue w; queueActive := queueActive w;
     requests := requests w; chunks := chunks w; ticks := ticks w |}.

Definition setSmsQueue (f : list string -> list string) (w : World) : World :=
  {| customers := customers w; activityLogs := activityLogs w;
     smsQueue := f (smsQueue w); queueActive := queueActive w;
     requests := requests w; chunks := chunks w; ticks := ticks w |}.

Definition setQueueActive (b : bool) (w : World) : World :=
  {| customers := customers w; activityLogs := activityLogs w;
     smsQueue := smsQueue w; queueActive := b;
     requests := requests w; chunks := chunks w; ticks := ticks w |}.

Definition record_request (r : string * Server.SmsRequest) (w : World) : World :=
  {| customers := customers w; activityLogs := activityLogs w;
     smsQueue := smsQueue w; queueActive := queueActive w;
     requests := requests w ++ [r]; chunks := chunks w; ticks := ticks w |}.

Definition record_chunk (c : list string) (w : World) : World :=
  {| customers := customers w; activityLogs := activityLogs w;
     smsQueue := smsQueue w; queueActive := queueActive w;
     requests := requests w; chunks := chunks w ++ [c]; ticks := ticks w |}.

Definition tick (n : nat) (w : World) : World :=
  {| customers := customers w; activityLogs := activityLogs w;
     smsQueue := smsQueue w; queueActive := queueActive w;
     requests := requests w; chunks := chunks w; ticks := n + ticks w |}.



Definition has_id (i : string) (c : Customer) : bool := String.eqb (id c) i.

(** [prev.map(c => c.id === i ? {...c, status: s} : c)] *)
Definition mark (i : string) (s : CustomerStatus) (prev : list Customer)
  : list Customer :=
  map (fun c => if has_id i c then with_status s c else c) prev.

(** What the component runs against. *)
Record Env : Type := {
  settings : Settings;
  (** [formatTemplate]: the placeholders of the template replaced by the
      customer's name and phone and by the business settings.  The body it
      renders is only handed to the endpoint. *)
  formatTemplate : Settings -> string -> string -> string -> string;
  (** The answer to the [n]-th POST to [/send-sms]. *)
  fetch : nat -> Server.SmsRequest -> FetchOutcome;
  (** [Date.now()] and [Math.random().toString(36).slice(...)] at their
      [n]-th reading. *)
  now : nat -> Z;
  random36 : nat -> string
}.

Section Runtime.

Variable env : Env.

Definition logActivity (action customerName : string) (w : World) : World :=
  let newLog :=
    {| log_id :=
         ("log-" ++ Str.of_Z (now env (ticks w)) ++ "-"
          ++ random36 env (ticks w))%string;
       customerName := customerName;
       action := action;
       timestamp := now env (S (ticks w)) |} in
  tick 2 (setActivityLogs (fun prev => newLog :: prev) w).

(** [data.code || "error"] inside the template literal. *)
Definition code_text (c : option Z) : string :=
  match c with
  | Some z => if Z.eqb z 0 then "error" else Str.of_Z z
  | None => "error"
  end.

Definition sendSmsToCustomer (customer : Customer) (w : World) : World :=
  if negb (Str.nonempty (twilioAccountSid (settings env)))
     || negb (Str.nonempty (twilioAuthToken (settings env)))
     || negb (Str.nonempty (twilioPhoneNumber (settings env)))
     || negb (Str.nonempty (phone customer))
  then
    logActivity "SMS failed (missing credentials)" (name customer)
      (setCustomers (mark (id customer) Failed) w)
  else
    let body :=
      formatTemplate env (settings env) (messageTemplate (settings env))
        (name customer) (phone customer) in
    let req :=
      {| Server.accountSid := Some (twilioAccountSid (settings env));
         Server.authToken := Some (twilioAuthToken (settings env));
         Server.from := Some (twilioPhoneNumber (settings env));
         Server.to := Some (phone customer);
         Server.body := Some body;
         Server.statusCallback := None |} in
    let w1 := record_request (id customer, req) w in
    match fetch env (List.length (requests w)) req with
    | Answered data =>
        if Server.success data then
          logActivity "Sent SMS" (name customer)
            (setCustomers (mark (id customer) Sent) w1)
        else
          logActivity ("SMS failed (" ++ code_text (Server.code data) ++ ")")%string
            (name customer)
            (setCustomers (mark (id customer) Failed) w1)
    | Rejected _ =>
        logActivity "SMS network error" (name customer)
          (setCustomers (mark (id customer) Failed) w1)
    end.

Definition enqueueSmsCustomers (ids : list string) (w : World) : World :=
  setSmsQueue (fun prev => prev ++ ids) w.

(** The body of [for (const id of chunk)]: [customers] is the list of the
    render [snap] in which the effect was created. *)
Definition process_id (snap : World) (w : World) (i : string) : World :=
  match find (has_id i) (customers snap) with
  | None => w
  | Some cust =>
      if status_eqb (status cust) Pending then sendSmsToCustomer cust w
      else w
  end.

(** React runs the cleanup of an effect, which here sets [cancelled], when
    the component has rendered again with a changed dependency.  Of the
    dependencies of the queue effect, [queueActive] is the one compared by
    value, and the one [run] changes before anything else; the arrays are
    compared by identity and can only add to the changes. *)
Definition deps_changed (snap live : World) : bool :=
  negb (Bool.eqb (queueActive snap) (queueActive live)).

(** The [while] loop of [run].  [smsQueue] and [customers] are read from
    [snap], the render in which the effect was created; the setters act on
    the live state.  Each turn ends in an [await] of 500 ms, during which
    the pending render happens and the cleanup runs if a dependency has
    changed.  [None] when [fuel] turns did not suffice. *)
Fixpoint run_loop (fuel : nat) (snap : World) (cancelled : bool) (w : World)
  : option World :=
  match fuel with
  | 0 => None
  | S fuel' =>
      if negb cancelled && (0 <? List.length (smsQueue snap)) then
        let chunk := firstn 10 (smsQueue snap) in
        let w1 := setSmsQueue (skipn (List.length chunk)) (record_chunk chunk w) in
        let w2 := fold_left (process_id snap) chunk w1 in
        run_loop fuel' snap (cancelled || deps_changed snap w2) w2
      else Some w
  end.

(** [run]: [setQueueActive(true)], the loop, and [finally]. *)
Definition run (fuel : nat) (snap : World) (w : World) : option World :=
  option_map (setQueueActive false)
    (run_loop fuel snap false (setQueueActive true w)).

(** The queue effect, as it fires after a render with state [w]. *)
Definition sms_effect (fuel : nat) (w : World) : option World :=
  if queueActive w then Some w
  else if List.length (smsQueue w) =? 0 then Some w
  else run fuel w w.

(** The drain: the effect fires after every render until it finds the queue
    empty.  [None] when [fuel] renders did not suffice. *)
Fixpoint drain (fuel : nat) (w : World) : option World :=
  match smsQueue w with
  | [] => Some w
  | _ :: _ =>
      match fuel with
      | 0 => None
      | S fuel' =>
          match sms_effect 2 w with
          | Some w' => drain fuel' w'
          | None => None
          end
      end
  end.

(** [handleOpenFunnel] *)
Definition handleOpenFunnel (customerId : string) (w : World) : World :=
  match find (has_id customerId) (customers w) with
  | None => w
  | Some cust =>
      logActivity "Clicked review link (simulation)" (name cust)
        (setCustomers (mark customerId Clicked) w)
  end.

(** [s.replace(/\D/g, "")] *)
Definition norm (s : string) : string := Str.keep Str.is_digit s.





End Runtime.

End App.

(** ** The batch send of the settings page ([handleSendSms]) *)

Module SettingsPage.

Local Open Scope list_scope.

(** An element of [failures]. *)
Record Failure : Type := {
  f_name : string;
  f_phone : string;
  f_error : string;
  f_code : option Z
}.

(** The fields of the parsed answer that the handler reads. *)
Record Data : Type := {
  success : bool;
  error : option string;
  hint : option string;
  code : option Z
}.

(** [await fetch(...)]: a response, with [data] left [null] ([None]) when
    its body is not JSON and [rawText] what [res.text()] gave then, or an
    exception with its [message]. *)
Inductive FetchOutcome : Type :=
| Response (ok : bool) (status : nat) (data : option Data) (rawText : string)
| Rejected (message : option string).

(** The calls to [onMarkCustomerSent] and [onMarkCustomerFailed]. *)
Inductive Mark : Type :=
| MarkedSent (customerId context : string)
| MarkedFailed (customerId reason : string).

(** The variables of the loop and what it did to the outside. *)
Record Progress : Type := {
  success_count : nat;
  failures : list Failure;
  marks : list Mark;
  posts : list Server.SmsRequest
}.

(** What the handler leaves behind: the status line and the calls made. *)
Record Outcome : Type := {
  smsSendStatus : string;
  final : Progress
}.

Definition start : Progress :=
  {| success_count := 0; failures := []; marks := []; posts := [] |}.

Definition failed (cust : App.Customer) (msg : string) (c : option Z)
  (req : Server.SmsRequest) (acc : Progress) : Progress :=
  {| success_count := success_count acc;
     failures := failures acc ++
       [{| f_name := App.name cust; f_phone := App.phone cust;
           f_error := msg; f_code := c |}];
     marks := marks acc ++ [MarkedFailed (App.id cust) msg];
     posts := posts acc ++ [req] |}.

Definition succeeded (cust : App.Customer) (req : Server.SmsRequest)
  (acc : Progress) : Progress :=
  {| success_count := S (success_count acc);
     failures := failures acc;
     marks := marks acc ++ [MarkedSent (App.id cust) "settings"];
     posts := posts acc ++ [req] |}.

(** [`${v}`] of a field that may be [undefined]. *)
Definition interpolate (o : option string) : string :=
  match o with Some s => s | None => "undefined" end.

Definition code_21608 (f : Failure) : bool :=
  match f_code f with Some c => Z.eqb c 21608 | None => false end.

Definition unreachable_guidance : string :=
  "Failed to reach SMS API. Check: (1) Server running and reachable at /send-sms, (2) Vite dev proxy configured to backend, (3) Correct port (default 3002), (4) No firewall/ad-block.".

Section Handler.

Variables localTwilioSid localTwilioToken localTwilioPhone localSmsTemplate : string.
(** [buildPersonalizedMessage]: the template with its placeholders filled. *)
Variable buildPersonalizedMessage : App.Customer -> string.
(** The answer to the [n]-th POST. *)
Variable fetch : nat -> Server.SmsRequest -> FetchOutcome.
(** The [message] of the [TypeError] raised by reading a property of
    [null]. *)
Variable null_read_message : string.

(** The [catch (err)] of the loop body. *)
Definition caught (cust : App.Customer) (message : option string)
  (req : Server.SmsRequest) (acc : Progress) : Progress :=
  let rawMsg :=
    match message with
    | Some m => if Str.nonempty m then m else "Network error"
    | None => "Network error"
    end in
  let guidance :=
    if Str.includes "Failed to fetch" rawMsg || String.eqb rawMsg "Network error"
    then unreachable_guidance else rawMsg in
  failed cust guidance None req acc.

(** One turn of [for (let i = 0; ...)]. *)
Definition send_one (acc : Progress) (cust : App.Customer) : Progress :=
  let personalized := buildPersonalizedMessage cust in
  let payload :=
    {| Server.accountSid := Some localTwilioSid;
       Server.authToken := Some localTwilioToken;
       Server.from := Some localTwilioPhone;
       Server.to := Some (App.phone cust);
       Server.body := Some personalized;
       Server.statusCallback := None |} in
  match fetch (List.length (posts acc)) payload with
  | Rejected message => caught cust message payload acc
  | Response ok status data rawText =>
      if negb ok then
        let errMsg :=
          match Server.or_else (match data with Some d => error d | None => None end)
                  (Some rawText) with
          | Some m => m
          | None => ("HTTP " ++ Str.of_nat status)%string
          end in
        failed cust errMsg (match data with Some d => code d | None => None end)
          payload acc
      else
        match data with
        | Some d =>
            if success d then succeeded cust payload acc
            else
              let errMsg :=
                if Str.truthy (hint d)
                then (interpolate (error d) ++ " — " ++ interpolate (hint d))%string
                else match Server.or_else (error d) None with
                     | Some m => m
                     | None => "Unknown error"
                     end in
              failed cust errMsg (code d) payload acc
        | None => caught cust (Some null_read_message) payload acc
        end
  end.

(** The status line set after the loop. *)
Definition summary (total success : nat) (failures : list Failure) : string :=
  match failures with
  | [] => ("All " ++ Str.of_nat success ++ " SMS sent successfully.")%string
  | first :: _ =>
      let code21608 := filter code_21608 failures in
      if (List.length code21608 =? List.length failures)
         && (0 <? List.length failures)
      then
        ("Sent " ++ Str.of_nat success ++ "/" ++ Str.of_nat total ++ ". "
         ++ Str.of_nat (List.length failures)
         ++ " failed because numbers are not verified for a Twilio trial. Verify them or upgrade to remove this restriction.")%string
      else
        ("Sent " ++ Str.of_nat success ++ "/" ++ Str.of_nat total
         ++ ". Failed: " ++ Str.of_nat (List.length failures)
         ++ ". First error: " ++ f_name first ++ " - " ++ f_error first)%string
  end.

Definition handleSendSms (selectedRecipients : list App.Customer) : Outcome :=
  if negb (Str.nonempty localTwilioSid) || negb (Str.nonempty localTwilioToken)
     || negb (Str.nonempty localTwilioPhone)
     || (List.length selectedRecipients =? 0)
     || negb (Str.nonempty localSmsTemplate)
  then
    {| smsSendStatus :=
         "Please fill all Twilio fields, select at least one recipient, and enter a message.";
       final := start |}
  else
    let total := List.length selectedRecipients in
    let done := fold_left send_one selectedRecipients start in
    {| smsSendStatus := summary total (success_count done) (failures done);
       final := done |}.

End Handler.

End SettingsPage.

(** * Further code of the repository *)

(** ** More string operations *)

Module Text.

(** [c.toLowerCase()], within 8 bits: the letters A-Z and the capital
    letters of Latin-1 (192 to 222, the multiplication sign 215 apart). *)
Definition lower_char (c : ascii) : ascii :=
  let n := nat_of_ascii c in
  if ((65 <=? n) && (n <=? 90))
     || ((192 <=? n) && (n <=? 222) && negb (n =? 215))
  then ascii_of_nat (n + 32) else c.

Fixpoint toLowerCase (s : string) : string :=
  match s with
  | EmptyString => EmptyString
  | String c r => String (lower_char c) (toLowerCase r)
  end.

(** [s.slice(n)], for [n] not negative. *)
Fixpoint slice_from (n : nat) (s : string) : string :=
  match n, s with
  | S k, String _ r => slice_from k r
  | _, _ => s
  end.

(** [s.endsWith(p)] *)
Definition endsWith (p s : string) : bool :=
  (String.length p <=? String.length s)
  && String.eqb (slice_from (String.length s - String.length p) s) p.

(** [s.replace(/^c+/, "")]: the leading run of the character [c] removed. *)
Fixpoint strip_leading (c : ascii) (s : string) : string :=
  match s with
  | String a r => if Ascii.eqb a c then strip_leading c r else s
  | EmptyString => EmptyString
  end.

(** [s.replace(/^c/, "")]: one leading [c] removed. *)
Definition strip_one (c : ascii) (s : string) : string :=
  match s with
  | String a r => if Ascii.eqb a c then r else s
  | EmptyString => EmptyString
  end.

(** [p || "/"] and the like: the string, or the default when it is empty. *)
Definition or_default (s d : string) : string :=
  if Str.nonempty s then s else d.


End Text.

(** ** Paths and pages ([joinBase], [stripBase], [mapPathToPage],
    [pageToPath] and the initial page, App.tsx) *)

Module Routes.

Inductive Page : Type := Dashboard | Settings | Feedback | QuickFeedback.

Section Base.

(** [import.meta.env?.BASE_URL] *)
Variable env_BASE_URL : option string.

Definition BASE_URL : string :=
  match env_BASE_URL with
  | Some b => Text.or_default b "/"
  | None => "/"
  end.

Definition joinBase (slug : string) : string :=
  let b := if Text.endsWith "/" BASE_URL then BASE_URL else BASE_URL ++ "/" in
  let s := if Str.startsWith "/" slug then Text.slice_from 1 slug else slug in
  b ++ s.

Definition stripBase (p : string) : string :=
  let b := Text.toLowerCase (Text.or_default BASE_URL "/") in
  let lower := Text.toLowerCase (Text.or_default p "/") in
  if negb (String.eqb b "/") && Str.startsWith b lower then
    let rest := Text.slice_from (String.length BASE_URL) p in
    "/" ++ Text.strip_leading "/" rest
  else Text.or_default p "/".

Definition mapPathToPage (path : string) : Page :=
  let p := Text.toLowerCase (stripBase path) in
  if String.eqb p "/" || String.eqb p "" || String.eqb p "/dashboard"
  then Dashboard
  else if String.eqb p "/messenger" || String.eqb p "/settings" then Settings
  else if String.eqb p "/feedback" || String.eqb p "/feeback" then Feedback
  else if String.eqb p "/quick-feedback" || String.eqb p "/feeback-quick"
  then QuickFeedback
  else Dashboard.

Definition pageToPath (page : Page) : string :=
  match page with
  | Settings => joinBase "messenger"
  | Feedback => joinBase "feedback"
  | QuickFeedback => joinBase "quick-feedback"
  | Dashboard => joinBase ""
  end.

(** [initialPage], computed from [window.location.pathname] when the
    component is created. *)
Definition initialPage (pathname : string) : Page :=
  let pathRaw := Text.toLowerCase (stripBase pathname) in
  if String.eqb pathRaw "/messenger" || String.eqb pathRaw "/settings"
  then Settings
  else if String.eqb pathRaw "/feedback" || String.eqb pathRaw "/feeback"
  then Feedback
  else if String.eqb pathRaw "/quick-feedback" || String.eqb pathRaw "/feeback"
  then QuickFeedback
  else Dashboard.

End Base.

End Routes.

(** ** The Twilio WhatsApp endpoint ([POST /send-twilio-whatsapp],
    sms-server.js) *)

Module TwilioWhatsApp.

(** [req.body || {}] *)
Record Request : Type := {
  accountSid : option string;
  authToken : option string;
  fromWa : option string;
  to : option string;
  body : option string;
  statusCallback : option string
}.

(** The hint of the [catch] branch. *)
Definition hint (code : option Z) : option string :=
  match code with
  | Some 21606%Z =>
      Some "The From WhatsApp number is not a valid WhatsApp-enabled Twilio number."
  | Some 63016%Z | Some 63018%Z =>
      Some "WhatsApp sender is not approved to message this recipient or message template/permissions missing."
  | Some 63015%Z =>
      Some "Message failed by WhatsApp; verify content, compliance, and that the recipient has opted-in."
  | Some 21608%Z =>
      Some "Trial account restriction: destination number not verified."
  | Some 21211%Z =>
      Some "Check E.164 formatting and ensure the destination supports WhatsApp."
  | _ => None
  end.

Section Handler.

(** [process.env.TWILIO_STATUS_CALLBACK_URL] *)
Variable env_status_callback : option string.
(** The Twilio client the handler is linked with. *)
Variable twilio : Server.TwilioCall -> Server.TwilioOutcome.
(** [String(err)] of an exception whose [message] is empty. *)
Variable String_err : string.

(** The handler: its answer and the calls it made to the Twilio client. *)
Definition send_twilio_whatsapp (req : Request)
  : Server.Reply * list Server.TwilioCall :=
  let statusCallback := Server.or_else (statusCallback req) env_status_callback in
  if negb (Str.truthy (accountSid req)) || negb (Str.truthy (authToken req))
     || negb (Str.truthy (fromWa req)) || negb (Str.truthy (to req))
     || negb (Str.truthy (body req))
  then
    ({| Server.status := 400; Server.success := false;
        Server.error := Some "Missing required fields.";
        Server.original := None;
        Server.fields :=
          Some [("accountSid", Str.truthy (accountSid req));
                ("authToken", Str.truthy (authToken req));
                ("fromWa", Str.truthy (fromWa req));
                ("to", Str.truthy (to req));
                ("body", Str.truthy (body req))];
        Server.sid := None; Server.sent_to := None; Server.code := None;
        Server.hint := None |}, [])
  else
    let normFrom := Phone.normalizePhone (Server.get (fromWa req)) in
    let normTo := Phone.normalizePhone (Server.get (to req)) in
    match normFrom with
    | Phone.Fail reason =>
        ({| Server.status := 400; Server.success := false;
            Server.error := Some ("Invalid 'fromWa' number: " ++ reason);
            Server.original := fromWa req;
            Server.fields := None; Server.sid := None; Server.sent_to := None;
            Server.code := None; Server.hint := None |}, [])
    | Phone.Ok fromValue =>
        match normTo with
        | Phone.Fail reason =>
            ({| Server.status := 400; Server.success := false;
                Server.error := Some ("Invalid 'to' number: " ++ reason);
                Server.original := to req;
                Server.fields := None; Server.sid := None;
                Server.sent_to := None; Server.code := None;
                Server.hint := None |}, [])
        | Phone.Ok toValue =>
            let call :=
              {| Server.call_sid := Server.get (accountSid req);
                 Server.call_token := Server.get (authToken req);
                 Server.call_params :=
                   {| Server.p_body := Server.get (body req);
                      Server.p_from := "whatsapp:" ++ fromValue;
                      Server.p_to := "whatsapp:" ++ toValue;
                      Server.p_statusCallback := statusCallback |} |} in
            match twilio call with
            | Server.Created msid =>
                ({| Server.status := 200; Server.success := true;
                    Server.error := None; Server.original := None;
                    Server.fields := None; Server.sid := Some msid;
                    Server.sent_to := Some toValue; Server.code := None;
                    Server.hint := None |}, [call])
            | Server.Threw message code =>
                ({| Server.status := 500; Server.success := false;
                    Server.error :=
                      Some (Text.or_default message String_err);
                    Server.original := None; Server.fields := None;
                    Server.sid := None; Server.sent_to := None;
                    Server.code := code; Server.hint := hint code |}, [call])
            end
        end
    end.

End Handler.

End TwilioWhatsApp.

(** ** The Meta WhatsApp endpoints ([POST /send-whatsapp] and the hints of
    [POST /send-whatsapp-template], sms-server.js) *)

Module MetaSend.

(** [req.body] of [/send-whatsapp]; [debug] is [req.body.debug === true]. *)
Record Request : Type := {
  to : option string;
  body : option string;
  accessToken : option string;
  phoneNumberId : option string;
  debug : bool
}.

(** The POST to the messages endpoint of the Graph API: the phone number id
    of the URL, the bearer token, and the [to] and [text.body] of the JSON
    payload. *)
Record GraphCall : Type := {
  g_phoneNumberId : string;
  g_accessToken : string;
  g_to : string;
  g_body : string
}.

(** What the handler reads of the parsed answer: [data.error] and
    [data.messages[0].id]. *)
Record GraphData : Type := {
  g_error : option Meta.ApiError;
  g_message_id : option string
}.

(** [await fetch(url, ...)] and [await resp.json()]: a response with its
    status and parsed body ([None] for [null]), or an exception. *)
Inductive GraphOutcome : Type :=
| Responded (status : nat) (data : option GraphData)
| Threw (message : string).

(** [resp.ok] *)
Definition ok_status (status : nat) : bool := (200 <=? status) && (status <=? 299).

Record Reply : Type := {
  status : nat;
  success : bool;
  error : option string;
  original : option string;
  fields : option (list (string * bool));
  code : option Z;
  subcode : option Z;
  details : option Meta.ApiError;
  hint : option string;
  id : option string;
  sent_to : option string;
  raw : option (option GraphData)
}.

Definition refusal (error_ : string) (original_ : option string)
  (fields_ : option (list (string * bool))) : Reply :=
  {| status := 400; success := false; error := Some error_;
     original := original_; fields := fields_; code := None; subcode := None;
     details := None; hint := None; id := None; sent_to := None;
     raw := None |}.

Section Handler.

(** [process.env.WHATSAPP_ACCESS_TOKEN] and
    [process.env.WHATSAPP_PHONE_NUMBER_ID] *)
Variables env_access_token env_phone_number_id : option string.
(** [req.query?.debug] *)
Variable query_debug : option string.
(** The Graph API. *)
Variable graph : GraphCall -> GraphOutcome.
(** [String(err)] of an exception whose [message] is empty. *)
Variable String_err : string.

(** The handler: its answer and the POSTs it made to the Graph API. *)
Definition send_whatsapp (req : Request) : Reply * list GraphCall :=
  let accessToken := Server.or_else (accessToken req) env_access_token in
  let phoneNumberId := Server.or_else (phoneNumberId req) env_phone_number_id in
  let debug :=
    debug req
    || match query_debug with Some q => String.eqb q "1" | None => false end in
  if negb (Str.truthy accessToken) || negb (Str.truthy phoneNumberId)
     || negb (Str.truthy (to req)) || negb (Str.truthy (body req))
  then
    (refusal "Missing required fields." None
       (Some [("accessToken", Str.truthy accessToken);
              ("phoneNumberId", Str.truthy phoneNumberId);
              ("to", Str.truthy (to req));
              ("body", Str.truthy (body req))]), [])
  else
    match Phone.normalizePhone (Server.get (to req)) with
    | Phone.Fail reason =>
        (refusal ("Invalid 'to' number: " ++ reason) (to req) None, [])
    | Phone.Ok value =>
        let waTo := Text.strip_one "+" value in
        let call :=
          {| g_phoneNumberId := Server.get phoneNumberId;
             g_accessToken := Server.get accessToken;
             g_to := waTo;
             g_body := Server.get (body req) |} in
        match graph call with
        | Responded st data =>
            if negb (ok_status st) then
              let err :=
                match data with
                | Some d =>
                    match g_error d with Some e => e | None => Meta.no_error end
                | None => Meta.no_error
                end in
              ({| status := st; success := false;
                  error :=
                    Some (Text.or_default
                            (Server.get (Server.or_else (Meta.message err) None))
                            "WhatsApp API error");
                  original := None; fields := None;
                  code := Meta.code err; subcode := Meta.error_subcode err;
                  details := Some err;
                  hint := Meta.whatsapp_hint st err;
                  id := None; sent_to := None;
                  raw := if debug then Some data else None |}, [call])
            else
              ({| status := 200; success := true; error := None;
                  original := None; fields := None; code := None;
                  subcode := None; details := None; hint := None;
                  id := match data with
                        | Some d => g_message_id d
                        | None => None
                        end;
                  sent_to := Some waTo;
                  raw := if debug then Some data else None |}, [call])
        | Threw message =>
            ({| status := 500; success := false;
                error := Some (Text.or_default message String_err);
                original := None; fields := None; code := None;
                subcode := None; details := None; hint := None; id := None;
                sent_to := None; raw := None |}, [call])
        end
    end.

End Handler.

(** The hint of the [!resp.ok] branch of [/send-whatsapp-template]: three
    [if]s in a row, each overwriting the hint set before it. *)
Definition template_hint (resp_status : nat) (err : Meta.ApiError)
  : option string :=
  let hint0 : option string := None in
  let hint1 :=
    if resp_status =? 404
    then Some "Phone Number ID not found or token lacks permission."
    else hint0 in
  let hint2 :=
    if Meta.code_is 190 (Meta.code err) then
      let sub := Meta.error_subcode err in
      if Meta.code_is 463 sub then
        Some "Access token expired. Use a System User permanent token and rotate before expiry."
      else if Meta.code_is 467 sub then
        Some "Invalid token. Ensure token belongs to the same business and has WhatsApp scopes."
      else Some "Invalid or expired access token."
    else hint1 in
  if Meta.code_is 100 (Meta.code err)
  then Some "Invalid parameter. Check template name, language code, and opt-in."
  else hint2.

End MetaSend.

(** ** The handlers of the customer list ([handleAddCustomer],
    [handleSendMessage], [handleDeleteCustomer], [handleBulkAddCustomers],
    [markCustomerSent], [markCustomerFailed], [onAddFeedback], App.tsx) *)

Module Customers.

Local Open Scope list_scope.

(** A row of [customersData]: the fields [handleBulkAddCustomers] reads. *)
Record Row : Type := {
  r_name : string;
  r_phone : string
}.

(** What [handleBulkAddCustomers] returns. *)
Record BulkResult : Type := {
  added : nat;
  duplicates : nat;
  invalid : nat
}.




Section Runtime.

Variable env : App.Env.

(** A customer as [handleAddCustomer] and [handleBulkAddCustomers] create
    it, the clock and the random source having been read [t] times. *)
Definition new_customer (t : nat) (name phone : string) : App.Customer :=
  {| App.id :=
       ("cust-" ++ Str.of_Z (App.now env t) ++ "-" ++ App.random36 env t)%string;
     App.name := name;
     App.phone := phone;
     App.status := App.Pending;
     App.addedAt := App.now env (S t);
     App.rating := None;
     App.feedback := None |}.

(** [handleAddCustomer]: the id it returns, and the new state. *)
Definition handleAddCustomer (name phone : string) (w : App.World)
  : string * App.World :=
  let newCustomer := new_customer (App.ticks w) name phone in
  let w1 := App.tick 2 (App.setCustomers (fun prev => newCustomer :: prev) w) in
  let w2 := App.logActivity env "Added to customer list" (App.name newCustomer) w1 in
  (App.id newCustomer, App.enqueueSmsCustomers [App.id newCustomer] w2).

Definition handleSendMessage (customerId : string) (w : App.World) : App.World :=
  match find (App.has_id customerId) (App.customers w) with
  | None => w
  | Some _ => App.enqueueSmsCustomers [customerId] w
  end.


(** [customersData.map(d => ...)]: every row reads the clock twice and the
    random source once. *)
Fixpoint bulk_customers (t : nat) (customersData : list Row) : list App.Customer :=
  match customersData with
  | [] => []
  | d :: rest =>
      new_customer t (r_name d) (r_phone d) :: bulk_customers (2 + t) rest
  end.

Definition handleBulkAddCustomers (customersData : list Row) (w : App.World)
  : BulkResult * App.World :=
  let addedCustomers := bulk_customers (App.ticks w) customersData in
  let w1 :=
    App.tick (2 * List.length customersData)
      (App.setCustomers (fun prev => addedCustomers ++ prev) w) in
  let w2 :=
    fold_left (fun w c => App.logActivity env "Bulk uploaded" (App.name c) w)
      addedCustomers w1 in
  ({| added := List.length addedCustomers; duplicates := 0; invalid := 0 |},
   App.enqueueSmsCustomers (map App.id addedCustomers) w2).




End Runtime.

End Customers.

(** ** The other senders of the settings page ([SmsLengthInfo],
    [handleSendMetaWhatsapp]) *)

Module SmsLength.

(** [/[...]*$/.test(s)] for a character class: some position of [s], its
    end included, from which every character up to the end is of the
    class. *)
Fixpoint test_class_to_end (class : ascii -> bool) (s : string) : bool :=
  Str.all class s ||
  match s with
  | EmptyString => false
  | String _ r => test_class_to_end class r
  end.

Section Info.

(** The characters of the class of [GSM_BASIC]. *)
Variable GSM_BASIC : ascii -> bool.

Definition isGsm (personalizedSample : string) : bool :=
  test_class_to_end GSM_BASIC personalizedSample.

Definition singleLimit (personalizedSample : string) : nat :=
  if isGsm personalizedSample then 160 else 70.

Definition multiLimit (personalizedSample : string) : nat :=
  if isGsm personalizedSample then 153 else 67.

(** [Math.ceil(length / multiLimit)] *)
Definition ceil_div (a b : nat) : nat := (a + b - 1) / b.

Definition segments (personalizedSample : string) : nat :=
  let length := String.length personalizedSample in
  if singleLimit personalizedSample <? length
  then ceil_div length (multiLimit personalizedSample)
  else 1.

End Info.

End SmsLength.

Module WhatsAppBatch.

Local Open Scope list_scope.

(** An element of [failures]. *)
Record Failure : Type := {
  f_name : string;
  f_phone : string;
  f_error : string
}.

(** [await res.json().catch(() => ({}))]: the parsed object with the fields
    the handler reads, [null], or [{}] when the body is not JSON. *)
Inductive Body : Type :=
| Parsed (success : bool) (error : option string)
| Null
| NotJson.

(** [await fetch(...)]: a response, or an exception with its [message]. *)
Inductive FetchOutcome : Type :=
| Response (ok : bool) (status : nat) (data : Body)
| Rejected (message : option string).

Record Progress : Type := {
  success_count : nat;
  failures : list Failure;
  marks : list SettingsPage.Mark;
  posts : list MetaSend.Request
}.

Record Outcome : Type := {
  waSendStatus : string;
  final : Progress
}.

Definition start : Progress :=
  {| success_count := 0; failures := []; marks := []; posts := [] |}.

Definition failed (cust : App.Customer) (errMsg : string)
  (payload : MetaSend.Request) (acc : Progress) : Progress :=
  {| success_count := success_count acc;
     failures := failures acc ++
       [{| f_name := App.name cust; f_phone := App.phone cust;
           f_error := errMsg |}];
     marks := marks acc ++ [SettingsPage.MarkedFailed (App.id cust) errMsg];
     posts := posts acc ++ [payload] |}.

Definition succeeded (cust : App.Customer) (payload : MetaSend.Request)
  (acc : Progress) : Progress :=
  {| success_count := S (success_count acc);
     failures := failures acc;
     marks := marks acc ++ [SettingsPage.MarkedSent (App.id cust) "wa-meta"];
     posts := posts acc ++ [payload] |}.

Section Handler.

Variables waAccessToken waPhoneNumberId localSmsTemplate : string.
Variable waDebug : bool.
Variable buildPersonalizedMessage : App.Customer -> string.
(** The answer to the [n]-th POST. *)
Variable fetch : nat -> MetaSend.Request -> FetchOutcome.
(** The [message] of the [TypeError] raised by reading a property of
    [null]. *)
Variable null_read_message : string.

(** [e?.message || "Network error"] *)
Definition caught (cust : App.Customer) (message : option string)
  (payload : MetaSend.Request) (acc : Progress) : Progress :=
  failed cust
    (match Server.or_else message None with
     | Some m => m
     | None => "Network error"
     end) payload acc.

Definition http_text (status : nat) : string := "HTTP " ++ Str.of_nat status.

(** One turn of the loop. *)
Definition send_one (acc : Progress) (cust : App.Customer) : Progress :=
  let personalized := buildPersonalizedMessage cust in
  let payload :=
    {| MetaSend.to := Some (App.phone cust);
       MetaSend.body := Some personalized;
       MetaSend.accessToken := Some waAccessToken;
       MetaSend.phoneNumberId := Some waPhoneNumberId;
       MetaSend.debug := waDebug |} in
  match fetch (List.length (posts acc)) payload with
  | Rejected message => caught cust message payload acc
  | Response ok status data =>
      match data with
      | Parsed success error =>
          if negb ok || negb success then
            failed cust
              (match Server.or_else error None with
               | Some m => m
               | None => http_text status
               end) payload acc
          else succeeded cust payload acc
      | NotJson => failed cust (http_text status) payload acc
      | Null =>
          if negb ok then failed cust (http_text status) payload acc
          else caught cust (Some null_read_message) payload acc
      end
  end.

Definition summary (total success : nat) (failures : list Failure) : string :=
  match failures with
  | [] =>
      ("All " ++ Str.of_nat success
       ++ " WhatsApp messages sent successfully via Meta. (Note: 'success' = accepted by API, not guaranteed delivered. Use a template if user hasn't replied in 24h.)")%string
  | first :: _ =>
      ("Sent " ++ Str.of_nat success ++ "/" ++ Str.of_nat total
       ++ ". Failed: " ++ Str.of_nat (List.length failures)
       ++ ". First error: " ++ f_name first ++ " - " ++ f_error first)%string
  end.

Definition handleSendMetaWhatsapp (selectedRecipients : list App.Customer)
  : Outcome :=
  if negb (Str.nonempty waAccessToken) || negb (Str.nonempty waPhoneNumberId)
     || (List.length selectedRecipients =? 0)
     || negb (Str.nonempty localSmsTemplate)
  then
    {| waSendStatus :=
         "Enter WhatsApp Access Token, Phone Number ID, select recipients, and enter a message.";
       final := start |}
  else
    let total := List.length selectedRecipients in
    let done := fold_left send_one selectedRecipients start in
    {| waSendStatus := summary total (success_count done) (failures done);
       final := done |}.

End Handler.

End WhatsAppBatch.

(** ** The funnel figures of the dashboard ([FunnelAnalytics]) *)

Module Funnel.








End Funnel.

(** ** The upload of a customer sheet ([handleFileUpload], dashboard) *)

Module Upload.

Local Open Scope list_scope.

(** A cell of the sheet as [sheet_to_json] gives it: absent, a text, or a
    whole number.  Cells of other kinds are not modelled. *)
Inductive Cell : Type :=
| Missing
| Text (s : string)
| Num (z : Z).

(** JavaScript truthiness of a cell. *)
Definition truthy (c : Cell) : bool :=
  match c with
  | Missing => false
  | Text s => Str.nonempty s
  | Num z => negb (Z.eqb z 0)
  end.

(** [String(raw)] *)
Definition text (c : Cell) : string :=
  match c with
  | Missing => "undefined"
  | Text s => s
  | Num z => Str.of_Z z
  end.

(** [a || b] *)
Definition or_cell (a b : Cell) : Cell := if truthy a then a else b.

(** A row of the sheet: the columns [handleFileUpload] reads.  The name is a
    text when it is there. *)
Record SheetRow : Type := {
  customerName : option string;
  phoneNumber : Cell;
  phone : Cell;
  phoneNo : Cell;
  contact : Cell
}.

(** The local [normalizePhone] of [handleFileUpload]: the value when
    [ok]. *)
Definition normalizePhone (raw : Cell) : option string :=
  if negb (truthy raw) then None
  else
    let cleaned := Phone.cleaned (text raw) in
    if Str.startsWith "+" cleaned then
      let digits := String.substring 1 (String.length cleaned - 1) cleaned in
      if Phone.re_e164_digits digits then Some cleaned else None
    else
      let digitsOnly := Phone.strip_zeros cleaned in
      if Phone.re_mobile10 digitsOnly then Some ("+91" ++ digitsOnly)%string
      else if Phone.re_e164_digits digitsOnly then None
      else None.

Definition rawPhone (row : SheetRow) : Cell :=
  or_cell (or_cell (or_cell (phoneNumber row) (phone row)) (phoneNo row))
    (contact row).

(** The body of [json.flatMap]: the rows it gives, and what it adds to
    [normalizationInvalid]. *)
Definition row_result (row : SheetRow) : list Customers.Row * nat :=
  let name := customerName row in
  let norm := normalizePhone (rawPhone row) in
  match norm with
  | Some value =>
      if negb (Str.truthy name)
      then ([], if Str.truthy name && truthy (rawPhone row) then 1 else 0)
      else ([{| Customers.r_name := Server.get name;
                Customers.r_phone := value |}], 0)
  | None => ([], if Str.truthy name && truthy (rawPhone row) then 1 else 0)
  end.

Definition customersData (json : list SheetRow) : list Customers.Row :=
  flat_map (fun row => fst (row_result row)) json.

Definition normalizationInvalid (json : list SheetRow) : nat :=
  fold_left (fun n row => n + snd (row_result row)) json 0.

Definition nl : string := String (ascii_of_nat 10) EmptyString.

Definition no_data_alert : string :=
  "Could not find any valid customer data in the uploaded file (ensure headers like 'Customer Name' and 'Phone Number').".

Section Runtime.

Variable env : App.Env.

(** [reader.onload] once the sheet has been read into [json]: the text of
    the alert, and the new state. *)
Definition handleFileUpload (json : list SheetRow) (w : App.World)
  : string * App.World :=
  let data := customersData json in
  let bad := normalizationInvalid json in
  if 0 <? List.length data then
    let result := Customers.handleBulkAddCustomers env data w in
    let totalInvalid := Customers.invalid (fst result) + bad in
    (("Upload complete!" ++ nl ++ nl ++ "Added: "
      ++ Str.of_nat (Customers.added (fst result))
      ++ " new customers." ++ nl ++ "Duplicates Skipped: "
      ++ Str.of_nat (Customers.duplicates (fst result))
      ++ nl ++ "Invalid Entries Skipped: " ++ Str.of_nat totalInvalid
      ++ (if Nat.ltb 0 bad
          then " (Phone format issues: " ++ Str.of_nat bad ++ ")"
          else ""))%string,
     snd result)
  else (no_data_alert, w).

End Runtime.

End Upload.

(** * Vocabulary of the properties *)

(** ** Phone numbers *)

Definition digit_or_plus (c : ascii) : bool :=
  Str.is_digit c || Phone.is_plus c.

(** A string of digits only. *)
Definition Digits (s : string) : Prop :=
  forall c, In c (list_ascii_of_string s) -> Str.is_digit c = true.

(** A string that matches [[6-9][0-9]{9}]. *)
Definition Mobile10 (s : string) : Prop :=
  exists c r, s = String c r
    /\ (c = "6" \/ c = "7" \/ c = "8" \/ c = "9")%char
    /\ Digits r /\ String.length r = 9.

(** ** Customers and their feedback *)

(** The lookup of a customer by id, [customers.find(c => c.id === i)]. *)
Definition lookup (i : string) (w : App.World) : option App.Customer :=
  find (App.has_id i) (App.customers w).

Definition name_of (w : App.World) (i : string) : string :=
  match lookup i w with Some c => App.name c | None => "" end.

(** What an activity-log entry says: whom it is about and what happened. *)
Definition view (l : App.ActivityLog) : string * string :=
  (App.customerName l, App.action l).




(** ** The dispatch queue *)

(** The state after one firing of the queue effect that runs a batch. *)
Definition one_batch (env : App.Env) (w : App.World) : App.World :=
  let chunk := firstn 10 (App.smsQueue w) in
  App.setQueueActive false
    (fold_left (App.process_id env w) chunk
       (App.setSmsQueue (skipn (List.length chunk))
          (App.record_chunk chunk (App.setQueueActive true w)))).

(** [bs] cuts [ids] into batches of exactly 10 taken from the front, with a
    last batch for what remains. *)
Definition batched_by_10 (ids : list string) (bs : list (list string)) : Prop :=
  concat bs = ids
  /\ Forall (fun b => List.length b = 10) (removelast bs)
  /\ Forall (fun b => 1 <= List.length b <= 10) bs.

(** The guard of the drain holds a customer id back: no customer has it, or
    the customer found is not Pending. *)
Definition held_back (i : string) (w : App.World) : Prop :=
  lookup i w = None
  \/ exists c, lookup i w = Some c /\ App.status c <> App.Pending.

(** Going from [w] to [w'] nothing was sent for the id [i], and the
    customers with that id are as they were. *)
Definition untouched (i : string) (w w' : App.World) : Prop :=
  lookup i w' = lookup i w
  /\ filter (App.has_id i) (App.customers w')
     = filter (App.has_id i) (App.customers w)
  /\ exists new, App.requests w' = (App.requests w ++ new)%list
                 /\ forall r, In r new -> fst r <> i.

(** The Twilio settings are filled in. *)
Definition creds_ok (env : App.Env) : Prop :=
  App.twilioAccountSid (App.settings env) <> ""
  /\ App.twilioAuthToken (App.settings env) <> ""
  /\ App.twilioPhoneNumber (App.settings env) <> "".

(** The provider always succeeds: every POST is answered [success: true]. *)
Definition always_succeeds (env : App.Env) : Prop :=
  forall n req, exists data,
    App.fetch env n req = App.Answered data /\ Server.success data = true.

(** The POST that [sendSmsToCustomer] issues for a customer. *)
Definition sms_request (env : App.Env) (c : App.Customer) : Server.SmsRequest :=
  {| Server.accountSid := Some (App.twilioAccountSid (App.settings env));
     Server.authToken := Some (App.twilioAuthToken (App.settings env));
     Server.from := Some (App.twilioPhoneNumber (App.settings env));
     Server.to := Some (App.phone c);
     Server.body :=
       Some (App.formatTemplate env (App.settings env)
               (App.messageTemplate (App.settings env)) (App.name c)
               (App.phone c));
     Server.statusCallback := None |}.

(** Every POST for the customer is answered [success: true]. *)
Definition answered_ok (env : App.Env) (c : App.Customer) : Prop :=
  forall n, exists data,
    App.fetch env n (sms_request env c) = App.Answered data
    /\ Server.success data = true.

(** A customer the drain can send to: found under the id, Pending, with a
    phone entered. *)
Definition ready (i : string) (w : App.World) : Prop :=
  exists c, lookup i w = Some c /\ App.status c = App.Pending
            /\ App.phone c <> "".

(** The same, and the send succeeds. *)
Definition ready_ok (env : App.Env) (i : string) (w : App.World) : Prop :=
  exists c, lookup i w = Some c /\ App.status c = App.Pending
            /\ App.phone c <> "" /\ answered_ok env c.

(** The entry a successful send logs for the customer [i] of [w]. *)
Definition sent_entry (w : App.World) (i : string) : string * string :=
  (name_of w i, "Sent SMS").

(** How far the drain of the backlog [ids], entered in state [w0], has got
    in state [w1]: the ids [done] have been taken, in the batches [bs]; their
    customers are Sent and everybody else is as in [w0]; the log and the
    POSTs have grown by one entry per id of [done], in that order. *)
Definition drained_so_far (w0 : App.World) (ids : list string) (w1 : App.World)
  : Prop :=
  exists done bs,
    ids = (done ++ App.smsQueue w1)%list
    /\ (forall j, ~ In j done -> lookup j w1 = lookup j w0)
    /\ (forall j, In j done ->
          option_map App.status (lookup j w1) = Some App.Sent)
    /\ map view (App.activityLogs w1)
       = (rev (map (sent_entry w0) done) ++ map view (App.activityLogs w0))%list
    /\ map fst (App.requests w1) = (map fst (App.requests w0) ++ done)%list
    /\ App.chunks w1 = (App.chunks w0 ++ bs)%list
    /\ batched_by_10 done bs
    /\ (App.smsQueue w1 <> [] -> Forall (fun b => List.length b = 10) bs).

(** The endpoint as the SMS server implements it, linked with a Twilio
    client: the answer to a POST is the JSON the handler of [/send-sms]
    gives. *)
Definition served_by (twilio : Server.TwilioCall -> Server.TwilioOutcome)
  (_ : nat) (req : Server.SmsRequest) : App.FetchOutcome :=
  App.Answered (fst (Server.send_sms None twilio req)).

(** ** Examples *)

(** A runtime for the examples: the endpoint answers every POST with
    success, the clock stands still. *)
Definition env0 : App.Env :=
  {| App.settings :=
       {| App.messageTemplate := "Hi [Customer Name]";
          App.businessName := "Acme Inc.";
          App.googleReviewLink := "https://g.page/r/acme/review";
          App.twilioAccountSid := "AC0123";
          App.twilioAuthToken := "secret";
          App.twilioPhoneNumber := "+14155552671" |};
     App.formatTemplate := fun _ template _ _ => template;
     App.fetch := fun _ _ => App.Answered (Server.reply 200 true);
     App.now := fun _ => 0%Z;
     App.random36 := fun _ => "x" |}.

Definition customer (i : string) (s : App.CustomerStatus) : App.Customer :=
  {| App.id := i; App.name := "Customer " ++ i; App.phone := "9876543210";
     App.status := s; App.addedAt := 0%Z; App.rating := None;
     App.feedback := None |}.

(** A state in which no drain is running. *)
Definition idle (cs : list App.Customer) (queue : list string) : App.World :=
  {| App.customers := cs; App.activityLogs := []; App.smsQueue := queue;
     App.queueActive := false; App.requests := []; App.chunks := [];
     App.ticks := 0 |}.

Definition twelve : list string :=
  ["c01"; "c02"; "c03"; "c04"; "c05"; "c06"; "c07"; "c08"; "c09"; "c10";
   "c11"; "c12"].

(** An endpoint for the examples of the batch send: the first POST is
    answered with success, every later one with the trial-account error. *)
Definition trial_fetch (n : nat) (_ : Server.SmsRequest)
  : SettingsPage.FetchOutcome :=
  match n with
  | 0 =>
      SettingsPage.Response true 200
        (Some {| SettingsPage.success := true; SettingsPage.error := None;
                 SettingsPage.hint := None; SettingsPage.code := None |}) ""
  | _ =>
      SettingsPage.Response false 500
        (Some {| SettingsPage.success := false;
                 SettingsPage.error := Some "The number is unverified.";
                 SettingsPage.hint :=
                   Some "Trial account: destination number not verified.";
                 SettingsPage.code := Some 21608%Z |}) ""
  end.

(** ** Vocabulary of the further properties *)

(** An E.164 number: ['+'] and 10 to 15 digits. *)
Definition E164 (v : string) : Prop :=
  exists ds, v = String "+" ds /\ Digits ds /\ 10 <= String.length ds <= 15.

(** The request to [/send-sms] with the same fields as a request to
    [/send-twilio-whatsapp]. *)
Definition as_sms (req : TwilioWhatsApp.Request) : Server.SmsRequest :=
  {| Server.accountSid := TwilioWhatsApp.accountSid req;
     Server.authToken := TwilioWhatsApp.authToken req;
     Server.from := TwilioWhatsApp.fromWa req;
     Server.to := TwilioWhatsApp.to req;
     Server.body := TwilioWhatsApp.body req;
     Server.statusCallback := TwilioWhatsApp.statusCallback req |}.

(** A runtime whose clock ticks, so that the ids made from it differ. *)
Definition env1 : App.Env :=
  {| App.settings := App.settings env0;
     App.formatTemplate := App.formatTemplate env0;
     App.fetch := App.fetch env0;
     App.now := fun t => Z.of_nat t;
     App.random36 := fun _ => "x" |}.

(** What the activity log says about a row of a bulk upload. *)
Definition row_entry (action : string) (d : Customers.Row) : string * string :=
  (Customers.r_name d, action).

(** ** The calls a batch send makes *)

(** The customer a call to [onMarkCustomerSent] or [onMarkCustomerFailed]
    is about. *)
Definition mark_id (m : SettingsPage.Mark) : string :=
  match m with
  | SettingsPage.MarkedSent i _ => i
  | SettingsPage.MarkedFailed i _ => i
  end.

(** The reasons of the calls to [onMarkCustomerFailed], in order. *)
Definition failed_reasons (ms : list SettingsPage.Mark) : list string :=
  flat_map
    (fun m =>
       match m with
       | SettingsPage.MarkedFailed _ r => [r]
       | SettingsPage.MarkedSent _ _ => []
       end) ms.

(** The contexts of the calls to [onMarkCustomerSent], in order. *)
Definition sent_contexts (ms : list SettingsPage.Mark) : list string :=
  flat_map
    (fun m =>
       match m with
       | SettingsPage.MarkedSent _ c => [c]
       | SettingsPage.MarkedFailed _ _ => []
       end) ms.

(** The body of the POST to [/send-sms] for a recipient. *)
Definition sms_payload (sid token phone : string)
  (build : App.Customer -> string) (cust : App.Customer) : Server.SmsRequest :=
  {| Server.accountSid := Some sid;
     Server.authToken := Some token;
     Server.from := Some phone;
     Server.to := Some (App.phone cust);
     Server.body := Some (build cust);
     Server.statusCallback := None |}.

(** The body of the POST to [/send-whatsapp] for a recipient. *)
Definition wa_payload (token phoneNumberId : string) (debug : bool)
  (build : App.Customer -> string) (cust : App.Customer) : MetaSend.Request :=
  {| MetaSend.to := Some (App.phone cust);
     MetaSend.body := Some (build cust);
     MetaSend.accessToken := Some token;
     MetaSend.phoneNumberId := Some phoneNumberId;
     MetaSend.debug := debug |}.

(** An endpoint for the examples of the WhatsApp send: the first POST is
    accepted, every later one is refused. *)
Definition wa_fetch (n : nat) (_ : MetaSend.Request)
  : WhatsAppBatch.FetchOutcome :=
  match n with
  | 0 => WhatsAppBatch.Response true 200 (WhatsAppBatch.Parsed true None)
  | _ =>
      WhatsAppBatch.Response false 400
        (WhatsAppBatch.Parsed false (Some "Recipient not in allowed list"))
  end.

(** ** The settings page reporting to the customer list *)


(** ** The upload against the server *)

(** What the local normalizer of the upload keeps of a verdict of the
    server's. *)
Definition verdict (r : Phone.result) : option string :=
  match r with Phone.Ok v => Some v | Phone.Fail _ => None end.

(** A sheet for the examples: a text phone, a numeric phone, a phone that
    is too short, and a row without a name. *)
Definition sheet : list Upload.SheetRow :=
  [ {| Upload.customerName := Some "Ann";
       Upload.phoneNumber := Upload.Text "98765 43210";
       Upload.phone := Upload.Missing; Upload.phoneNo := Upload.Missing;
       Upload.contact := Upload.Missing |};
    {| Upload.customerName := Some "Bob";
       Upload.phoneNumber := Upload.Missing;
       Upload.phone := Upload.Num 9123456780;
       Upload.phoneNo := Upload.Missing; Upload.contact := Upload.Missing |};
    {| Upload.customerName := Some "Cy";
       Upload.phoneNumber := Upload.Text "12345";
       Upload.phone := Upload.Missing; Upload.phoneNo := Upload.Missing;
       Upload.contact := Upload.Missing |};
    {| Upload.customerName := None;
       Upload.phoneNumber := Upload.Text "+14155552671";
       Upload.phone := Upload.Missing; Upload.phoneNo := Upload.Missing;
       Upload.contact := Upload.Missing |} ].

(** A runtime whose endpoint is the SMS server linked with a Twilio client
    that creates every message, and whose clock ticks. *)
Definition env2 : App.Env :=
  {| App.settings := App.settings env0;
     App.formatTemplate := App.formatTemplate env0;
     App.fetch := served_by (fun _ => Server.Created "SM1");
     App.now := fun t => Z.of_nat t;
     App.random36 := fun _ => "x" |}.

(** * Properties *)

(** ** Strings *)

Lemma all_spec (p : ascii -> bool) (s : string) :
  Str.all p s = true <-> (forall c, In c (list_ascii_of_string s) -> p c = true).
Proof.
  induction s as [|a s IH]; simpl.
  - split; [intros _ c [] | reflexivity].
  - rewrite andb_true_iff, IH. split.
    + intros [Ha Hs] c [<-|Hc]; auto.
    + intros H. split; [apply H; now left | intros c Hc; apply H; now right].
Qed.

Lemma all_keep (p : ascii -> bool) (s : string) : Str.all p (Str.keep p s) = true.
Proof.
  induction s as [|a s IH]; simpl; [reflexivity|].
  destruct (p a) eqn:E; simpl; [rewrite E|]; assumption.
Qed.

Lemma all_weaken (p q : ascii -> bool) (s : string) :
  (forall c, p c = true -> q c = true) -> Str.all p s = true -> Str.all q s = true.
Proof.
  intros Hpq. induction s as [|a s IH]; simpl; [reflexivity|].
  rewrite !andb_true_iff. intros [Ha Hs]. split; auto.
Qed.

Lemma keep_all (p : ascii -> bool) (s : string) :
  Str.all p s = true -> Str.keep p s = s.
Proof.
  induction s as [|a s IH]; simpl; [reflexivity|].
  rewrite andb_true_iff. intros [-> Hs]. now rewrite IH.
Qed.

Lemma trim_end_no_space (s : string) :
  Str.all (fun c => negb (Str.is_space c)) s = true -> Str.trim_end s = s.
Proof.
  induction s as [|a s IH]; simpl; [reflexivity|].
  rewrite andb_true_iff, negb_true_iff. intros [Ha Hs].
  rewrite (IH Hs), Ha. now destruct s.
Qed.

Lemma trim_no_space (s : string) :
  Str.all (fun c => negb (Str.is_space c)) s = true -> Str.trim s = s.
Proof.
  intros H. unfold Str.trim.
  assert (Hs : Str.trim_start s = s).
  { destruct s as [|a s]; simpl in *; [reflexivity|].
    apply andb_true_iff in H as [Ha _]. apply negb_true_iff in Ha.
    now rewrite Ha. }
  rewrite Hs. now apply trim_end_no_space.
Qed.

Lemma substring_whole (s : string) : String.substring 0 (String.length s) s = s.
Proof. induction s as [|a s IH]; simpl; [reflexivity | now rewrite IH]. Qed.

Lemma substring_tail (a : ascii) (s : string) :
  String.substring 1 (String.length (String a s) - 1) (String a s) = s.
Proof. simpl. rewrite Nat.sub_0_r. apply substring_whole. Qed.

Lemma startsWith_plus (s : string) : Str.startsWith "+" (String "+" s) = true.
Proof. unfold Str.startsWith. simpl. now destruct s. Qed.

(** ** The phone normalizer *)

Lemma digit_or_plus_no_space (c : ascii) :
  digit_or_plus c = true -> negb (Str.is_space c) = true.
Proof.
  unfold digit_or_plus, Str.is_digit, Phone.is_plus, Str.is_space.
  intros H. apply orb_true_iff in H as [H|H].
  - apply andb_true_iff in H as [H1 H2].
    apply Nat.leb_le in H1, H2. apply negb_true_iff.
    repeat (apply orb_false_iff; split);
      try apply andb_false_iff; try (right; apply Nat.leb_gt; lia);
      apply Nat.eqb_neq; lia.
  - apply Ascii.eqb_eq in H. now subst c.
Qed.

Lemma cleaned_keep (raw : string) : Phone.cleaned raw = Str.keep digit_or_plus raw.
Proof.
  unfold Phone.cleaned. apply trim_no_space.
  apply all_weaken with (p := digit_or_plus).
  - apply digit_or_plus_no_space.
  - apply (all_keep digit_or_plus).
Qed.

Lemma cleaned_idem (raw : string) : Phone.cleaned (Phone.cleaned raw) = Phone.cleaned raw.
Proof.
  rewrite !cleaned_keep. apply keep_all, all_keep.
Qed.

Lemma re_e164_digits_spec (s : string) :
  Phone.re_e164_digits s = true <->
  Digits s /\ 10 <= String.length s <= 15.
Proof.
  unfold Phone.re_e164_digits, Digits.
  rewrite !andb_true_iff, all_spec, !Nat.leb_le. tauto.
Qed.

Lemma six_to_nine (c : ascii) :
  (54 <=? nat_of_ascii c) && (nat_of_ascii c <=? 57) = true <->
  (c = "6" \/ c = "7" \/ c = "8" \/ c = "9")%char.
Proof.
  split.
  - rewrite andb_true_iff, !Nat.leb_le. intros [H1 H2].
    rewrite <- (ascii_nat_embedding c).
    assert (nat_of_ascii c = 54 \/ nat_of_ascii c = 55 \/ nat_of_ascii c = 56
            \/ nat_of_ascii c = 57) as [E|[E|[E|E]]] by lia;
      rewrite E; auto.
  - intros [->|[->|[->| ->]]]; reflexivity.
Qed.

Lemma re_mobile10_spec (s : string) : Phone.re_mobile10 s = true <-> Mobile10 s.
Proof.
  unfold Phone.re_mobile10, Mobile10, Digits. destruct s as [|c r].
  - split; [discriminate | intros (c & r & H & _); discriminate].
  - rewrite !andb_true_iff, all_spec, Nat.eqb_eq. split.
    + intros [[H6 Hd] Hl]. exists c, r. repeat split; auto.
      apply six_to_nine. now apply andb_true_iff.
    + intros (c' & r' & [= -> ->] & H6 & Hd & Hl). repeat split; auto;
        apply six_to_nine in H6; apply andb_true_iff in H6; tauto.
Qed.

(** C3: when the cleaned form of the input is ['+'] followed by 10 to 15
    digits, [normalizePhone] succeeds with that cleaned, ['+']-prefixed value
    as it is; when the cleaned form starts with ['+'] and what follows is not
    10 to 15 digits, it fails with "Invalid E.164 format". *)
Theorem normalize_plus_prefixed (raw rest : string) :
  Phone.cleaned raw = String "+" rest ->
  ((Digits rest /\ 10 <= String.length rest <= 15) ->
     Phone.normalizePhone raw = Phone.Ok (Phone.cleaned raw))
  /\ (~ (Digits rest /\ 10 <= String.length rest <= 15) ->
     Phone.normalizePhone raw = Phone.Fail "Invalid E.164 format").
Proof.
  intros Hc. unfold Phone.normalizePhone.
  assert (Hraw : Str.nonempty raw = true).
  { destruct raw; [discriminate Hc | reflexivity]. }
  rewrite Hraw, Hc, startsWith_plus, substring_tail. cbn [negb].
  destruct (Phone.re_e164_digits rest) eqn:E.
  - apply re_e164_digits_spec in E. split; [reflexivity | tauto].
  - split; [|reflexivity]. intros H. apply re_e164_digits_spec in H. congruence.
Qed.

Lemma normalize_plus_prefixed_witness :
  Phone.cleaned "+1 (415) 555-2671" = "+14155552671"
  /\ Phone.normalizePhone "+1 (415) 555-2671" = Phone.Ok "+14155552671"
  /\ Phone.normalizePhone "+1 (415) 555" = Phone.Fail "Invalid E.164 format".
Proof.
  split; [reflexivity|]. split.
  - apply (normalize_plus_prefixed "+1 (415) 555-2671" "14155552671" eq_refl).
    apply re_e164_digits_spec. reflexivity.
  - apply (normalize_plus_prefixed "+1 (415) 555" "1415555" eq_refl).
    intros [_ [H _]]. simpl in H. lia.
Defined.



(** C5, as the specification words it, fails: the first step keeps every
    ['+'], not only a leading one, so an interior ['+'] stays in the cleaned
    value and the number is rejected, while the number with that ['+']
    deleted is accepted. *)
Lemma normalize_interior_plus_differs :
  Phone.normalizePhone "98765+43210" = Phone.Fail "Unrecognized phone pattern"
  /\ Phone.spec_strip "98765+43210" = "9876543210"
  /\ Phone.normalizePhone (Phone.spec_strip "98765+43210")
     = Phone.Ok "+919876543210"
  /\ ~ (forall raw, Phone.normalizePhone raw
                    = Phone.normalizePhone (Phone.spec_strip raw)).
Proof.
  repeat split. intros H. specialize (H "98765+43210"). discriminate H.
Qed.

(** C5 (amended): the first step deletes every character that is neither a
    digit nor a ['+'] and keeps every ['+']; for every input that keeps at
    least one character, [normalizePhone] gives the same result on the input
    and on its cleaned form. *)
Theorem normalize_of_cleaned (raw : string) :
  Phone.cleaned raw <> "" ->
  Phone.cleaned raw
    = Str.keep (fun c => Str.is_digit c || Ascii.eqb c "+") raw
  /\ Phone.normalizePhone raw = Phone.normalizePhone (Phone.cleaned raw).
Proof.
  intros Hne. split; [apply cleaned_keep|].
  unfold Phone.normalizePhone. rewrite cleaned_idem.
  destruct raw as [|a raw]; [reflexivity|].
  destruct (Phone.cleaned (String a raw)); [congruence | reflexivity].
Qed.

Lemma normalize_of_cleaned_witness :
  Phone.cleaned "+91 98765-43210" = "+919876543210"
  /\ Phone.normalizePhone "+91 98765-43210" = Phone.normalizePhone "+919876543210".
Proof.
  split; [reflexivity|].
  apply (normalize_of_cleaned "+91 98765-43210"). discriminate.
Defined.

(** ** The SMS endpoint *)

(** C6: a [/send-sms] request with a required field missing, or whose
    [from] or [to] number fails normalization, is answered with HTTP 400 and
    [success: false]; the reason is made by the handler itself (the answer
    is the same whatever Twilio client is linked) and the Twilio client is
    not called at all, so nothing is sent and nothing is sent again. *)
Theorem send_sms_input_error
  (env_cb : option string) (twilio : Server.TwilioCall -> Server.TwilioOutcome)
  (req : Server.SmsRequest) :
  Server.missing_field req
  \/ Phone.ok (Phone.normalizePhone (Server.get (Server.from req))) = false
  \/ Phone.ok (Phone.normalizePhone (Server.get (Server.to req))) = false ->
  let answer := fst (Server.send_sms env_cb twilio req) in
  Server.status answer = 400
  /\ Server.success answer = false
  /\ snd (Server.send_sms env_cb twilio req) = []
  /\ (Server.error answer = Some "Missing required fields."
      \/ (exists reason,
            Phone.normalizePhone (Server.get (Server.from req)) = Phone.Fail reason
            /\ Server.error answer = Some ("Invalid 'from' number: " ++ reason))
      \/ (exists reason,
            Phone.normalizePhone (Server.get (Server.to req)) = Phone.Fail reason
            /\ Server.error answer = Some ("Invalid 'to' number: " ++ reason)))
  /\ (forall twilio', Server.send_sms env_cb twilio' req
                      = Server.send_sms env_cb twilio req).
Proof.
  intros H. unfold Server.send_sms.
  destruct (negb (Str.truthy (Server.accountSid req))
            || negb (Str.truthy (Server.authToken req))
            || negb (Str.truthy (Server.from req))
            || negb (Str.truthy (Server.to req))
            || negb (Str.truthy (Server.body req))) eqn:Em.
  - cbn. repeat split; auto.
  - repeat (apply orb_false_iff in Em as [Em ?]).
    rewrite negb_false_iff in *.
    destruct (Phone.normalizePhone (Server.get (Server.from req))) as [fv|fr] eqn:Ef.
    + destruct (Phone.normalizePhone (Server.get (Server.to req))) as [tv|tr] eqn:Et.
      * exfalso. destruct H as [H|[H|H]]; try discriminate H.
        unfold Server.missing_field in H. intuition congruence.
      * cbn. repeat split; eauto.
    + cbn. repeat split; eauto.
Qed.

Lemma send_sms_input_error_witness :
  let req :=
    {| Server.accountSid := Some "AC0123"; Server.authToken := Some "secret";
       Server.from := Some "+14155552671"; Server.to := Some "abc";
       Server.body := Some "Hello"; Server.statusCallback := None |} in
  Server.send_sms None (fun _ => Server.Created "SM1") req
  = ({| Server.status := 400; Server.success := false;
        Server.error := Some "Invalid 'to' number: Unrecognized phone pattern";
        Server.original := Some "abc"; Server.fields := None;
        Server.sid := None; Server.sent_to := None; Server.code := None;
        Server.hint := None |}, [])
  /\ Server.status (fst (Server.send_sms None (fun _ => Server.Created "SM1") req)) = 400.
Proof.
  intros req. split; [reflexivity|].
  apply (send_sms_input_error None (fun _ => Server.Created "SM1") req).
  right. right. reflexivity.
Defined.

(** ** The Meta hints *)

(** C7, as stated, fails: the HTTP status is looked at first, so an answer
    with status 404 that carries code 190 and subcode 463 gets the hint about
    the Phone Number ID, which does not mention "expired". *)
Lemma whatsapp_hint_404_before_190 :
  let err := {| Meta.message := Some "Error validating access token";
                Meta.code := Some 190%Z; Meta.error_subcode := Some 463%Z;
                Meta.error_data_details := None |} in
  Meta.whatsapp_hint 404 err = Some Meta.hint_404
  /\ Meta.mentions "expired" (Meta.whatsapp_hint 404 err) = false.
Proof. split; reflexivity. Qed.

(** C7 (amended): an HTTP 404 answer gets the hint about the Phone Number
    ID not being found or the token lacking permission, whatever its error
    code; when the status is not 404, code 190 with subcode 463 gets a hint
    mentioning "expired" and code 190 with subcode 467 the hint that the
    access token is invalid; and when the status is not 404, the code is none
    of 190, 100 and 131026 and the detail text fits none of the patterns, the
    hint is [undefined].  The classification is a total function: it gives an
    answer on every input. *)
Theorem whatsapp_hint_table (resp_status : nat) (err : Meta.ApiError) :
  (resp_status = 404 ->
     Meta.mentions "Phone Number ID not found or token lacks permission"
       (Meta.whatsapp_hint resp_status err) = true)
  /\ (resp_status <> 404 -> Meta.code err = Some 190%Z ->
      Meta.error_subcode err = Some 463%Z ->
      Meta.whatsapp_hint resp_status err = Some Meta.hint_expired
      /\ Meta.mentions "expired" (Meta.whatsapp_hint resp_status err) = true)
  /\ (resp_status <> 404 -> Meta.code err = Some 190%Z ->
      Meta.error_subcode err = Some 467%Z ->
      Meta.whatsapp_hint resp_status err = Some Meta.hint_invalid_token
      /\ Meta.mentions "Invalid access token"
           (Meta.whatsapp_hint resp_status err) = true)
  /\ (resp_status <> 404 ->
      Meta.code err <> Some 190%Z -> Meta.code err <> Some 100%Z ->
      Meta.code err <> Some 131026%Z ->
      (forall d, Meta.details_of err = Meta.JStr d ->
                 Meta.re_window d = false /\ Meta.re_unsupported d = false) ->
      Meta.whatsapp_hint resp_status err = None).
Proof.
  unfold Meta.whatsapp_hint.
  assert (Hc : forall n o, Meta.code_is n o = true <-> o = Some n).
  { intros n [m|]; simpl; [|split; discriminate].
    rewrite Z.eqb_eq. split; congruence. }
  split; [|split; [|split]].
  - intros ->. reflexivity.
  - intros Hs H190 H463. apply Nat.eqb_neq in Hs. rewrite Hs, H190, H463.
    split; reflexivity.
  - intros Hs H190 H467. apply Nat.eqb_neq in Hs. rewrite Hs, H190, H467.
    split; reflexivity.
  - intros Hs H190 H100 H131 Hd. apply Nat.eqb_neq in Hs. rewrite Hs.
    destruct (Meta.code_is 190 (Meta.code err)) eqn:E1;
      [apply Hc in E1; contradiction|].
    destruct (Meta.code_is 100 (Meta.code err)) eqn:E2;
      [apply Hc in E2; contradiction|].
    destruct (Meta.code_is 131026 (Meta.code err)) eqn:E3;
      [apply Hc in E3; contradiction|].
    destruct (Meta.details_of err) as [d|]; [|reflexivity].
    destruct (Hd d eq_refl) as [-> ->]. reflexivity.
Qed.

Lemma whatsapp_hint_table_witness :
  let err := {| Meta.message := Some "Error validating access token";
                Meta.code := Some 190%Z; Meta.error_subcode := Some 463%Z;
                Meta.error_data_details := None |} in
  Meta.mentions "expired" (Meta.whatsapp_hint 401 err) = true
  /\ Meta.whatsapp_hint 400
       {| Meta.message := Some "Unknown"; Meta.code := Some 1%Z;
          Meta.error_subcode := None; Meta.error_data_details := None |} = None.
Proof.
  intros err. split.
  - apply (whatsapp_hint_table 401 err); [discriminate | reflexivity | reflexivity].
  - apply whatsapp_hint_table; try discriminate.
    intros d [= <-]. split; reflexivity.
Defined.

(** ** The customer list *)

Lemma has_id_with_status (i : string) (s : App.CustomerStatus) (c : App.Customer) :
  App.has_id i (App.with_status s c) = App.has_id i c.
Proof. reflexivity. Qed.

Lemma find_mark (i j : string) (s : App.CustomerStatus) (l : list App.Customer) :
  find (App.has_id j) (App.mark i s l)
  = option_map (fun c => if App.has_id i c then App.with_status s c else c)
      (find (App.has_id j) l).
Proof.
  induction l as [|c l IH]; [reflexivity|]. simpl.
  destruct (App.has_id i c) eqn:Ei.
  - rewrite has_id_with_status. destruct (App.has_id j c); simpl.
    + now rewrite Ei.
    + apply IH.
  - destruct (App.has_id j c); simpl.
    + now rewrite Ei.
    + apply IH.
Qed.

Lemma find_has_id (i : string) (l : list App.Customer) (c : App.Customer) :
  find (App.has_id i) l = Some c -> App.id c = i.
Proof.
  intros H. apply find_some in H as [_ H]. now apply String.eqb_eq in H.
Qed.

Lemma find_mark_other (i j : string) (s : App.CustomerStatus) (l : list App.Customer) :
  i <> j -> find (App.has_id j) (App.mark i s l) = find (App.has_id j) l.
Proof.
  intros Hij. rewrite find_mark.
  destruct (find (App.has_id j) l) as [c|] eqn:E; [|reflexivity]. simpl.
  apply find_has_id in E. unfold App.has_id. rewrite E.
  apply not_eq_sym, String.eqb_neq in Hij. now rewrite Hij.
Qed.

Lemma find_mark_same (i : string) (s : App.CustomerStatus) (l : list App.Customer) :
  find (App.has_id i) (App.mark i s l)
  = option_map (App.with_status s) (find (App.has_id i) l).
Proof.
  rewrite find_mark.
  destruct (find (App.has_id i) l) as [c|] eqn:E; [|reflexivity]. simpl.
  apply find_has_id in E. unfold App.has_id. rewrite E, String.eqb_refl.
  reflexivity.
Qed.

(** C8, as stated, fails: the click handler does not look at the status, so
    a customer that is still Pending is moved to Clicked. *)
Lemma funnel_click_moves_pending :
  let c := {| App.id := "cust-1"; App.name := "Asha"; App.phone := "9876543210";
              App.status := App.Pending; App.addedAt := 0%Z;
              App.rating := None; App.feedback := None |} in
  let w := {| App.customers := [c]; App.activityLogs := [];
              App.smsQueue := []; App.queueActive := false;
              App.requests := []; App.chunks := []; App.ticks := 0 |} in
  let w' := App.handleOpenFunnel env0 "cust-1" w in
  option_map App.status (find (App.has_id "cust-1") (App.customers w))
    = Some App.Pending
  /\ option_map App.status (find (App.has_id "cust-1") (App.customers w'))
    = Some App.Clicked.
Proof. split; reflexivity. Qed.

(** C8 (amended): the funnel-link-opened event moves the customer with the
    given id to Clicked whatever its status was, Sent in particular; it
    changes nothing else of that customer, leaves the customers with another
    id as they were, and adds one activity-log entry with the customer's
    name.  When no customer has the id, nothing changes. *)
Theorem funnel_click_sets_clicked
  (env : App.Env) (customerId : string) (w : App.World) :
  let w' := App.handleOpenFunnel env customerId w in
  (find (App.has_id customerId) (App.customers w) = None -> w' = w)
  /\ (forall cust,
        find (App.has_id customerId) (App.customers w) = Some cust ->
        find (App.has_id customerId) (App.customers w')
          = Some (App.with_status App.Clicked cust)
        /\ (forall j, j <> customerId ->
              find (App.has_id j) (App.customers w')
              = find (App.has_id j) (App.customers w))
        /\ (exists entry,
              App.activityLogs w' = entry :: App.activityLogs w
              /\ App.customerName entry = App.name cust
              /\ App.action entry = "Clicked review link (simulation)")).
Proof.
  unfold App.handleOpenFunnel. split.
  - intros ->. reflexivity.
  - intros cust E. rewrite E. cbn. repeat split.
    + now rewrite find_mark_same, E.
    + intros j Hj. apply find_mark_other. congruence.
    + eexists. repeat split.
Qed.

Lemma funnel_click_sets_clicked_witness :
  let c := {| App.id := "cust-1"; App.name := "Asha"; App.phone := "9876543210";
              App.status := App.Sent; App.addedAt := 0%Z;
              App.rating := None; App.feedback := None |} in
  let w := {| App.customers := [c]; App.activityLogs := [];
              App.smsQueue := []; App.queueActive := false;
              App.requests := []; App.chunks := []; App.ticks := 0 |} in
  find (App.has_id "cust-1")
    (App.customers (App.handleOpenFunnel env0 "cust-1" w))
  = Some (App.with_status App.Clicked c).
Proof.
  intros c w.
  apply (funnel_click_sets_clicked env0 "cust-1" w).
  reflexivity.
Defined.












(** ** The batch send of the settings page *)

Section BatchSend.

Variables sid token phone template : string.
Variable build : App.Customer -> string.
Variable fetch : nat -> Server.SmsRequest -> SettingsPage.FetchOutcome.
Variable null_read_message : string.



End BatchSend.



Lemma nonempty_true (s : string) : s <> "" -> Str.nonempty s = true.
Proof. destruct s; [congruence | reflexivity]. Qed.


(** ** The dispatch queue *)

Section Drain.

Variable env : App.Env.

Lemma send_fields (c : App.Customer) (w : App.World) :
  App.smsQueue (App.sendSmsToCustomer env c w) = App.smsQueue w
  /\ App.queueActive (App.sendSmsToCustomer env c w) = App.queueActive w
  /\ App.chunks (App.sendSmsToCustomer env c w) = App.chunks w.
Proof.
  unfold App.sendSmsToCustomer.
  destruct (_ || _); [repeat split|].
  destruct (App.fetch env _ _) as [data|m];
    [destruct (Server.success data)|]; repeat split.
Qed.

(** A send marks the customers that have the id of the one sent to, logs
    one entry under that customer's name, and issues at most one POST, for
    that id. *)
Lemma send_shape (c : App.Customer) (w : App.World) :
  exists s entry new,
    App.customers (App.sendSmsToCustomer env c w)
      = App.mark (App.id c) s (App.customers w)
    /\ App.activityLogs (App.sendSmsToCustomer env c w)
      = entry :: App.activityLogs w
    /\ App.customerName entry = App.name c
    /\ App.requests (App.sendSmsToCustomer env c w) = (App.requests w ++ new)%list
    /\ (forall r, In r new -> fst r = App.id c).
Proof.
  unfold App.sendSmsToCustomer.
  destruct (_ || _).
  - eexists _, _, []. cbn. rewrite app_nil_r. repeat split. intros r [].
  - destruct (App.fetch env _ _) as [data|m];
      [destruct (Server.success data)|];
      eexists _, _, [_]; cbn; repeat split; intros r [<-|[]]; reflexivity.
Qed.

Lemma send_success (c : App.Customer) (w : App.World) :
  creds_ok env -> answered_ok env c -> App.phone c <> "" ->
  exists entry req,
    App.customers (App.sendSmsToCustomer env c w)
      = App.mark (App.id c) App.Sent (App.customers w)
    /\ App.activityLogs (App.sendSmsToCustomer env c w)
      = entry :: App.activityLogs w
    /\ view entry = (App.name c, "Sent SMS")
    /\ App.requests (App.sendSmsToCustomer env c w)
      = (App.requests w ++ [(App.id c, req)])%list.
Proof.
  intros (H1 & H2 & H3) Hf Hp. unfold App.sendSmsToCustomer.
  rewrite !nonempty_true by assumption. cbn [negb orb].
  match goal with |- context [App.fetch env ?n ?r] =>
    change r with (sms_request env c);
    destruct (Hf n) as (data & -> & ->) end.
  eexists _, _. cbn. repeat split.
Qed.

Lemma process_id_cases (snap w : App.World) (i : string) :
  App.process_id env snap w i = w
  \/ exists c, lookup i snap = Some c /\ App.status c = App.Pending
               /\ App.id c = i
               /\ App.process_id env snap w i = App.sendSmsToCustomer env c w.
Proof.
  unfold App.process_id, lookup.
  destruct (find (App.has_id i) (App.customers snap)) as [c|] eqn:E; [|now left].
  destruct (App.status c) eqn:Es; cbn; auto.
  right. exists c. repeat split; auto. now apply find_has_id in E.
Qed.

Lemma fold_fields (snap : App.World) (chunk : list string) (w : App.World) :
  App.smsQueue (fold_left (App.process_id env snap) chunk w) = App.smsQueue w
  /\ App.queueActive (fold_left (App.process_id env snap) chunk w)
     = App.queueActive w
  /\ App.chunks (fold_left (App.process_id env snap) chunk w) = App.chunks w.
Proof.
  revert w. induction chunk as [|i chunk IH]; intros w; simpl; [repeat split|].
  destruct (IH (App.process_id env snap w i)) as (-> & -> & ->).
  destruct (process_id_cases snap w i) as [->|(c & _ & _ & _ & ->)];
    [repeat split | apply send_fields].
Qed.

(** One firing of the effect on a render that is not draining and has a
    backlog: [run] goes once round its loop, then finds itself cancelled. *)
Lemma sms_effect_runs_one_batch (w : App.World) :
  App.queueActive w = false -> App.smsQueue w <> [] ->
  App.sms_effect env 2 w = Some (one_batch env w).
Proof.
  intros Ha Hq. unfold App.sms_effect. rewrite Ha.
  destruct (App.smsQueue w) as [|i q] eqn:Eq; [congruence|].
  cbn [List.length Nat.eqb]. unfold App.run, one_batch.
  cbn [App.run_loop]. rewrite Eq. cbn [List.length Nat.ltb Nat.leb negb andb].
  match goal with
  | |- context [fold_left ?f ?l ?a] =>
      destruct (fold_fields w l a) as (_ & Hact & _);
      set (w2 := fold_left f l a) in *
  end.
  unfold App.deps_changed. rewrite Hact, Ha. reflexivity.
Qed.

Lemma skipn_firstn_length {A : Type} (n : nat) (l : list A) :
  skipn (List.length (firstn n l)) l = skipn n l.
Proof.
  rewrite length_firstn. destruct (Nat.le_ge_cases n (List.length l)) as [H|H].
  - now rewrite Nat.min_l.
  - rewrite Nat.min_r by assumption. now rewrite !skipn_all2.
Qed.

Lemma one_batch_fields (w : App.World) :
  App.smsQueue (one_batch env w) = skipn 10 (App.smsQueue w)
  /\ App.queueActive (one_batch env w) = false
  /\ App.chunks (one_batch env w)
     = (App.chunks w ++ [firstn 10 (App.smsQueue w)])%list.
Proof.
  unfold one_batch.
  match goal with
  | |- context [fold_left ?f ?l ?a] =>
      destruct (fold_fields w l a) as (Hq & _ & Hc)
  end.
  unfold App.setQueueActive at 1 3 5.
  cbn [App.smsQueue App.queueActive App.chunks].
  rewrite Hq, Hc.
  unfold App.setSmsQueue, App.record_chunk, App.setQueueActive.
  cbn [App.smsQueue App.queueActive App.chunks].
  rewrite skipn_firstn_length. repeat split.
Qed.

(** The drain ends, and what every batch preserves holds at its end. *)
Lemma drain_invariant (P : App.World -> Prop) :
  (forall w, App.queueActive w = false -> App.smsQueue w <> [] ->
             P w -> P (one_batch env w)) ->
  forall fuel w,
    List.length (App.smsQueue w) <= fuel -> App.queueActive w = false -> P w ->
    exists w', App.drain env fuel w = Some w' /\ P w'
               /\ App.smsQueue w' = [] /\ App.queueActive w' = false.
Proof.
  intros Hstep. induction fuel as [|fuel IH]; intros w Hlen Ha HP.
  - destruct (App.smsQueue w) eqn:Eq; [|simpl in Hlen; lia].
    exists w. simpl. rewrite Eq. auto.
  - destruct (App.smsQueue w) as [|i q] eqn:Eq.
    + exists w. simpl. rewrite Eq. auto.
    + cbn [App.drain]. rewrite Eq.
      rewrite sms_effect_runs_one_batch by (congruence || assumption).
      destruct (one_batch_fields w) as (Hq' & Ha' & _).
      apply IH; auto.
      * rewrite Hq', length_skipn, Eq. simpl in *. lia.
      * apply Hstep; auto. congruence.
Qed.

Lemma filter_mark_other (i j : string) (s : App.CustomerStatus) (l : list App.Customer) :
  j <> i -> filter (App.has_id i) (App.mark j s l) = filter (App.has_id i) l.
Proof.
  intros Hji. induction l as [|c l IH]; [reflexivity|]. simpl.
  destruct (App.has_id j c) eqn:Ej.
  - rewrite has_id_with_status.
    assert (Ei : App.has_id i c = false).
    { apply String.eqb_eq in Ej. apply String.eqb_neq. congruence. }
    now rewrite Ei.
  - now rewrite IH.
Qed.

Lemma untouched_refl (i : string) (w : App.World) : untouched i w w.
Proof.
  repeat split. exists []. rewrite app_nil_r. split; [reflexivity | intros r []].
Qed.

Lemma untouched_trans (i : string) (w1 w2 w3 : App.World) :
  untouched i w1 w2 -> untouched i w2 w3 -> untouched i w1 w3.
Proof.
  intros (Hl & Hf & n1 & Hr & Hn) (Hl' & Hf' & n2 & Hr' & Hn').
  split; [congruence|]. split; [congruence|].
  exists (n1 ++ n2)%list. split.
  - now rewrite Hr', Hr, app_assoc.
  - intros r Hin. apply in_app_or in Hin as [H|H]; auto.
Qed.


(** A send for another id leaves the id untouched. *)
Lemma send_untouched (i : string) (c : App.Customer) (w : App.World) :
  App.id c <> i -> untouched i w (App.sendSmsToCustomer env c w).
Proof.
  intros Hc. destruct (send_shape c w) as (s & entry & new & Hcu & _ & _ & Hr & Hn).
  unfold untouched, lookup. rewrite Hcu, Hr. repeat split.
  - now apply find_mark_other.
  - now apply filter_mark_other.
  - exists new. split; [reflexivity|]. intros r Hin. rewrite (Hn r Hin). exact Hc.
Qed.




Lemma find_marks_out (s : App.CustomerStatus) (j : string) (chunk : list string)
  (l : list App.Customer) :
  ~ In j chunk ->
  find (App.has_id j) (fold_left (fun l i => App.mark i s l) chunk l)
  = find (App.has_id j) l.
Proof.
  revert l. induction chunk as [|a chunk IH]; intros l Hn; simpl; [reflexivity|].
  rewrite IH by (intros H; apply Hn; now right).
  apply find_mark_other. intros ->. apply Hn. now left.
Qed.

Lemma find_marks_in (s : App.CustomerStatus) (j : string) (chunk : list string)
  (l : list App.Customer) :
  In j chunk ->
  find (App.has_id j) (fold_left (fun l i => App.mark i s l) chunk l)
  = option_map (App.with_status s) (find (App.has_id j) l).
Proof.
  revert l. induction chunk as [|a chunk IH]; intros l Hin; simpl; [destruct Hin|].
  destruct (in_dec string_dec j chunk) as [Hj|Hj].
  - rewrite IH by assumption. rewrite find_mark.
    destruct (find (App.has_id j) l) as [c|]; [|reflexivity]. simpl.
    now destruct (App.has_id a c).
  - destruct Hin as [->|Hin]; [|contradiction].
    rewrite find_marks_out by assumption. apply find_mark_same.
Qed.

(** A batch of customers that are ready and whose sends succeed: each is
    marked Sent, logged and posted, in the order of the batch. *)
Lemma fold_success (snap : App.World) (chunk : list string) :
  creds_ok env ->
  (forall i, In i chunk -> ready_ok env i snap) ->
  forall w,
    let w2 := fold_left (App.process_id env snap) chunk w in
    App.customers w2
      = fold_left (fun l i => App.mark i App.Sent l) chunk (App.customers w)
    /\ map view (App.activityLogs w2)
      = (rev (map (sent_entry snap) chunk) ++ map view (App.activityLogs w))%list
    /\ map fst (App.requests w2) = (map fst (App.requests w) ++ chunk)%list.
Proof.
  intros Hc. induction chunk as [|i chunk IH]; intros Hr w.
  - simpl. rewrite app_nil_r. auto.
  - destruct (Hr i (or_introl eq_refl)) as (c & Hl & Hs & Hp & Hf).
    assert (Hi : App.id c = i) by (eapply find_has_id; exact Hl).
    assert (E : App.process_id env snap w i = App.sendSmsToCustomer env c w).
    { unfold App.process_id. unfold lookup in Hl. now rewrite Hl, Hs. }
    destruct (send_success c w Hc Hf Hp) as (entry & req & Hcu & Hlog & Hv & Hreq).
    cbn [fold_left]. rewrite E.
    destruct (IH (fun j Hj => Hr j (or_intror Hj)) (App.sendSmsToCustomer env c w))
      as (Hcu' & Hlog' & Hreq').
    cbv zeta in *. rewrite Hcu', Hlog', Hreq', Hcu, Hlog, Hreq, Hi.
    split; [reflexivity|]. split.
    + cbn [map rev]. rewrite Hv, <- app_assoc.
      unfold sent_entry at 3, name_of. now rewrite Hl.
    + rewrite map_app, <- app_assoc. reflexivity.
Qed.

Lemma one_batch_success (w : App.World) :
  creds_ok env ->
  (forall i, In i (firstn 10 (App.smsQueue w)) -> ready_ok env i w) ->
  let chunk := firstn 10 (App.smsQueue w) in
  App.customers (one_batch env w)
    = fold_left (fun l i => App.mark i App.Sent l) chunk (App.customers w)
  /\ map view (App.activityLogs (one_batch env w))
    = (rev (map (sent_entry w) chunk) ++ map view (App.activityLogs w))%list
  /\ map fst (App.requests (one_batch env w))
    = (map fst (App.requests w) ++ chunk)%list.
Proof.
  intros Hc Hr chunk. unfold one_batch. fold chunk.
  match goal with
  | |- context [fold_left ?f ?l ?a] =>
      destruct (fold_success w chunk Hc Hr a) as (H1 & H2 & H3)
  end.
  cbv zeta in *. split; [exact H1|]. split; [exact H2 | exact H3].
Qed.

End Drain.


Lemma batched_12 (ids : list string) (bs : list (list string)) :
  batched_by_10 ids bs -> List.length ids = 12 -> map (@List.length string) bs = [10; 2].
Proof.
  intros (Hc & Hfull & Hsz) Hl. rewrite <- Hc in Hl. clear Hc.
  destruct bs as [|b1 [|b2 [|b3 bs]]]; simpl in *.
  - discriminate.
  - rewrite app_nil_r in Hl. inversion Hsz; subst. lia.
  - rewrite app_nil_r, length_app in Hl.
    inversion Hfull as [|? ? H1 _]; subst.
    replace (List.length b2) with 2 by lia. now rewrite H1.
  - inversion Hfull as [|? ? H1 Hfull']; subst.
    inversion Hfull' as [|? ? H2 _]; subst.
    inversion Hsz as [|? ? _ Hsz']; subst.
    inversion Hsz' as [|? ? _ Hsz'']; subst.
    inversion Hsz'' as [|? ? H3 _]; subst.
    rewrite !length_app in Hl. lia.
Qed.

Lemma NoDup_app_disjoint {A : Type} (l1 l2 : list A) (a : A) :
  NoDup (l1 ++ l2) -> In a l1 -> ~ In a l2.
Proof.
  induction l1 as [|x l1 IH]; simpl; [intros _ []|].
  intros Hnd [->|Hin] H2.
  - inversion Hnd as [|? ? Hx _]; subst. apply Hx, in_or_app. now right.
  - inversion Hnd; subst. now apply IH.
Qed.

Lemma one_batch_progress (env : App.Env) (w0 : App.World) (ids : list string) :
  creds_ok env -> NoDup ids ->
  (forall i, In i ids -> ready_ok env i w0) ->
  forall w1, App.queueActive w1 = false -> App.smsQueue w1 <> [] ->
    drained_so_far w0 ids w1 -> drained_so_far w0 ids (one_batch env w1).
Proof.
  intros Hc Hnd Hr w1 Ha Hne
    (done & bs & Hids & Hout & Hin & Hlog & Hreq & Hch & (Hcat & Hfull & Hsz) & Hall).
  set (chunk := firstn 10 (App.smsQueue w1)).
  set (rest := skipn 10 (App.smsQueue w1)).
  assert (Hq : App.smsQueue w1 = (chunk ++ rest)%list)
    by (symmetry; apply firstn_skipn).
  assert (Hfresh : forall i, In i chunk -> ~ In i done).
  { intros i Hi Hd. rewrite Hids, Hq in Hnd.
    apply (NoDup_app_disjoint _ _ i Hnd Hd), in_or_app. now left. }
  assert (Hsame : forall i, In i chunk -> lookup i w1 = lookup i w0)
    by (intros i Hi; apply Hout, Hfresh, Hi).
  assert (Hready : forall i, In i chunk -> ready_ok env i w1).
  { intros i Hi. unfold ready_ok. rewrite (Hsame i Hi). apply Hr.
    rewrite Hids, Hq. apply in_or_app. right. apply in_or_app. now left. }
  destruct (one_batch_success env w1 Hc Hready) as (Hcu & Hlog' & Hreq').
  destruct (one_batch_fields env w1) as (Hq' & _ & Hch').
  fold chunk in Hcu, Hlog', Hreq', Hch'. fold rest in Hq'.
  assert (Hlen : 1 <= List.length chunk <= 10).
  { unfold chunk. rewrite length_firstn.
    destruct (App.smsQueue w1); [congruence | cbn [List.length]; lia]. }
  exists (done ++ chunk)%list, (bs ++ [chunk])%list.
  split; [|split; [|split; [|split; [|split; [|split; [|split]]]]]].
  - rewrite Hq', Hids, Hq. now rewrite app_assoc.
  - intros j Hj. unfold lookup at 1. rewrite Hcu, find_marks_out.
    + apply Hout. intros H. apply Hj, in_or_app. now left.
    + intros H. apply Hj, in_or_app. now right.
  - intros j Hj. unfold lookup. rewrite Hcu.
    destruct (in_dec string_dec j chunk) as [Hjc|Hjc].
    + rewrite find_marks_in by assumption.
      destruct (Hready j Hjc) as (c & Hl & _). unfold lookup in Hl.
      now rewrite Hl.
    + rewrite find_marks_out by assumption. apply Hin.
      apply in_app_or in Hj as [H|H]; [assumption | contradiction].
  - rewrite Hlog', Hlog, map_app, rev_app_distr, <- app_assoc.
    do 2 f_equal. apply map_ext_in. intros i Hi.
    unfold sent_entry, name_of. now rewrite (Hsame i).
  - rewrite Hreq', Hreq. now rewrite app_assoc.
  - rewrite Hch', Hch. now rewrite app_assoc.
  - split; [|split].
    + rewrite concat_app, Hcat. simpl. now rewrite app_nil_r.
    + rewrite removelast_last. now apply Hall.
    + apply Forall_app. split; [assumption|]. now constructor.
  - rewrite Hq'. intros Hrest. apply Forall_app. split; [now apply Hall|].
    constructor; [|constructor]. unfold chunk. rewrite length_firstn.
    assert (10 < List.length (App.smsQueue w1)); [|lia].
    destruct (Nat.le_gt_cases (List.length (App.smsQueue w1)) 10) as [H|H];
      [|assumption].
    exfalso. apply Hrest. unfold rest. now apply skipn_all2.
Qed.

(** The drain of a backlog of ready customers whose sends succeed. *)
Lemma drain_of_ready (env : App.Env) (w0 : App.World) (ids : list string) :
  creds_ok env ->
  App.queueActive w0 = false -> App.smsQueue w0 = [] ->
  NoDup ids -> (forall i, In i ids -> ready_ok env i w0) ->
  exists w',
    App.drain env (List.length ids) (App.enqueueSmsCustomers ids w0) = Some w'
    /\ App.smsQueue w' = []
    /\ (exists bs,
          App.chunks w' = (App.chunks w0 ++ bs)%list
          /\ batched_by_10 ids bs
          /\ (List.length ids = 12 -> map (@List.length string) bs = [10; 2]))
    /\ (forall i, In i ids -> option_map App.status (lookup i w') = Some App.Sent)
    /\ rev (firstn (List.length ids) (map view (App.activityLogs w')))
       = map (sent_entry w0) ids
    /\ map view (App.activityLogs w')
       = (rev (map (sent_entry w0) ids) ++ map view (App.activityLogs w0))%list
    /\ map fst (App.requests w') = (map fst (App.requests w0) ++ ids)%list.
Proof.
  intros Hc Ha Hq Hnd Hr.
  set (wq := App.enqueueSmsCustomers ids w0).
  assert (Hwq : App.smsQueue wq = ids) by (cbn; now rewrite Hq).
  destruct (drain_invariant env (drained_so_far wq ids)) with
    (fuel := List.length ids) (w := wq)
    as (w' & Hd & (done & bs & Hids & _ & Hin & Hlog & Hreq & Hch & Hb & _) & Hq' & _).
  - intros w1. now apply one_batch_progress.
  - rewrite Hwq. apply le_n.
  - exact Ha.
  - exists [], []. rewrite Hwq. repeat split; auto; try constructor.
    all: try (intros j []); now rewrite app_nil_r.
  - rewrite Hq', app_nil_r in Hids. subst done.
    exists w'. split; [exact Hd|]. split; [exact Hq'|].
    split; [|split; [|split; [|split]]].
    + exists bs. split; [exact Hch|]. split; [exact Hb|]. now apply batched_12.
    + exact Hin.
    + rewrite Hlog.
      replace (List.length ids)
        with (List.length (rev (map (sent_entry wq) ids)) + 0)
        by (now rewrite length_rev, length_map, Nat.add_0_r).
      rewrite firstn_app_2. cbn [firstn]. now rewrite app_nil_r, rev_involutive.
    + exact Hlog.
    + exact Hreq.
Qed.


(** C1: ids of customers that are ready (found, Pending, with a phone), all
    different, are enqueued on an idle queue, and the provider always
    succeeds.  The drain then ends with the backlog empty; the batches it
    took cut the ids, in order, into batches of exactly 10 with a last batch
    for the rest, so 12 ids make exactly 2 batches, of 10 and of 2; every one
    of the customers ends up Sent; and one "Sent SMS" entry per id has been
    added to the activity log in enqueue order (the log is kept newest
    first), with one POST per id in the same order. *)
Theorem drain_batches_of_ten (env : App.Env) (w0 : App.World) (ids : list string) :
  creds_ok env -> always_succeeds env ->
  App.queueActive w0 = false -> App.smsQueue w0 = [] ->
  NoDup ids -> (forall i, In i ids -> ready i w0) ->
  exists w',
    App.drain env (List.length ids) (App.enqueueSmsCustomers ids w0) = Some w'
    /\ App.smsQueue w' = []
    /\ (exists bs,
          App.chunks w' = (App.chunks w0 ++ bs)%list
          /\ batched_by_10 ids bs
          /\ (List.length ids = 12 -> map (@List.length string) bs = [10; 2]))
    /\ (forall i, In i ids -> option_map App.status (lookup i w') = Some App.Sent)
    /\ rev (firstn (List.length ids) (map view (App.activityLogs w')))
       = map (sent_entry w0) ids
    /\ map view (App.activityLogs w')
       = (rev (map (sent_entry w0) ids) ++ map view (App.activityLogs w0))%list
    /\ map fst (App.requests w') = (map fst (App.requests w0) ++ ids)%list.
Proof.
  intros Hc Hf Ha Hq Hnd Hr.
  assert (Hok : forall i, In i ids -> ready_ok env i w0).
  { intros i Hi. destruct (Hr i Hi) as (c & Hl & Hs & Hp).
    exists c. repeat split; auto. intros n. apply Hf. }
  set (wq := App.enqueueSmsCustomers ids w0).
  assert (Hwq : App.smsQueue wq = ids) by (cbn; now rewrite Hq).
  destruct (drain_invariant env (drained_so_far wq ids)) with
    (fuel := List.length ids) (w := wq)
    as (w' & Hd & (done & bs & Hids & _ & Hin & Hlog & Hreq & Hch & Hb & _) & Hq' & _).
  - intros w1. now apply one_batch_progress.
  - rewrite Hwq. apply le_n.
  - exact Ha.
  - exists [], []. rewrite Hwq. repeat split; auto; try constructor.
    all: try (intros j []); now rewrite app_nil_r.
  - rewrite Hq', app_nil_r in Hids. subst done.
    exists w'. split; [exact Hd|]. split; [exact Hq'|].
    split; [|split; [|split; [|split]]].
    + exists bs. split; [exact Hch|]. split; [exact Hb|]. now apply batched_12.
    + exact Hin.
    + rewrite Hlog.
      replace (List.length ids)
        with (List.length (rev (map (sent_entry wq) ids)) + 0)
        by (now rewrite length_rev, length_map, Nat.add_0_r).
      rewrite firstn_app_2. cbn [firstn]. now rewrite app_nil_r, rev_involutive.
    + exact Hlog.
    + exact Hreq.
Qed.

Lemma drain_batches_of_ten_witness :
  exists w',
    App.drain env0 12
      (App.enqueueSmsCustomers twelve
         (idle (map (fun i => customer i App.Pending) twelve) [])) = Some w'
    /\ map (@List.length string) (App.chunks w') = [10; 2]
    /\ map App.status (App.customers w') = repeat App.Sent 12
    /\ rev (map App.customerName (App.activityLogs w'))
       = map (fun i => "Customer " ++ i) twelve.
Proof.
  set (w0 := idle (map (fun i => customer i App.Pending) twelve) []).
  destruct (drain_batches_of_ten env0 w0 twelve)
    as (w' & Hd & _ & (bs & Hch & _ & H12) & _).
  - repeat split; discriminate.
  - intros n req. eexists. split; reflexivity.
  - reflexivity.
  - reflexivity.
  - repeat constructor; simpl; intuition discriminate.
  - intros i Hi. simpl in Hi.
    repeat (destruct Hi as [<-|Hi];
            [eexists; split; [reflexivity | split; [reflexivity | discriminate]]|]).
    destruct Hi.
  - exists w'. split; [exact Hd|]. split.
    + rewrite Hch. simpl. now apply H12.
    + cbv in Hd. injection Hd as <-. split; reflexivity.
Defined.


(** ** The queue against the SMS server *)

Section EndToEnd.

Variable env : App.Env.
Variable twilio : Server.TwilioCall -> Server.TwilioOutcome.
Hypothesis served : forall n req, App.fetch env n req = served_by twilio n req.
Hypothesis creds : creds_ok env.

(** A customer with a phone the normalizer accepts, a sender number it
    accepts too, a message that is not empty and a Twilio client that
    creates the message: the POST is answered with success. *)
Lemma valid_phone_answered_ok (c : App.Customer) :
  (forall call, exists sid, twilio call = Server.Created sid) ->
  Phone.ok (Phone.normalizePhone (App.twilioPhoneNumber (App.settings env))) = true ->
  Phone.ok (Phone.normalizePhone (App.phone c)) = true ->
  App.phone c <> "" ->
  App.formatTemplate env (App.settings env)
    (App.messageTemplate (App.settings env)) (App.name c) (App.phone c) <> "" ->
  answered_ok env c.
Proof.
  intros Htw Hfrom Hto Hp Hbody n. rewrite served.
  destruct creds as (H1 & H2 & H3).
  unfold served_by, Server.send_sms, sms_request.
  cbn [Server.accountSid Server.authToken Server.from Server.to Server.body
       Server.statusCallback Str.truthy Server.get].
  rewrite !nonempty_true by assumption. cbn [negb orb].
  destruct (Phone.normalizePhone (App.twilioPhoneNumber (App.settings env)));
    [|discriminate].
  destruct (Phone.normalizePhone (App.phone c)); [|discriminate].
  match goal with |- context [twilio ?call] =>
    destruct (Htw call) as (sid & ->) end.
  eexists. split; reflexivity.
Qed.

(** A customer whose phone the normalizer rejects: the server answers
    without calling Twilio, the customer becomes Failed, and from then on
    the drain holds the id back. *)
Lemma invalid_phone_fails_locally (c : App.Customer) (w : App.World) :
  App.phone c <> "" ->
  Phone.ok (Phone.normalizePhone (App.phone c)) = false ->
  snd (Server.send_sms None twilio (sms_request env c)) = []
  /\ App.customers (App.sendSmsToCustomer env c w)
     = App.mark (App.id c) App.Failed (App.customers w)
  /\ (lookup (App.id c) w <> None ->
      held_back (App.id c) (App.sendSmsToCustomer env c w)).
Proof.
  intros Hp Hbad.
  assert (Hsrv :
    Server.success (fst (Server.send_sms None twilio (sms_request env c))) = false
    /\ snd (Server.send_sms None twilio (sms_request env c)) = []).
  { destruct creds as (H1 & H2 & H3). unfold Server.send_sms, sms_request.
    cbn [Server.accountSid Server.authToken Server.from Server.to Server.body
         Server.statusCallback Str.truthy Server.get].
    rewrite !nonempty_true by assumption.
    destruct (Str.nonempty _); cbn [negb orb]; [|split; reflexivity].
    destruct (Phone.normalizePhone (App.twilioPhoneNumber (App.settings env)));
      [|split; reflexivity].
    destruct (Phone.normalizePhone (App.phone c));
      [discriminate Hbad | split; reflexivity]. }
  destruct Hsrv as [Hs Hcalls].
  assert (Hcu : App.customers (App.sendSmsToCustomer env c w)
                = App.mark (App.id c) App.Failed (App.customers w)).
  { destruct creds as (H1 & H2 & H3). unfold App.sendSmsToCustomer.
    rewrite !nonempty_true by assumption. cbn [negb orb].
    match goal with |- context [App.fetch env ?n ?r] =>
      change r with (sms_request env c); rewrite (served n) end.
    unfold served_by. rewrite Hs. reflexivity. }
  split; [exact Hcalls|]. split; [exact Hcu|].
  intros Hl. right. unfold lookup in *. rewrite Hcu, find_mark_same.
  destruct (find (App.has_id (App.id c)) (App.customers w)) as [c'|];
    [|congruence].
  exists (App.with_status App.Failed c'). split; [reflexivity | discriminate].
Qed.

(** The drain against the server: customers that are Pending and whose
    phone the normalizer accepts, with a Twilio client that always creates
    the message, are all Sent, in batches of ten. *)
Lemma drain_against_server (w0 : App.World) (ids : list string) :
  (forall call, exists sid, twilio call = Server.Created sid) ->
  Phone.ok (Phone.normalizePhone (App.twilioPhoneNumber (App.settings env)))
  = true ->
  (forall name phone,
     App.formatTemplate env (App.settings env)
       (App.messageTemplate (App.settings env)) name phone <> "") ->
  App.queueActive w0 = false -> App.smsQueue w0 = [] -> NoDup ids ->
  (forall i, In i ids ->
     exists c, lookup i w0 = Some c /\ App.status c = App.Pending
               /\ Phone.ok (Phone.normalizePhone (App.phone c)) = true) ->
  exists w' bs,
    App.drain env (List.length ids) (App.enqueueSmsCustomers ids w0) = Some w'
    /\ App.chunks w' = (App.chunks w0 ++ bs)%list
    /\ batched_by_10 ids bs
    /\ (forall i, In i ids ->
          option_map App.status (lookup i w') = Some App.Sent)
    /\ map fst (App.requests w') = (map fst (App.requests w0) ++ ids)%list.
Proof.
  intros Htw Hfrom Hbody Ha Hq Hnd Hr.
  destruct (drain_of_ready env w0 ids creds Ha Hq Hnd)
    as (w' & Hd & _ & (bs & Hch & Hb & _) & Hs & _ & _ & Hreq).
  - intros i Hi. destruct (Hr i Hi) as (c & Hl & Hp & Hv).
    assert (Hne : App.phone c <> "").
    { intros E. rewrite E in Hv. discriminate Hv. }
    exists c. repeat split; auto.
    now apply valid_phone_answered_ok.
  - exists w', bs. auto.
Qed.

End EndToEnd.

(** * Further properties *)

(** ** The phone normalizer *)

Lemma startsWith_plus_inv (s : string) :
  Str.startsWith "+" s = true -> exists r, s = String "+" r.
Proof.
  unfold Str.startsWith. destruct s as [|a s]; [discriminate|].
  cbn [String.prefix]. destruct (ascii_dec "+" a) as [<-|_].
  - intros _. now exists s.
  - discriminate.
Qed.

Lemma Digits_cons (c : ascii) (s : string) :
  Digits (String c s) <-> Str.is_digit c = true /\ Digits s.
Proof.
  unfold Digits. simpl. split.
  - intros H. split; [apply H; now left | intros x Hx; apply H; now right].
  - intros [Hc Hs] x [<-|Hx]; auto.
Qed.

Lemma Digits_keep (s : string) : Digits s -> Str.keep digit_or_plus s = s.
Proof.
  intros H. apply keep_all, all_spec. intros c Hc.
  unfold digit_or_plus. now rewrite (H c Hc).
Qed.

Lemma E164_cleaned (v : string) : E164 v -> Phone.cleaned v = v.
Proof.
  intros (ds & -> & Hd & _). rewrite cleaned_keep. simpl.
  now rewrite Digits_keep.
Qed.

Lemma E164_accepted (v : string) : E164 v -> Phone.normalizePhone v = Phone.Ok v.
Proof.
  intros Hv. pose proof (E164_cleaned v Hv) as Hc.
  destruct Hv as (ds & -> & Hd & Hl).
  unfold Phone.normalizePhone. cbn [Str.nonempty negb]. rewrite Hc.
  rewrite startsWith_plus, substring_tail.
  assert (E : Phone.re_e164_digits ds = true) by now apply re_e164_digits_spec.
  now rewrite E.
Qed.

(** The two ways [normalizePhone] succeeds. *)
Lemma normalize_ok_cases (raw v : string) :
  Phone.normalizePhone raw = Phone.Ok v ->
  (exists r, Phone.cleaned raw = String "+" r /\ v = String "+" r
             /\ Phone.re_e164_digits r = true)
  \/ (exists d, Phone.strip_zeros (Phone.cleaned raw) = d /\ v = "+91" ++ d
                /\ Phone.re_mobile10 d = true
                /\ Str.startsWith "+" (Phone.cleaned raw) = false).
Proof.
  unfold Phone.normalizePhone.
  destruct (negb (Str.nonempty raw)); [discriminate|].
  destruct (Str.startsWith "+" (Phone.cleaned raw)) eqn:Ep.
  - apply startsWith_plus_inv in Ep as (r & Er). rewrite Er, substring_tail.
    destruct (Phone.re_e164_digits r) eqn:E; [|discriminate].
    intros [= <-]. left. exists r. auto.
  - destruct (Phone.re_mobile10 (Phone.strip_zeros (Phone.cleaned raw))) eqn:Em.
    + intros [= <-]. right. eexists. eauto.
    + destruct (Phone.re_e164_digits _); discriminate.
Qed.

Lemma Mobile10_prefixed (d : string) : Mobile10 d -> E164 ("+91" ++ d).
Proof.
  intros (c & r & -> & Hc & Hr & Hl).
  exists ("91" ++ String c r). split; [reflexivity|]. split.
  - apply Digits_cons. split; [reflexivity|].
    apply Digits_cons. split; [reflexivity|].
    apply Digits_cons. split; [|exact Hr].
    destruct Hc as [->|[->|[->| ->]]]; reflexivity.
  - simpl. lia.
Qed.

Lemma ok_value_e164 (raw v : string) :
  Phone.normalizePhone raw = Phone.Ok v -> E164 v.
Proof.
  intros H.
  destruct (normalize_ok_cases raw v H) as [(r & _ & -> & E)|(d & _ & -> & E & _)].
  - apply re_e164_digits_spec in E. exists r. tauto.
  - apply Mobile10_prefixed. now apply re_mobile10_spec.
Qed.

(** X1: whenever [normalizePhone] succeeds, its value is an E.164 number,
    a ['+'] followed by 10 to 15 digits and nothing else, and its digits are
    those of the input: the value is the cleaned input itself, or "+91" put
    before the cleaned input without its leading zeros. *)
Theorem normalize_ok_is_e164 (raw v : string) :
  Phone.normalizePhone raw = Phone.Ok v ->
  E164 v
  /\ (v = Str.keep digit_or_plus raw
      \/ v = "+91" ++ Phone.strip_zeros (Str.keep digit_or_plus raw)).
Proof.
  intros H. rewrite <- cleaned_keep.
  destruct (normalize_ok_cases raw v H) as [(r & Ec & -> & E)|(d & Ed & -> & E & _)].
  - split; [|left; now rewrite Ec].
    apply re_e164_digits_spec in E. exists r. tauto.
  - split; [|right; now rewrite Ed].
    apply Mobile10_prefixed. now apply re_mobile10_spec.
Qed.

Lemma normalize_ok_is_e164_witness : E164 "+919876543210".
Proof. apply (normalize_ok_is_e164 "098765 43210" "+919876543210"). reflexivity. Defined.

(** X2: a value [normalizePhone] has produced is accepted unchanged when it
    is normalized again. *)
Theorem normalize_fixed_point (raw v : string) :
  Phone.normalizePhone raw = Phone.Ok v ->
  Phone.normalizePhone v = Phone.Ok v.
Proof.
  intros H. apply ok_value_e164 in H.
  pose proof (E164_cleaned v H) as Hc.
  destruct H as (ds & -> & Hd & Hl).
  unfold Phone.normalizePhone. cbn [Str.nonempty negb]. rewrite Hc.
  rewrite startsWith_plus, substring_tail.
  assert (E : Phone.re_e164_digits ds = true) by now apply re_e164_digits_spec.
  now rewrite E.
Qed.

Lemma normalize_fixed_point_witness :
  Phone.normalizePhone "+919876543210" = Phone.Ok "+919876543210".
Proof. apply (normalize_fixed_point "(0) 98765-43210"). reflexivity. Defined.

Lemma cleaned_zero (raw : string) :
  Phone.cleaned (String "0" raw) = String "0" (Phone.cleaned raw).
Proof. now rewrite !cleaned_keep. Qed.

(** X3: for a number written without ['+'], a zero put in front changes
    nothing: the result is that of the number without it. *)
Theorem normalize_ignores_leading_zero (raw : string) :
  raw <> "" -> Str.startsWith "+" (Phone.cleaned raw) = false ->
  Phone.normalizePhone (String "0" raw) = Phone.normalizePhone raw.
Proof.
  intros Hne Hp. unfold Phone.normalizePhone.
  rewrite cleaned_zero, (nonempty_true raw Hne), Hp. reflexivity.
Qed.

Lemma normalize_ignores_leading_zero_witness :
  Phone.normalizePhone "09876543210" = Phone.normalizePhone "9876543210".
Proof. apply (normalize_ignores_leading_zero "9876543210"); [discriminate | reflexivity]. Defined.

(** X4: a ten-digit mobile number (first digit 6 to 9) gives the same
    value however it is written: bare, with a zero in front, or with its
    "+91" prefix. *)
Theorem normalize_mobile_forms_agree (d : string) :
  Mobile10 d ->
  Phone.normalizePhone d = Phone.Ok ("+91" ++ d)
  /\ Phone.normalizePhone (String "0" d) = Phone.Ok ("+91" ++ d)
  /\ Phone.normalizePhone ("+91" ++ d) = Phone.Ok ("+91" ++ d).
Proof.
  intros Hm. pose proof Hm as (c & r & E & Hc & Hr & Hl).
  assert (Hd : Digits d).
  { rewrite E. apply Digits_cons. split; [|exact Hr].
    destruct Hc as [->|[->|[->| ->]]]; reflexivity. }
  assert (Hcl : Phone.cleaned d = d) by (rewrite cleaned_keep; now apply Digits_keep).
  assert (Hz : Phone.strip_zeros d = d).
  { rewrite E. simpl. destruct Hc as [->|[->|[->| ->]]]; reflexivity. }
  assert (Hs : Str.startsWith "+" d = false).
  { rewrite E. destruct Hc as [->|[->|[->| ->]]]; reflexivity. }
  assert (H1 : Phone.normalizePhone d = Phone.Ok ("+91" ++ d)).
  { unfold Phone.normalizePhone. rewrite Hcl, Hs, Hz.
    apply re_mobile10_spec in Hm. rewrite Hm. now rewrite E. }
  split; [exact H1|]. split.
  - unfold Phone.normalizePhone. cbn [Str.nonempty negb].
    rewrite cleaned_zero, Hcl.
    change (Str.startsWith "+" (String "0" d)) with false.
    change (Phone.strip_zeros (String "0" d)) with (Phone.strip_zeros d).
    rewrite Hz. apply re_mobile10_spec in Hm. now rewrite Hm.
  - apply E164_accepted. now apply Mobile10_prefixed.
Qed.

Lemma normalize_mobile_forms_agree_witness :
  Phone.normalizePhone "09876543210" = Phone.Ok "+919876543210".
Proof.
  apply (normalize_mobile_forms_agree "9876543210").
  apply re_mobile10_spec. reflexivity.
Defined.

(** ** The Twilio endpoints *)

(** X5: whatever the request, [/send-sms] calls the Twilio client at most
    once, and what it hands to it are the normalized numbers, both E.164,
    the account of the request and its message body, which is not empty. *)
Theorem send_sms_call_is_normalized
  (env_cb : option string) (twilio : Server.TwilioCall -> Server.TwilioOutcome)
  (req : Server.SmsRequest) (call : Server.TwilioCall) :
  In call (snd (Server.send_sms env_cb twilio req)) ->
  snd (Server.send_sms env_cb twilio req) = [call]
  /\ Phone.normalizePhone (Server.get (Server.from req))
     = Phone.Ok (Server.p_from (Server.call_params call))
  /\ Phone.normalizePhone (Server.get (Server.to req))
     = Phone.Ok (Server.p_to (Server.call_params call))
  /\ E164 (Server.p_from (Server.call_params call))
  /\ E164 (Server.p_to (Server.call_params call))
  /\ Server.body req = Some (Server.p_body (Server.call_params call))
  /\ Server.p_body (Server.call_params call) <> ""
  /\ Server.accountSid req = Some (Server.call_sid call)
  /\ Server.authToken req = Some (Server.call_token call).
Proof.
  unfold Server.send_sms.
  destruct (negb (Str.truthy (Server.accountSid req))
            || negb (Str.truthy (Server.authToken req))
            || negb (Str.truthy (Server.from req))
            || negb (Str.truthy (Server.to req))
            || negb (Str.truthy (Server.body req))) eqn:Em; [intros []|].
  repeat (apply orb_false_iff in Em as [Em ?]).
  rewrite negb_false_iff in *.
  destruct (Phone.normalizePhone (Server.get (Server.from req))) as [fv|] eqn:Ef;
    [|intros []].
  destruct (Phone.normalizePhone (Server.get (Server.to req))) as [tv|] eqn:Et;
    [|intros []].
  assert (Hget : forall o, Str.truthy o = true ->
                   o = Some (Server.get o) /\ Server.get o <> "").
  { intros [[|a x]|]; simpl; try discriminate. intros _. split; congruence. }
  match goal with |- context [twilio ?c0] => set (c := c0) end.
  intros Hin.
  assert (Hc : call = c) by (destruct (twilio c); destruct Hin as [<-|[]]; reflexivity).
  subst call. split; [destruct (twilio c); reflexivity|].
  unfold c. cbn [Server.call_params Server.p_from Server.p_to Server.p_body
                 Server.call_sid Server.call_token].
  repeat split; try (now apply Hget); eauto using ok_value_e164.
Qed.

Lemma send_sms_call_is_normalized_witness :
  E164 "+919876543210"
  /\ Phone.normalizePhone "098765 43210" = Phone.Ok "+919876543210".
Proof.
  pose (req :=
    {| Server.accountSid := Some "AC0123"; Server.authToken := Some "secret";
       Server.from := Some "+1 (415) 555-2671"; Server.to := Some "098765 43210";
       Server.body := Some "Hello"; Server.statusCallback := None |}).
  pose (call :=
    {| Server.call_sid := "AC0123"; Server.call_token := "secret";
       Server.call_params :=
         {| Server.p_body := "Hello"; Server.p_from := "+14155552671";
            Server.p_to := "+919876543210";
            Server.p_statusCallback := None |} |}).
  destruct (send_sms_call_is_normalized None (fun _ => Server.Created "SM1")
              req call) as (_ & _ & Hto & _ & He & _).
  - left. reflexivity.
  - split; [exact He | exact Hto].
Defined.

Lemma truthy_get (o : option string) :
  Str.truthy o = true -> o = Some (Server.get o) /\ Server.get o <> "".
Proof.
  destruct o as [[|a x]|]; simpl; try discriminate. intros _. split; congruence.
Qed.

(** X6: the answer of [/send-sms] is a success exactly when its status is
    200, which is exactly when the Twilio client was called and created the
    message; the answer then carries the message [sid] and the normalized
    destination.  The status is 400 exactly when the client was not called,
    and 500 exactly when it was called and threw; the code of the exception
    is then passed on. *)
Theorem send_sms_outcome
  (env_cb : option string) (twilio : Server.TwilioCall -> Server.TwilioOutcome)
  (req : Server.SmsRequest) :
  let answer := fst (Server.send_sms env_cb twilio req) in
  let calls := snd (Server.send_sms env_cb twilio req) in
  (Server.success answer = true <-> Server.status answer = 200)
  /\ (Server.status answer = 400 <-> calls = [])
  /\ (Server.status answer = 200 <->
      exists call msid, calls = [call] /\ twilio call = Server.Created msid
        /\ Server.sid answer = Some msid
        /\ Server.sent_to answer = Some (Server.p_to (Server.call_params call)))
  /\ (Server.status answer = 500 <->
      exists call message code, calls = [call]
        /\ twilio call = Server.Threw message code
        /\ Server.error answer = Some message /\ Server.code answer = code)
  /\ (Server.status answer = 200 \/ Server.status answer = 400
      \/ Server.status answer = 500).
Proof.
  assert (H400 : forall (r : Server.Reply),
    Server.status r = 400 -> Server.success r = false ->
    (Server.success r = true <-> Server.status r = 200)
    /\ (Server.status r = 400 <-> @nil Server.TwilioCall = [])
    /\ (Server.status r = 200 <->
        exists call msid, [] = [call] /\ twilio call = Server.Created msid
          /\ Server.sid r = Some msid
          /\ Server.sent_to r = Some (Server.p_to (Server.call_params call)))
    /\ (Server.status r = 500 <->
        exists call message code, [] = [call]
          /\ twilio call = Server.Threw message code
          /\ Server.error r = Some message /\ Server.code r = code)
    /\ (Server.status r = 200 \/ Server.status r = 400
        \/ Server.status r = 500)).
  { intros r Hs Hf. rewrite Hs, Hf. repeat split; try discriminate; auto.
    - intros (c & m & H & _). discriminate H.
    - intros (c & m & k & H & _). discriminate H. }
  unfold Server.send_sms.
  destruct (negb (Str.truthy (Server.accountSid req)) || _ || _ || _ || _);
    [now apply H400|].
  destruct (Phone.normalizePhone (Server.get (Server.from req))) as [fv|];
    [|now apply H400].
  destruct (Phone.normalizePhone (Server.get (Server.to req))) as [tv|];
    [|now apply H400].
  match goal with |- context [twilio ?c0] => set (c := c0) end.
  destruct (twilio c) as [msid|message code] eqn:Et; cbn.
  - repeat split; try discriminate; auto.
    + intros _. exists c, msid. auto.
    + intros (c' & m & k & [= <-] & H & _). congruence.
  - repeat split; try discriminate; auto.
    + intros (c' & m & [= <-] & H & _). congruence.
    + intros _. exists c, message, code. auto.
Qed.

(** X7: [/send-twilio-whatsapp] calls the Twilio client at most once, with
    the normalized E.164 numbers behind the channel marker "whatsapp:" on
    both sides; the [to] of a successful answer is the number without the
    marker. *)
Theorem twilio_whatsapp_call_is_prefixed
  (env_cb : option string) (twilio : Server.TwilioCall -> Server.TwilioOutcome)
  (String_err : string) (req : TwilioWhatsApp.Request) (call : Server.TwilioCall) :
  let result :=
    TwilioWhatsApp.send_twilio_whatsapp env_cb twilio String_err req in
  In call (snd result) ->
  snd result = [call]
  /\ exists f t,
       Phone.normalizePhone (Server.get (TwilioWhatsApp.fromWa req)) = Phone.Ok f
       /\ Phone.normalizePhone (Server.get (TwilioWhatsApp.to req)) = Phone.Ok t
       /\ E164 f /\ E164 t
       /\ Server.p_from (Server.call_params call) = "whatsapp:" ++ f
       /\ Server.p_to (Server.call_params call) = "whatsapp:" ++ t
       /\ (Server.success (fst result) = true ->
           Server.sent_to (fst result) = Some t).
Proof.
  unfold TwilioWhatsApp.send_twilio_whatsapp.
  destruct (negb (Str.truthy (TwilioWhatsApp.accountSid req)) || _ || _ || _ || _);
    [intros []|].
  destruct (Phone.normalizePhone (Server.get (TwilioWhatsApp.fromWa req)))
    as [fv|] eqn:Ef; [|intros []].
  destruct (Phone.normalizePhone (Server.get (TwilioWhatsApp.to req)))
    as [tv|] eqn:Et; [|intros []].
  match goal with |- context [twilio ?c0] => set (c := c0) end.
  intros Hin.
  assert (Hc : call = c) by (destruct (twilio c); destruct Hin as [<-|[]]; reflexivity).
  subst call. split; [destruct (twilio c); reflexivity|].
  exists fv, tv. repeat split; eauto using ok_value_e164.
  destruct (twilio c); cbn; [reflexivity | discriminate].
Qed.

Lemma twilio_whatsapp_call_is_prefixed_witness :
  Phone.normalizePhone "098765 43210" = Phone.Ok "+919876543210"
  /\ "whatsapp:+919876543210" = "whatsapp:" ++ "+919876543210".
Proof.
  pose (req :=
    {| TwilioWhatsApp.accountSid := Some "AC0123";
       TwilioWhatsApp.authToken := Some "secret";
       TwilioWhatsApp.fromWa := Some "+14155552671";
       TwilioWhatsApp.to := Some "098765 43210";
       TwilioWhatsApp.body := Some "Hello";
       TwilioWhatsApp.statusCallback := None |}).
  pose (call :=
    {| Server.call_sid := "AC0123"; Server.call_token := "secret";
       Server.call_params :=
         {| Server.p_body := "Hello"; Server.p_from := "whatsapp:+14155552671";
            Server.p_to := "whatsapp:+919876543210";
            Server.p_statusCallback := None |} |}).
  destruct (twilio_whatsapp_call_is_prefixed None (fun _ => Server.Created "SM1")
              "Error" req call) as (_ & f & t & _ & Ht & _ & _ & _ & Hp & _).
  - left. reflexivity.
  - assert (E : Phone.normalizePhone (Server.get (TwilioWhatsApp.to req))
                = Phone.Ok "+919876543210") by reflexivity.
    rewrite E in Ht. injection Ht as <-. split; [exact E | exact Hp].
Defined.

(** X8: the two Twilio endpoints take and refuse the same requests: given
    the same fields ([fromWa] for [from]), [/send-twilio-whatsapp] answers
    400 without calling Twilio exactly when [/send-sms] does, and when they
    call it they hand it the same numbers and body, the WhatsApp ones behind
    "whatsapp:". *)
Theorem twilio_whatsapp_accepts_like_sms
  (env_cb : option string)
  (twilio twilio' : Server.TwilioCall -> Server.TwilioOutcome)
  (String_err : string) (req : TwilioWhatsApp.Request) :
  let wa := TwilioWhatsApp.send_twilio_whatsapp env_cb twilio String_err req in
  let sms := Server.send_sms env_cb twilio' (as_sms req) in
  (snd wa = [] <-> snd sms = [])
  /\ (snd wa = [] -> Server.status (fst wa) = 400 /\ Server.status (fst sms) = 400)
  /\ (forall call, In call (snd wa) ->
        exists call', In call' (snd sms)
          /\ Server.p_from (Server.call_params call)
             = "whatsapp:" ++ Server.p_from (Server.call_params call')
          /\ Server.p_to (Server.call_params call)
             = "whatsapp:" ++ Server.p_to (Server.call_params call')
          /\ Server.p_body (Server.call_params call)
             = Server.p_body (Server.call_params call')
          /\ Server.p_statusCallback (Server.call_params call)
             = Server.p_statusCallback (Server.call_params call')).
Proof.
  unfold TwilioWhatsApp.send_twilio_whatsapp, Server.send_sms, as_sms.
  cbn [Server.accountSid Server.authToken Server.from Server.to Server.body
       Server.statusCallback].
  destruct (negb (Str.truthy (TwilioWhatsApp.accountSid req)) || _ || _ || _ || _).
  { cbn. repeat split; auto. intros call []. }
  destruct (Phone.normalizePhone (Server.get (TwilioWhatsApp.fromWa req))) as [fv|].
  2: { cbn. repeat split; auto. intros call []. }
  destruct (Phone.normalizePhone (Server.get (TwilioWhatsApp.to req))) as [tv|].
  2: { cbn. repeat split; auto. intros call []. }
  match goal with |- context [twilio ?c0] => set (c := c0) end.
  match goal with |- context [twilio' ?c0] => set (c' := c0) end.
  destruct (twilio c), (twilio' c'); cbn [fst snd].
  all: split; [split; discriminate|]; split; [discriminate|].
  all: intros call [<-|[]]; exists c'; (split; [now left|]);
    unfold c, c'; cbn; repeat split.
Qed.

(** ** The Meta endpoints *)

Lemma strip_one_plus (ds : string) : Text.strip_one "+" (String "+" ds) = ds.
Proof. reflexivity. Qed.

(** X9: [/send-whatsapp] posts to the Graph API at most once, and the [to]
    it posts is the normalized number without its ['+']: 10 to 15 digits
    and nothing else.  The token and the phone number id are those of the
    request, or else those of the environment, and the body is the one of
    the request, not empty. *)
Theorem send_whatsapp_posts_digits
  (env_token env_id query_debug : option string)
  (graph : MetaSend.GraphCall -> MetaSend.GraphOutcome) (String_err : string)
  (req : MetaSend.Request) (call : MetaSend.GraphCall) :
  let result :=
    MetaSend.send_whatsapp env_token env_id query_debug graph String_err req in
  In call (snd result) ->
  snd result = [call]
  /\ Phone.normalizePhone (Server.get (MetaSend.to req))
     = Phone.Ok (String "+" (MetaSend.g_to call))
  /\ Digits (MetaSend.g_to call)
  /\ 10 <= String.length (MetaSend.g_to call) <= 15
  /\ MetaSend.body req = Some (MetaSend.g_body call)
  /\ MetaSend.g_body call <> ""
  /\ Server.or_else (MetaSend.accessToken req) env_token
     = Some (MetaSend.g_accessToken call)
  /\ Server.or_else (MetaSend.phoneNumberId req) env_id
     = Some (MetaSend.g_phoneNumberId call)
  /\ MetaSend.g_accessToken call <> ""
  /\ MetaSend.g_phoneNumberId call <> "".
Proof.
  unfold MetaSend.send_whatsapp.
  destruct (negb (Str.truthy (Server.or_else (MetaSend.accessToken req) env_token))
            || negb (Str.truthy (Server.or_else (MetaSend.phoneNumberId req) env_id))
            || negb (Str.truthy (MetaSend.to req))
            || negb (Str.truthy (MetaSend.body req))) eqn:Em; [intros []|].
  repeat (apply orb_false_iff in Em as [Em ?]).
  rewrite negb_false_iff in *.
  destruct (Phone.normalizePhone (Server.get (MetaSend.to req))) as [v|] eqn:Et;
    [|intros []].
  destruct (ok_value_e164 _ _ Et) as (ds & -> & Hd & Hl).
  rewrite strip_one_plus.
  match goal with |- context [graph ?c0] => set (c := c0) end.
  intros Hin.
  assert (Hc : call = c).
  { destruct (graph c) as [st data|m]; [destruct (negb (MetaSend.ok_status st))|];
      destruct Hin as [<-|[]]; reflexivity. }
  subst call. split.
  { destruct (graph c) as [st data|m]; [destruct (negb (MetaSend.ok_status st))|];
      reflexivity. }
  unfold c. cbn [MetaSend.g_to MetaSend.g_body MetaSend.g_accessToken
                 MetaSend.g_phoneNumberId].
  repeat split; try (now apply truthy_get); auto; lia.
Qed.

Lemma send_whatsapp_posts_digits_witness :
  Phone.normalizePhone "098765 43210" = Phone.Ok "+919876543210"
  /\ Digits "919876543210".
Proof.
  pose (req :=
    {| MetaSend.to := Some "098765 43210"; MetaSend.body := Some "Hello";
       MetaSend.accessToken := None; MetaSend.phoneNumberId := Some "1055";
       MetaSend.debug := false |}).
  pose (call :=
    {| MetaSend.g_phoneNumberId := "1055"; MetaSend.g_accessToken := "EAAG";
       MetaSend.g_to := "919876543210"; MetaSend.g_body := "Hello" |}).
  destruct (send_whatsapp_posts_digits (Some "EAAG") None None
              (fun _ => MetaSend.Responded 200 None) "Error" req call)
    as (_ & Hn & Hd & _).
  - left. reflexivity.
  - split; [exact Hn | exact Hd].
Defined.


(** X11: the hints of [/send-whatsapp-template].  Code 190 with subcode 463
    gets a hint mentioning "expired" whatever the HTTP status, a 404
    included, where [/send-whatsapp] answers with the hint about the Phone
    Number ID; and there is no hint exactly when the status is not 404 and
    the code is neither 190 nor 100. *)
Theorem template_hint_table (resp_status : nat) (err : Meta.ApiError) :
  (Meta.code err = Some 190%Z -> Meta.error_subcode err = Some 463%Z ->
   Meta.mentions "expired" (MetaSend.template_hint resp_status err) = true)
  /\ (Meta.code err = Some 190%Z -> Meta.error_subcode err = Some 463%Z ->
      Meta.mentions "expired" (Meta.whatsapp_hint 404 err) = false)
  /\ (MetaSend.template_hint resp_status err = None <->
      resp_status <> 404 /\ Meta.code err <> Some 190%Z
      /\ Meta.code err <> Some 100%Z).
Proof.
  assert (Hc : forall n o, Meta.code_is n o = true <-> o = Some n).
  { intros n [m|]; simpl; [|split; discriminate].
    rewrite Z.eqb_eq. split; congruence. }
  unfold MetaSend.template_hint, Meta.whatsapp_hint.
  split; [|split].
  - intros -> ->. reflexivity.
  - intros -> ->. reflexivity.
  - destruct (Meta.code_is 100 (Meta.code err)) eqn:E100.
    { apply Hc in E100. split; [discriminate | tauto]. }
    destruct (Meta.code_is 190 (Meta.code err)) eqn:E190.
    { apply Hc in E190. split; [|tauto].
      destruct (Meta.code_is 463 _); [discriminate|].
      destruct (Meta.code_is 467 _); discriminate. }
    assert (H100 : Meta.code err <> Some 100%Z)
      by (intros H; apply Hc in H; congruence).
    assert (H190 : Meta.code err <> Some 190%Z)
      by (intros H; apply Hc in H; congruence).
    destruct (resp_status =? 404) eqn:Es.
    + apply Nat.eqb_eq in Es. split; [discriminate | tauto].
    + apply Nat.eqb_neq in Es. tauto.
Qed.

Lemma template_hint_table_witness :
  Meta.mentions "expired"
    (MetaSend.template_hint 404
       {| Meta.message := None; Meta.code := Some 190%Z;
          Meta.error_subcode := Some 463%Z; Meta.error_data_details := None |})
  = true.
Proof. apply template_hint_table; reflexivity. Defined.

(** ** Paths and pages *)

Lemma lower_char_slash (c : ascii) : Text.lower_char c = "/"%char -> c = "/"%char.
Proof.
  destruct c as [[] [] [] [] [] [] [] []]; vm_compute; intros H;
    solve [reflexivity | discriminate H].
Qed.

Lemma toLowerCase_slash (s : string) : Text.toLowerCase s = "/" -> s = "/".
Proof.
  destruct s as [|c [|d s]]; simpl; try discriminate.
  intros [= H]. now rewrite (lower_char_slash c H).
Qed.

Lemma toLowerCase_app (a b : string) :
  Text.toLowerCase (a ++ b) = Text.toLowerCase a ++ Text.toLowerCase b.
Proof. induction a as [|c a IH]; simpl; [reflexivity | now rewrite IH]. Qed.

Lemma startsWith_app (p x : string) : Str.startsWith p (p ++ x) = true.
Proof.
  unfold Str.startsWith. induction p as [|c p IH]; simpl.
  - now destruct x.
  - destruct (ascii_dec c c); [exact IH | congruence].
Qed.

Lemma slice_from_app (a b : string) : Text.slice_from (String.length a) (a ++ b) = b.
Proof. induction a as [|c a IH]; simpl; [now destruct b | exact IH]. Qed.

Lemma app_assoc_s (a b c : string) : (a ++ b) ++ c = a ++ (b ++ c).
Proof. induction a as [|x a IH]; simpl; [reflexivity | now rewrite IH]. Qed.

Lemma strip_leading_unslashed (s : string) :
  Str.startsWith "/" s = false -> Text.strip_leading "/" s = s.
Proof.
  unfold Str.startsWith. destruct s as [|c s]; [reflexivity|]. simpl.
  destruct (ascii_dec "/" c) as [<-|Hn].
  - destruct s; discriminate.
  - intros _. destruct (Ascii.eqb_spec c "/"); [congruence | reflexivity].
Qed.

Section Paths.

Variable env_BASE_URL : option string.

Lemma BASE_URL_nonempty : Str.nonempty (Routes.BASE_URL env_BASE_URL) = true.
Proof.
  unfold Routes.BASE_URL, Text.or_default.
  destruct env_BASE_URL as [[|c b]|]; reflexivity.
Qed.

(** The way back from a joined path, for a slug without a leading slash. *)
Lemma stripBase_joinBase (slug : string) :
  Str.startsWith "/" slug = false ->
  Routes.stripBase env_BASE_URL (Routes.joinBase env_BASE_URL slug) = "/" ++ slug.
Proof.
  intros Hs. pose proof BASE_URL_nonempty as Hne.
  unfold Routes.stripBase, Routes.joinBase. rewrite Hs.
  set (B := Routes.BASE_URL env_BASE_URL) in *.
  assert (HB : Text.or_default B "/" = B)
    by (unfold Text.or_default; now rewrite Hne).
  rewrite HB.
  set (b := if Text.endsWith "/" B then B else B ++ "/").
  assert (Hb : Str.nonempty (b ++ slug) = true).
  { unfold b. destruct (Text.endsWith "/" B); destruct B; try discriminate;
      reflexivity. }
  assert (Hp : Text.or_default (b ++ slug) "/" = b ++ slug)
    by (unfold Text.or_default; now rewrite Hb).
  rewrite Hp.
  destruct (String.eqb_spec (Text.toLowerCase B) "/") as [E|E]; cbn [negb andb].
  - apply toLowerCase_slash in E. unfold b. rewrite E. reflexivity.
  - assert (Hpre : Str.startsWith (Text.toLowerCase B) (Text.toLowerCase (b ++ slug))
                   = true).
    { unfold b. destruct (Text.endsWith "/" B).
      - rewrite toLowerCase_app. apply startsWith_app.
      - rewrite app_assoc_s, toLowerCase_app. apply startsWith_app. }
    rewrite Hpre. unfold b. destruct (Text.endsWith "/" B).
    + now rewrite slice_from_app, strip_leading_unslashed.
    + rewrite app_assoc_s, slice_from_app. cbn [append Text.strip_leading].
      rewrite Ascii.eqb_refl. now rewrite strip_leading_unslashed.
Qed.

(** X12: whatever the base path of the deployment, the path made for a
    slug that has no leading slash is stripped back to that slug behind one
    slash, and the path made for a page is mapped back to that page. *)
Theorem paths_round_trip (slug : string) (page : Routes.Page) :
  (Str.startsWith "/" slug = false ->
   Routes.stripBase env_BASE_URL (Routes.joinBase env_BASE_URL slug) = "/" ++ slug)
  /\ Routes.mapPathToPage env_BASE_URL (Routes.pageToPath env_BASE_URL page) = page.
Proof.
  split; [apply stripBase_joinBase|].
  unfold Routes.mapPathToPage, Routes.pageToPath.
  destruct page; rewrite stripBase_joinBase by reflexivity; reflexivity.
Qed.

(** X13: the page chosen when the component is created and the page chosen
    on back and forward navigation are the same for every path but those
    that strip to the alias "/feeback-quick": there the first is the
    dashboard and the second the quick-feedback page. *)
Theorem initialPage_agrees_with_mapPathToPage (pathname : string) :
  let p := Text.toLowerCase (Routes.stripBase env_BASE_URL pathname) in
  (p <> "/feeback-quick" ->
   Routes.initialPage env_BASE_URL pathname
   = Routes.mapPathToPage env_BASE_URL pathname)
  /\ (p = "/feeback-quick" ->
      Routes.initialPage env_BASE_URL pathname = Routes.Dashboard
      /\ Routes.mapPathToPage env_BASE_URL pathname = Routes.QuickFeedback).
Proof.
  unfold Routes.initialPage, Routes.mapPathToPage.
  generalize (Text.toLowerCase (Routes.stripBase env_BASE_URL pathname)).
  intros p. cbv zeta. split.
  - intros Hp.
    repeat match goal with
           | |- context [String.eqb p ?s] =>
               destruct (String.eqb_spec p s) as [->|?]
           end; cbn; congruence.
  - intros ->. split; reflexivity.
Qed.

End Paths.

Lemma paths_round_trip_witness :
  Routes.stripBase (Some "/Business") "/Business/quick-feedback" = "/quick-feedback".
Proof.
  apply (paths_round_trip (Some "/Business") "quick-feedback" Routes.Dashboard).
  reflexivity.
Defined.

Lemma initialPage_agrees_with_mapPathToPage_witness :
  Routes.initialPage (Some "/business/") "/business/FEEBACK"
  = Routes.mapPathToPage (Some "/business/") "/business/FEEBACK".
Proof.
  apply (initialPage_agrees_with_mapPathToPage (Some "/business/") "/business/FEEBACK").
  discriminate.
Defined.

(** ** Deleting a customer, and what the drain leaves alone *)







Lemma fold_untouched_outside (env : App.Env) (snap : App.World) (j : string) :
  forall chunk w, ~ In j chunk ->
    untouched j w (fold_left (App.process_id env snap) chunk w).
Proof.
  induction chunk as [|i chunk IH]; intros w Hn; simpl.
  - apply untouched_refl.
  - eapply untouched_trans; [|apply IH; intros H; apply Hn; now right].
    destruct (process_id_cases env snap w i) as [->|(c & _ & _ & Hid & ->)].
    + apply untouched_refl.
    + apply send_untouched. rewrite Hid. intros ->. apply Hn. now left.
Qed.

Lemma In_firstn {A : Type} (n : nat) (l : list A) (x : A) :
  In x (firstn n l) -> In x l.
Proof. intros H. rewrite <- (firstn_skipn n l). apply in_or_app. now left. Qed.

Lemma In_skipn {A : Type} (n : nat) (l : list A) (x : A) :
  In x (skipn n l) -> In x l.
Proof. intros H. rewrite <- (firstn_skipn n l). apply in_or_app. now right. Qed.

(** X16: the drain only deals with the ids of its backlog: for an id that
    is not in it, whatever the status of its customer, nothing is sent and
    the customers with that id are left exactly as they were. *)
Theorem drain_leaves_others_alone (env : App.Env) (j : string) (w : App.World) :
  App.queueActive w = false -> ~ In j (App.smsQueue w) ->
  exists w',
    App.drain env (List.length (App.smsQueue w)) w = Some w'
    /\ App.smsQueue w' = [] /\ untouched j w w'.
Proof.
  intros Ha Hn.
  destruct (drain_invariant env
              (fun w1 => untouched j w w1 /\ ~ In j (App.smsQueue w1))) with
    (fuel := List.length (App.smsQueue w)) (w := w)
    as (w' & Hd & (Hu & _) & Hq & _); auto using untouched_refl.
  - intros w1 _ _ [Hu Hn1].
    destruct (one_batch_fields env w1) as (Hq1 & _). split.
    + eapply untouched_trans; [exact Hu|]. unfold one_batch.
      match goal with
      | |- context [fold_left ?f ?l ?a] =>
          pose proof (fold_untouched_outside env w1 j l a) as H;
          set (w2 := fold_left f l a) in *
      end.
      apply H. intros Hin. apply Hn1. eapply In_firstn, Hin.
    + rewrite Hq1. intros Hin. apply Hn1. eapply In_skipn, Hin.
  - exists w'. auto.
Qed.

Lemma drain_leaves_others_alone_witness :
  exists w',
    App.drain env0 1
      (idle [customer "c01" App.Pending; customer "c02" App.Pending] ["c02"])
    = Some w'
    /\ lookup "c01" w' = Some (customer "c01" App.Pending).
Proof.
  destruct (drain_leaves_others_alone env0 "c01"
              (idle [customer "c01" App.Pending; customer "c02" App.Pending]
                 ["c02"]) eq_refl) as (w' & Hd & _ & Hl & _).
  - intros [H|[]]. discriminate H.
  - exists w'. split; [exact Hd | exact Hl].
Defined.

(** ** What every drain does, whatever the provider answers *)

(** A send marks its customer Sent or Failed, never Pending; it logs one
    entry and issues at most one POST. *)
Lemma send_counts (env : App.Env) (c : App.Customer) (w : App.World) :
  exists s entry new,
    s <> App.Pending
    /\ App.customers (App.sendSmsToCustomer env c w)
       = App.mark (App.id c) s (App.customers w)
    /\ App.activityLogs (App.sendSmsToCustomer env c w)
       = entry :: App.activityLogs w
    /\ App.requests (App.sendSmsToCustomer env c w) = (App.requests w ++ new)%list
    /\ List.length new <= 1
    /\ (forall r, In r new -> fst r = App.id c).
Proof.
  unfold App.sendSmsToCustomer.
  destruct (_ || _).
  - exists App.Failed. eexists _, []. cbn. rewrite app_nil_r.
    repeat split; [discriminate | lia | intros r []].
  - destruct (App.fetch env _ _) as [data|m];
      [destruct (Server.success data)|];
      [exists App.Sent | exists App.Failed | exists App.Failed];
      eexists _, [_]; cbn; repeat split; try discriminate; try lia;
      intros r [<-|[]]; reflexivity.
Qed.

Lemma held_back_mark (i j : string) (s : App.CustomerStatus) (w w' : App.World) :
  s <> App.Pending ->
  App.customers w' = App.mark j s (App.customers w) ->
  held_back i w -> held_back i w'.
Proof.
  intros Hs Hc [Hn|(c & Hl & Hp)]; unfold held_back, lookup in *;
    rewrite Hc, find_mark.
  - left. now rewrite Hn.
  - right. rewrite Hl. cbn. eexists. split; [reflexivity|].
    destruct (App.has_id j c); [exact Hs | exact Hp].
Qed.

Lemma held_back_marked (i : string) (s : App.CustomerStatus) (w w' : App.World) :
  s <> App.Pending ->
  App.customers w' = App.mark i s (App.customers w) ->
  held_back i w'.
Proof.
  intros Hs Hc. unfold held_back, lookup. rewrite Hc, find_mark_same.
  destruct (find (App.has_id i) (App.customers w)) as [c|]; cbn.
  - right. eexists. split; [reflexivity | exact Hs].
  - now left.
Qed.

Lemma held_back_customers (i : string) (w w' : App.World) :
  App.customers w' = App.customers w -> held_back i w -> held_back i w'.
Proof. unfold held_back, lookup. now intros ->. Qed.

Lemma process_id_guard (env : App.Env) (snap w : App.World) (i : string) :
  (held_back i snap /\ App.process_id env snap w i = w)
  \/ exists c, App.id c = i
               /\ App.process_id env snap w i = App.sendSmsToCustomer env c w.
Proof.
  unfold App.process_id, held_back, lookup.
  destruct (find (App.has_id i) (App.customers snap)) as [c|] eqn:E;
    [|left; split; [now left | reflexivity]].
  destruct (App.status c) eqn:Es; cbn;
    [right; exists c; split; [now apply find_has_id in E | reflexivity] | ..];
    left; (split; [|reflexivity]); right; exists c; (split; [reflexivity|]);
    rewrite Es; discriminate.
Qed.

Lemma fold_settles (env : App.Env) (snap : App.World) :
  forall chunk live,
    (forall i, held_back i snap -> held_back i live) ->
    (forall i, held_back i live ->
               held_back i (fold_left (App.process_id env snap) chunk live))
    /\ (forall i, In i chunk ->
                  held_back i (fold_left (App.process_id env snap) chunk live)).
Proof.
  induction chunk as [|i chunk IH]; intros live HR; simpl.
  - split; [auto | intros i []].
  - assert (Hstep : (forall k, held_back k live ->
                       held_back k (App.process_id env snap live i))
                    /\ held_back i (App.process_id env snap live i)).
    { destruct (process_id_guard env snap live i) as [[Hb ->]|(c & Hid & ->)].
      - auto.
      - destruct (send_counts env c live) as (s & e & new & Hs & Hc & _).
        rewrite Hid in Hc. split.
        + intros k. now apply held_back_mark with (j := i) (s := s).
        + now apply held_back_marked with (s := s) (w := live). }
    destruct Hstep as [Hmono Hi].
    destruct (IH (App.process_id env snap live i)) as [Hmono' Hin]; [auto|].
    split; [auto|]. intros k [<-|Hk]; auto.
Qed.

(** X17: the drain settles its backlog whatever the endpoint answers: it
    ends with the queue empty, no customer behind an id of the backlog is
    left Pending (each is Sent or Failed, or no customer has the id), and no
    customer that was not Pending before has become Pending. *)
Theorem drain_settles_backlog (env : App.Env) (w : App.World) :
  App.queueActive w = false ->
  exists w',
    App.drain env (List.length (App.smsQueue w)) w = Some w'
    /\ App.smsQueue w' = []
    /\ (forall i, In i (App.smsQueue w) -> held_back i w')
    /\ (forall i, held_back i w -> held_back i w').
Proof.
  intros Ha.
  destruct (drain_invariant env
              (fun w1 => (forall i, held_back i w -> held_back i w1)
                         /\ (forall i, In i (App.smsQueue w) ->
                               In i (App.smsQueue w1) \/ held_back i w1))) with
    (fuel := List.length (App.smsQueue w)) (w := w)
    as (w' & Hd & (Hmono & Hin) & Hq & _); auto.
  - intros w1 _ _ [Hmono Hin].
    destruct (one_batch_fields env w1) as (Hq1 & _).
    assert (Hf : (forall i, held_back i w1 -> held_back i (one_batch env w1))
                 /\ (forall i, In i (firstn 10 (App.smsQueue w1)) ->
                       held_back i (one_batch env w1))).
    { unfold one_batch.
      match goal with
      | |- context [fold_left ?f ?l ?a] =>
          destruct (fold_settles env w1 l a) as [H1 H2];
          [intros i; now apply held_back_customers|]
      end.
      split; intros i Hi.
      - eapply held_back_customers; [|apply H1].
        + reflexivity.
        + revert Hi. now apply held_back_customers.
      - eapply held_back_customers; [|apply H2; exact Hi]. reflexivity. }
    destruct Hf as [Hf1 Hf2]. split; [auto|].
    intros i Hi. destruct (Hin i Hi) as [Hq0|Hb]; [|auto].
    rewrite Hq1. rewrite <- (firstn_skipn 10 (App.smsQueue w1)) in Hq0.
    apply in_app_or in Hq0 as [H|H]; auto.
  - exists w'. repeat split; auto.
    intros i Hi. destruct (Hin i Hi) as [H|H]; [|exact H].
    rewrite Hq in H. destruct H.
Qed.

Lemma drain_settles_backlog_witness :
  exists w',
    App.drain env0 2
      (idle [customer "c01" App.Pending; customer "c02" App.Failed]
         ["c01"; "c02"]) = Some w'
    /\ held_back "c01" w' /\ held_back "c02" w'.
Proof.
  destruct (drain_settles_backlog env0
              (idle [customer "c01" App.Pending; customer "c02" App.Failed]
                 ["c01"; "c02"]) eq_refl) as (w' & Hd & _ & Hin & _).
  exists w'. split; [exact Hd|].
  split; apply Hin; cbn; auto.
Defined.

Lemma fold_counts (env : App.Env) (snap : App.World) :
  forall chunk live,
    exists added new,
      App.activityLogs (fold_left (App.process_id env snap) chunk live)
        = (added ++ App.activityLogs live)%list
      /\ App.requests (fold_left (App.process_id env snap) chunk live)
        = (App.requests live ++ new)%list
      /\ List.length new <= List.length added
      /\ List.length added <= List.length chunk
      /\ (forall r, In r new -> In (fst r) chunk).
Proof.
  induction chunk as [|i chunk IH]; intros live; simpl.
  - exists [], []. rewrite app_nil_r. repeat split; auto.
  - destruct (IH (App.process_id env snap live i))
      as (added & new & Hl & Hr & H1 & H2 & H3).
    destruct (process_id_guard env snap live i) as [[_ E]|(c & Hid & E)];
      rewrite E in *.
    + exists added, new. repeat split; auto.
    + destruct (send_counts env c live)
        as (s & e & new0 & _ & _ & Hl0 & Hr0 & Hn0 & Hf0).
      exists (added ++ [e])%list, (new0 ++ new)%list.
      rewrite Hl, Hl0, Hr, Hr0, <- !app_assoc, !length_app. cbn [List.length].
      repeat split; try lia.
      intros r Hin. apply in_app_or in Hin as [H|H]; [left|right; auto].
      rewrite <- Hid. symmetry. now apply Hf0.
Qed.

(** X18: the drain sends at most once per entry of its backlog: the POSTs
    it adds are for ids of the backlog, there are no more of them than log
    entries added, and no more log entries than entries in the backlog;
    what was logged and requested before stays in place. *)
Theorem drain_sends_at_most_once_per_entry (env : App.Env) (w : App.World) :
  App.queueActive w = false ->
  exists w' added new,
    App.drain env (List.length (App.smsQueue w)) w = Some w'
    /\ App.activityLogs w' = (added ++ App.activityLogs w)%list
    /\ App.requests w' = (App.requests w ++ new)%list
    /\ List.length new <= List.length added
    /\ List.length added <= List.length (App.smsQueue w)
    /\ (forall r, In r new -> In (fst r) (App.smsQueue w)).
Proof.
  intros Ha.
  destruct (drain_invariant env
              (fun w1 => exists added new,
                 App.activityLogs w1 = (added ++ App.activityLogs w)%list
                 /\ App.requests w1 = (App.requests w ++ new)%list
                 /\ List.length new <= List.length added
                 /\ List.length added + List.length (App.smsQueue w1)
                    <= List.length (App.smsQueue w)
                 /\ (forall r, In r new -> In (fst r) (App.smsQueue w))
                 /\ (forall i, In i (App.smsQueue w1) -> In i (App.smsQueue w))))
    with (fuel := List.length (App.smsQueue w)) (w := w)
    as (w' & Hd & (added & new & Hl & Hr & H1 & H2 & H3 & _) & Hq & _); auto.
  - intros w1 _ _ (added & new & Hl & Hr & H1 & H2 & H3 & H4).
    destruct (one_batch_fields env w1) as (Hq1 & _).
    assert (Hf : exists added1 new1,
               App.activityLogs (one_batch env w1)
                 = (added1 ++ App.activityLogs w1)%list
               /\ App.requests (one_batch env w1)
                  = (App.requests w1 ++ new1)%list
               /\ List.length new1 <= List.length added1
               /\ List.length added1
                  <= List.length (firstn 10 (App.smsQueue w1))
               /\ (forall r, In r new1 ->
                     In (fst r) (firstn 10 (App.smsQueue w1)))).
    { unfold one_batch.
      match goal with
      | |- context [fold_left ?f ?l ?a] =>
          destruct (fold_counts env w1 l a) as (a1 & n1 & Hf)
      end.
      exists a1, n1. exact Hf. }
    destruct Hf as (added1 & new1 & Hl1 & Hr1 & G1 & G2 & G3).
    exists (added1 ++ added)%list, (new ++ new1)%list.
    rewrite Hl1, Hl, Hr1, Hr, Hq1, <- !app_assoc, !length_app.
    pose proof (firstn_skipn 10 (App.smsQueue w1)) as Hsplit.
    apply (f_equal (@List.length string)) in Hsplit.
    rewrite length_app in Hsplit.
    repeat split; try lia.
    + intros r Hin. apply in_app_or in Hin as [H|H]; [auto|].
      apply H4. eapply In_firstn. now apply G3.
    + intros i Hi. apply H4. eapply In_skipn, Hi.
  - exists [], []. rewrite app_nil_r. repeat split; auto. intros r [].
  - exists w', added, new. rewrite Hq in H2. cbn [List.length] in H2.
    repeat split; auto. lia.
Qed.

Lemma drain_sends_at_most_once_per_entry_witness :
  exists w',
    App.drain env0 2
      (idle [customer "c01" App.Pending; customer "c02" App.Failed]
         ["c01"; "c02"]) = Some w'
    /\ List.length (App.requests w') <= 2.
Proof.
  destruct (drain_sends_at_most_once_per_entry env0
              (idle [customer "c01" App.Pending; customer "c02" App.Failed]
                 ["c01"; "c02"]) eq_refl)
    as (w' & added & new & Hd & _ & Hr & H1 & H2 & _).
  exists w'. split; [exact Hd|].
  rewrite Hr. cbn in *. lia.
Defined.

Lemma fold_silent (env : App.Env) (snap : App.World) :
  forall chunk live,
    (forall i, In i chunk -> held_back i snap) ->
    fold_left (App.process_id env snap) chunk live = live.
Proof.
  induction chunk as [|i chunk IH]; intros live Hb; simpl; [reflexivity|].
  assert (E : App.process_id env snap live i = live).
  { unfold App.process_id.
    destruct (Hb i (or_introl eq_refl)) as [Hn|(c & Hl & Hp)];
      unfold lookup in *.
    - now rewrite Hn.
    - rewrite Hl. destruct (App.status c); [congruence | ..]; reflexivity. }
  rewrite E. apply IH. intros k Hk. apply Hb. now right.
Qed.

(** X19: a backlog that is already settled costs nothing: when every id of
    the backlog is held back by the guard, the drain empties the queue and
    changes neither the customers, nor the activity log, nor the POSTs. *)
Theorem drain_of_settled_backlog_is_silent (env : App.Env) (w : App.World) :
  App.queueActive w = false ->
  (forall i, In i (App.smsQueue w) -> held_back i w) ->
  exists w',
    App.drain env (List.length (App.smsQueue w)) w = Some w'
    /\ App.smsQueue w' = []
    /\ App.customers w' = App.customers w
    /\ App.activityLogs w' = App.activityLogs w
    /\ App.requests w' = App.requests w.
Proof.
  intros Ha Hb.
  destruct (drain_invariant env
              (fun w1 => App.customers w1 = App.customers w
                         /\ App.activityLogs w1 = App.activityLogs w
                         /\ App.requests w1 = App.requests w
                         /\ (forall i, In i (App.smsQueue w1) ->
                               In i (App.smsQueue w)))) with
    (fuel := List.length (App.smsQueue w)) (w := w)
    as (w' & Hd & (Hc & Hl & Hr & _) & Hq & _); auto.
  - intros w1 _ _ (Hc & Hl & Hr & Hin).
    destruct (one_batch_fields env w1) as (Hq1 & _).
    assert (E : App.customers (one_batch env w1) = App.customers w1
                /\ App.activityLogs (one_batch env w1) = App.activityLogs w1
                /\ App.requests (one_batch env w1) = App.requests w1).
    { unfold one_batch. rewrite fold_silent; [repeat split|].
      intros i Hi. apply held_back_customers with (w := w); [exact Hc|].
      apply Hb, Hin. eapply In_firstn, Hi. }
    destruct E as (-> & -> & ->). repeat split; auto.
    rewrite Hq1. intros i Hi. apply Hin. eapply In_skipn, Hi.
  - exists w'. auto.
Qed.

Lemma drain_of_settled_backlog_is_silent_witness :
  exists w',
    App.drain env0 3
      (idle [customer "c01" App.Sent; customer "c02" App.Failed]
         ["c01"; "c02"; "c03"]) = Some w'
    /\ App.requests w' = [].
Proof.
  destruct (drain_of_settled_backlog_is_silent env0
              (idle [customer "c01" App.Sent; customer "c02" App.Failed]
                 ["c01"; "c02"; "c03"]) eq_refl) as (w' & Hd & _ & _ & _ & Hr).
  - intros i [<-|[<-|[<-|[]]]]; [right|right|left]; cbn;
      try (eexists; split; [reflexivity | discriminate]); reflexivity.
  - exists w'. split; [exact Hd | exact Hr].
Defined.

(** ** Adding customers, one by one and in bulk, and the drain that follows *)

Lemma send_missing_phone (env : App.Env) (c : App.Customer) (w : App.World) :
  App.phone c = "" ->
  App.sendSmsToCustomer env c w
  = App.logActivity env "SMS failed (missing credentials)" (App.name c)
      (App.setCustomers (App.mark (App.id c) App.Failed) w).
Proof.
  intros Hp. unfold App.sendSmsToCustomer. rewrite Hp.
  cbn [Str.nonempty negb]. now rewrite !Bool.orb_true_r.
Qed.

(** The drain of a backlog of one id whose customer is Pending. *)
Lemma drain_single (env : App.Env) (w : App.World) (i : string) (c : App.Customer) :
  App.queueActive w = false -> App.smsQueue w = [i] ->
  lookup i w = Some c -> App.status c = App.Pending ->
  App.drain env 1 w
  = Some (App.setQueueActive false
            (App.sendSmsToCustomer env c
               (App.setSmsQueue (skipn 1)
                  (App.record_chunk [i] (App.setQueueActive true w))))).
Proof.
  intros Ha Hq Hl Hs. cbn [App.drain]. rewrite Hq.
  rewrite sms_effect_runs_one_batch by (congruence || assumption).
  assert (E : one_batch env w
              = App.setQueueActive false
                  (App.sendSmsToCustomer env c
                     (App.setSmsQueue (skipn 1)
                        (App.record_chunk [i] (App.setQueueActive true w))))).
  { unfold one_batch. rewrite Hq. cbn [firstn List.length fold_left].
    unfold App.process_id. unfold lookup in Hl. rewrite Hl, Hs. reflexivity. }
  rewrite E.
  match goal with |- _ = Some ?a =>
    assert (Hq' : App.smsQueue a = []) end.
  { match goal with |- context [App.sendSmsToCustomer env c ?a] =>
      destruct (send_fields env c a) as (Hq' & _) end.
    unfold App.setQueueActive at 1. cbn [App.smsQueue]. rewrite Hq'.
    cbn [App.smsQueue App.setSmsQueue App.record_chunk App.setQueueActive].
    now rewrite Hq. }
  cbn [App.drain]. now rewrite Hq'.
Qed.

Lemma lookup_added (env : App.Env) (name phone : string) (w : App.World) :
  lookup (fst (Customers.handleAddCustomer env name phone w))
    (snd (Customers.handleAddCustomer env name phone w))
  = Some (Customers.new_customer env (App.ticks w) name phone).
Proof.
  unfold Customers.handleAddCustomer, lookup.
  cbn [fst snd App.customers App.enqueueSmsCustomers App.setSmsQueue
       App.logActivity App.tick App.setActivityLogs App.setCustomers find].
  unfold App.has_id. now rewrite String.eqb_refl.
Qed.

(** X20: a customer added by hand is sent to by the drain that follows.
    With the Twilio settings filled in, a phone entered and the POST
    answered with success, the customer ends Sent after one POST, and the
    log reads "Sent SMS" above "Added to customer list".  With no phone
    entered the customer ends Failed, without any POST. *)
Theorem add_customer_then_drain (env : App.Env) (name phone : string)
  (w : App.World) :
  App.queueActive w = false -> App.smsQueue w = [] ->
  let c := Customers.new_customer env (App.ticks w) name phone in
  let newId := fst (Customers.handleAddCustomer env name phone w) in
  let wq := snd (Customers.handleAddCustomer env name phone w) in
  exists w',
    App.drain env 1 wq = Some w' /\ App.smsQueue w' = []
    /\ newId = App.id c
    /\ (creds_ok env -> phone <> "" -> answered_ok env c ->
        option_map App.status (lookup newId w') = Some App.Sent
        /\ map fst (App.requests w') = (map fst (App.requests w) ++ [newId])%list
        /\ map view (App.activityLogs w')
           = (name, "Sent SMS") :: (name, "Added to customer list")
             :: map view (App.activityLogs w))
    /\ (phone = "" ->
        option_map App.status (lookup newId w') = Some App.Failed
        /\ App.requests w' = App.requests w
        /\ map view (App.activityLogs w')
           = (name, "SMS failed (missing credentials)")
             :: (name, "Added to customer list")
             :: map view (App.activityLogs w)).
Proof.
  intros Ha Hq c newId wq.
  pose proof (lookup_added env name phone w) as Hl.
  fold newId wq c in Hl.
  assert (Hwq : App.queueActive wq = false /\ App.smsQueue wq = [newId]
                /\ App.requests wq = App.requests w
                /\ map view (App.activityLogs wq)
                   = (name, "Added to customer list")
                     :: map view (App.activityLogs w)).
  { unfold wq, Customers.handleAddCustomer. cbn. rewrite Hq. auto. }
  destruct Hwq as (Ha' & Hq' & Hr' & Hlog').
  rewrite (drain_single env wq newId c Ha' Hq' Hl eq_refl).
  eexists. split; [reflexivity|].
  match goal with |- context [App.sendSmsToCustomer env c ?a] =>
    set (w1 := a);
    assert (H1 : lookup newId w1 = Some c
                 /\ App.requests w1 = App.requests w
                 /\ map view (App.activityLogs w1)
                    = (name, "Added to customer list")
                      :: map view (App.activityLogs w)
                 /\ App.smsQueue w1 = [])
      by (unfold w1; cbn [App.smsQueue App.setSmsQueue App.record_chunk
                            App.setQueueActive]; rewrite Hq'; auto)
  end.
  destruct H1 as (Hl1 & Hr1 & Hlog1 & Hq1).
  assert (Hid : newId = App.id c) by reflexivity.
  split.
  { destruct (send_fields env c w1) as (Hsq & _).
    unfold App.setQueueActive. cbn [App.smsQueue]. congruence. }
  split; [exact Hid|].
  unfold lookup in *.
  cbn [App.setQueueActive App.customers App.requests App.activityLogs].
  split.
  - intros Hc Hp Hok.
    destruct (send_success env c w1 Hc Hok Hp) as (e & req & -> & -> & He & ->).
    rewrite Hid, find_mark_same. rewrite Hid in Hl1. rewrite Hl1.
    split; [reflexivity|]. split.
    + rewrite map_app, Hr1. reflexivity.
    + cbn [map]. rewrite He, Hlog1. reflexivity.
  - intros Hp. rewrite send_missing_phone by exact Hp.
    cbn [App.logActivity App.tick App.setActivityLogs App.setCustomers
         App.customers App.requests App.activityLogs map].
    rewrite Hid, find_mark_same. rewrite Hid in Hl1. rewrite Hl1.
    split; [reflexivity|]. split; [exact Hr1|].
    now rewrite Hlog1.
Qed.

Lemma add_customer_then_drain_witness :
  exists w',
    App.drain env0 1
      (snd (Customers.handleAddCustomer env0 "Ann" "9876543210"
              (idle [customer "c01" App.Sent] []))) = Some w'
    /\ map view (App.activityLogs w')
       = [("Ann", "Sent SMS"); ("Ann", "Added to customer list")].
Proof.
  destruct (add_customer_then_drain env0 "Ann" "9876543210"
              (idle [customer "c01" App.Sent] []) eq_refl eq_refl)
    as (w' & Hd & _ & _ & Hsent & _).
  exists w'. split; [exact Hd|].
  destruct Hsent as (_ & _ & Hlog).
  - repeat split; discriminate.
  - discriminate.
  - intros n. eexists. split; reflexivity.
  - exact Hlog.
Defined.

Lemma bulk_length (env : App.Env) (rows : list Customers.Row) :
  forall t, List.length (Customers.bulk_customers env t rows) = List.length rows.
Proof. induction rows as [|d rows IH]; intros t; simpl; [|rewrite IH]; auto. Qed.

Lemma bulk_names (env : App.Env) (rows : list Customers.Row) :
  forall t, map App.name (Customers.bulk_customers env t rows)
            = map Customers.r_name rows.
Proof. induction rows as [|d rows IH]; intros t; simpl; [|rewrite IH]; auto. Qed.

Lemma bulk_pending (env : App.Env) (rows : list Customers.Row) :
  Forall (fun d => Customers.r_phone d <> "") rows ->
  forall t, Forall (fun c => App.status c = App.Pending /\ App.phone c <> "")
              (Customers.bulk_customers env t rows).
Proof.
  induction 1 as [|d rows Hd _ IH]; intros t; simpl; constructor; auto.
Qed.

Lemma fold_log (env : App.Env) (action : string) (l : list App.Customer) :
  forall w,
    let w' := fold_left
                (fun w c => App.logActivity env action (App.name c) w) l w in
    App.customers w' = App.customers w
    /\ App.smsQueue w' = App.smsQueue w
    /\ App.queueActive w' = App.queueActive w
    /\ App.requests w' = App.requests w
    /\ App.chunks w' = App.chunks w
    /\ map view (App.activityLogs w')
       = (rev (map (fun c => (App.name c, action)) l)
          ++ map view (App.activityLogs w))%list.
Proof.
  induction l as [|c l IH]; intros w; [repeat split|].
  cbn [fold_left map rev]. cbv zeta in *.
  destruct (IH (App.logActivity env action (App.name c) w))
    as (-> & -> & -> & -> & -> & ->).
  rewrite <- app_assoc. repeat split.
Qed.

Lemma find_unique (l rest : list App.Customer) (c : App.Customer) :
  NoDup (map App.id l) -> In c l ->
  find (App.has_id (App.id c)) (l ++ rest) = Some c.
Proof.
  induction l as [|x l IH]; intros Hnd Hin; [destruct Hin|].
  destruct Hin as [<-|Hin]; simpl.
  - unfold App.has_id. now rewrite String.eqb_refl.
  - inversion Hnd as [|? ? Hx Hnd']; subst.
    destruct (App.has_id (App.id c) x) eqn:E; [|now apply IH].
    exfalso. apply Hx. apply String.eqb_eq in E. rewrite E.
    now apply in_map.
Qed.

(** X21: a bulk upload is sent in the order of its rows.  With the Twilio
    settings filled in, a phone in every row, the generated ids distinct and
    a provider that succeeds, the drain that follows the upload cuts the new
    ids into tens and a remainder, POSTs once per row in row order, leaves
    every new customer Sent, and the log reads the "Sent SMS" entries above
    the "Bulk uploaded" entries, the latest row on top in both. *)
Theorem bulk_add_then_drain (env : App.Env) (rows : list Customers.Row)
  (w : App.World) :
  creds_ok env -> always_succeeds env ->
  App.queueActive w = false -> App.smsQueue w = [] ->
  Forall (fun d => Customers.r_phone d <> "") rows ->
  let new := Customers.bulk_customers env (App.ticks w) rows in
  NoDup (map App.id new) ->
  let res := fst (Customers.handleBulkAddCustomers env rows w) in
  let wq := snd (Customers.handleBulkAddCustomers env rows w) in
  Customers.added res = List.length rows
  /\ exists w',
       App.drain env (List.length rows) wq = Some w'
       /\ App.smsQueue w' = []
       /\ (forall c, In c new ->
             option_map App.status (lookup (App.id c) w') = Some App.Sent)
       /\ (exists bs, App.chunks w' = (App.chunks w ++ bs)%list
                      /\ batched_by_10 (map App.id new) bs)
       /\ map fst (App.requests w')
          = (map fst (App.requests w) ++ map App.id new)%list
       /\ map view (App.activityLogs w')
          = (rev (map (row_entry "Sent SMS") rows)
             ++ rev (map (row_entry "Bulk uploaded") rows)
             ++ map view (App.activityLogs w))%list.
Proof.
  intros Hc Hok Ha Hq Hph new Hnd res wq.
  split; [apply bulk_length|].
  pose proof (bulk_pending env rows Hph (App.ticks w)) as Hpend.
  fold new in Hpend. rewrite Forall_forall in Hpend.
  set (w1 := App.tick (2 * List.length rows)
               (App.setCustomers (fun prev => (new ++ prev)%list) w)).
  set (w2 := fold_left
               (fun w c => App.logActivity env "Bulk uploaded" (App.name c) w)
               new w1).
  assert (Ewq : wq = App.enqueueSmsCustomers (map App.id new) w2) by reflexivity.
  destruct (fold_log env "Bulk uploaded" new w1) as (Hc2 & Hq2 & Ha2 & Hr2 & Hch2 & Hl2).
  fold w2 in Hc2, Hq2, Ha2, Hr2, Hch2, Hl2.
  assert (Hfind : forall c, In c new -> lookup (App.id c) w2 = Some c).
  { intros c Hin. unfold lookup. rewrite Hc2. now apply find_unique. }
  destruct (drain_of_ready env w2 (map App.id new)) as
    (w' & Hd & Hq' & (bs & Hbs & Hb10 & _) & Hsent & _ & Hlog & Hreq).
  - exact Hc.
  - now rewrite Ha2.
  - now rewrite Hq2.
  - exact Hnd.
  - intros i Hi. apply in_map_iff in Hi as (c & <- & Hin).
    exists c. destruct (Hpend c Hin) as [Hs Hp].
    repeat split; auto. intros n. apply Hok.
  - exists w'.
    replace (List.length (map App.id new)) with (List.length rows) in Hd
      by (rewrite length_map; symmetry; apply bulk_length).
    rewrite Ewq.
    split; [exact Hd|]. split; [exact Hq'|]. split.
    { intros c Hin. apply Hsent. now apply in_map. }
    split. { exists bs. split; [now rewrite Hbs, Hch2 | exact Hb10]. }
    split. { now rewrite Hreq, Hr2. }
    rewrite Hlog, Hl2. f_equal; [|f_equal].
    + f_equal. rewrite map_map. unfold row_entry.
      rewrite <- (map_map Customers.r_name (fun n => (n, "Sent SMS"))).
      rewrite <- (bulk_names env rows (App.ticks w)). fold new.
      rewrite map_map. apply map_ext_in. intros c Hin.
      unfold sent_entry, name_of. now rewrite Hfind.
    + f_equal. unfold row_entry.
      rewrite <- (map_map Customers.r_name (fun n => (n, "Bulk uploaded"))).
      rewrite <- (bulk_names env rows (App.ticks w)). fold new.
      now rewrite map_map.
Qed.

Lemma bulk_add_then_drain_witness :
  exists w',
    App.drain env1 2
      (snd (Customers.handleBulkAddCustomers env1
              [{| Customers.r_name := "Ann"; Customers.r_phone := "9876543210" |};
               {| Customers.r_name := "Bob"; Customers.r_phone := "9123456780" |}]
              (idle [] []))) = Some w'
    /\ map view (App.activityLogs w')
       = [("Bob", "Sent SMS"); ("Ann", "Sent SMS");
          ("Bob", "Bulk uploaded"); ("Ann", "Bulk uploaded")].
Proof.
  destruct (bulk_add_then_drain env1
              [{| Customers.r_name := "Ann"; Customers.r_phone := "9876543210" |};
               {| Customers.r_name := "Bob"; Customers.r_phone := "9123456780" |}]
              (idle [] []))
    as (_ & w' & Hd & _ & _ & _ & _ & Hlog).
  - repeat split; discriminate.
  - intros n req. eexists. split; reflexivity.
  - reflexivity.
  - reflexivity.
  - repeat constructor; discriminate.
  - cbv. repeat constructor; cbn; intuition discriminate.
  - exists w'. split; [exact Hd | exact Hlog].
Defined.

(** ** Free-text feedback from the dashboard *)










(** ** The length information of the settings page *)

Lemma test_class_to_end_true (class : ascii -> bool) (s : string) :
  SmsLength.test_class_to_end class s = true.
Proof.
  induction s as [|c s IH]; [reflexivity|].
  cbn [SmsLength.test_class_to_end]. rewrite IH. apply Bool.orb_true_r.
Qed.

(** X23: the length information never reports Unicode.  The pattern
    [GSM_BASIC] is anchored at the end only, so it matches every text,
    whatever characters its class holds: the encoding shown is always GSM-7,
    the limits are always 160 and 153, and the number of segments is 1 up to
    160 characters and the least number of 153-character parts above. *)
Theorem sms_length_always_gsm (GSM_BASIC : ascii -> bool) (s : string) :
  let n := String.length s in
  let k := SmsLength.segments GSM_BASIC s in
  SmsLength.isGsm GSM_BASIC s = true
  /\ SmsLength.singleLimit GSM_BASIC s = 160
  /\ SmsLength.multiLimit GSM_BASIC s = 153
  /\ (n <= 160 -> k = 1)
  /\ (160 < n -> 2 <= k /\ 153 * (k - 1) < n <= 153 * k).
Proof.
  intros n k.
  assert (Hg : SmsLength.isGsm GSM_BASIC s = true)
    by apply test_class_to_end_true.
  assert (Hk : k = if 160 <? n then (n + 153 - 1) / 153 else 1).
  { unfold k, SmsLength.segments, SmsLength.singleLimit, SmsLength.multiLimit,
      SmsLength.ceil_div. now rewrite Hg. }
  split; [exact Hg|].
  unfold SmsLength.singleLimit, SmsLength.multiLimit. rewrite Hg.
  split; [reflexivity|]. split; [reflexivity|]. split.
  - intros Hn. rewrite Hk. destruct (Nat.ltb_spec 160 n); [lia | reflexivity].
  - intros Hn. rewrite Hk. destruct (Nat.ltb_spec 160 n); [|lia].
    pose proof (Nat.div_mod_eq (n + 153 - 1) 153) as Hd.
    pose proof (Nat.mod_upper_bound (n + 153 - 1) 153) as Hm.
    set (q := (n + 153 - 1) / 153) in *.
    set (r := (n + 153 - 1) mod 153) in *. lia.
Qed.

(** ** What the batch sends of the settings page post and report *)

Lemma sms_send_one_payload
  (sid token phone : string) (build : App.Customer -> string)
  (fetch : nat -> Server.SmsRequest -> SettingsPage.FetchOutcome)
  (nrm : string) (acc : SettingsPage.Progress) (cust : App.Customer) :
  SettingsPage.send_one sid token phone build fetch nrm acc cust
  = SettingsPage.succeeded cust (sms_payload sid token phone build cust) acc
  \/ exists msg c,
       SettingsPage.send_one sid token phone build fetch nrm acc cust
       = SettingsPage.failed cust msg c (sms_payload sid token phone build cust)
           acc.
Proof.
  unfold SettingsPage.send_one, SettingsPage.caught.
  fold (sms_payload sid token phone build cust).
  destruct (fetch _ _) as [ok st data raw|m].
  - destruct ok; cbn [negb].
    + destruct data as [d|]; [destruct (SettingsPage.success d)|]; eauto.
    + eauto.
  - eauto.
Qed.

Lemma sms_send_one_step
  (sid token phone : string) (build : App.Customer -> string)
  (fetch : nat -> Server.SmsRequest -> SettingsPage.FetchOutcome)
  (nrm : string) (acc : SettingsPage.Progress) (cust : App.Customer) :
  let acc' := SettingsPage.send_one sid token phone build fetch nrm acc cust in
  SettingsPage.posts acc'
    = (SettingsPage.posts acc ++ [sms_payload sid token phone build cust])%list
  /\ map mark_id (SettingsPage.marks acc')
     = (map mark_id (SettingsPage.marks acc) ++ [App.id cust])%list
  /\ (failed_reasons (SettingsPage.marks acc)
        = map SettingsPage.f_error (SettingsPage.failures acc) ->
      failed_reasons (SettingsPage.marks acc')
        = map SettingsPage.f_error (SettingsPage.failures acc'))
  /\ (sent_contexts (SettingsPage.marks acc)
        = repeat "settings" (SettingsPage.success_count acc) ->
      sent_contexts (SettingsPage.marks acc')
        = repeat "settings" (SettingsPage.success_count acc')).
Proof.
  cbv zeta.
  destruct (sms_send_one_payload sid token phone build fetch nrm acc cust)
    as [E|(msg & c & E)]; rewrite E;
    cbn [SettingsPage.succeeded SettingsPage.failed SettingsPage.posts
         SettingsPage.marks SettingsPage.failures SettingsPage.success_count];
    unfold failed_reasons, sent_contexts;
    rewrite ?map_app, ?flat_map_app; cbn [map flat_map app mark_id];
    rewrite ?app_nil_r;
    (split; [reflexivity|]); (split; [reflexivity|]); split; intros H;
    rewrite ?H; auto.
  symmetry. apply repeat_cons.
Qed.

Lemma sms_send_all
  (sid token phone : string) (build : App.Customer -> string)
  (fetch : nat -> Server.SmsRequest -> SettingsPage.FetchOutcome)
  (nrm : string) (l : list App.Customer) :
  forall acc,
    let done :=
      fold_left (SettingsPage.send_one sid token phone build fetch nrm) l acc in
    SettingsPage.posts done
      = (SettingsPage.posts acc ++ map (sms_payload sid token phone build) l)%list
    /\ map mark_id (SettingsPage.marks done)
       = (map mark_id (SettingsPage.marks acc) ++ map App.id l)%list
    /\ (failed_reasons (SettingsPage.marks acc)
          = map SettingsPage.f_error (SettingsPage.failures acc) ->
        failed_reasons (SettingsPage.marks done)
          = map SettingsPage.f_error (SettingsPage.failures done))
    /\ (sent_contexts (SettingsPage.marks acc)
          = repeat "settings" (SettingsPage.success_count acc) ->
        sent_contexts (SettingsPage.marks done)
          = repeat "settings" (SettingsPage.success_count done)).
Proof.
  induction l as [|cust l IH]; intros acc; cbn [fold_left map].
  - rewrite !app_nil_r. auto.
  - cbv zeta in *.
    destruct (IH (SettingsPage.send_one sid token phone build fetch nrm acc cust))
      as (Hp & Hm & Hf & Hs).
    destruct (sms_send_one_step sid token phone build fetch nrm acc cust)
      as (Hp1 & Hm1 & Hf1 & Hs1).
    rewrite Hp, Hm, Hp1, Hm1, <- !app_assoc.
    split; [reflexivity|]. split; [reflexivity|]. split; auto.
Qed.

(** X24: what the batch SMS send of the settings page does to the outside.
    When the guard passes, it POSTs once per selected recipient, in the
    order of the selection, the entered credentials, the recipient's phone
    and the personalised message; it reports every recipient once, in that
    order, as sent (with the context "settings") or as failed, with the
    error recorded for that failure; as many are reported sent as are
    counted.  When a field is empty or nobody is selected it POSTs nothing
    and reports nobody. *)
Theorem handleSendSms_dispatch
  (sid token phone template : string) (build : App.Customer -> string)
  (fetch : nat -> Server.SmsRequest -> SettingsPage.FetchOutcome)
  (null_read_message : string) (recipients : list App.Customer) :
  let out :=
    SettingsPage.handleSendSms sid token phone template build fetch
      null_read_message recipients in
  let done := SettingsPage.final out in
  (sid <> "" -> token <> "" -> phone <> "" -> template <> "" ->
   recipients <> [] ->
   SettingsPage.posts done = map (sms_payload sid token phone build) recipients
   /\ map mark_id (SettingsPage.marks done) = map App.id recipients
   /\ failed_reasons (SettingsPage.marks done)
      = map SettingsPage.f_error (SettingsPage.failures done)
   /\ sent_contexts (SettingsPage.marks done)
      = repeat "settings" (SettingsPage.success_count done))
  /\ (sid = "" \/ token = "" \/ phone = "" \/ template = "" \/ recipients = [] ->
      SettingsPage.posts done = [] /\ SettingsPage.marks done = []
      /\ SettingsPage.smsSendStatus out
         = "Please fill all Twilio fields, select at least one recipient, and enter a message.").
Proof.
  intros out done. split.
  - intros Hs Ht Hp Hm Hr.
    assert (E : done = fold_left
                         (SettingsPage.send_one sid token phone build fetch
                            null_read_message) recipients SettingsPage.start).
    { unfold done, out, SettingsPage.handleSendSms.
      rewrite !nonempty_true by assumption.
      destruct recipients; [congruence | reflexivity]. }
    destruct (sms_send_all sid token phone build fetch null_read_message
                recipients SettingsPage.start) as (H1 & H2 & H3 & H4).
    cbv zeta in *. rewrite <- E in *.
    split; [exact H1|]. split; [exact H2|]. split; [now apply H3 | now apply H4].
  - intros H.
    assert (E : out = {| SettingsPage.smsSendStatus :=
                           "Please fill all Twilio fields, select at least one recipient, and enter a message.";
                         SettingsPage.final := SettingsPage.start |}).
    { unfold out, SettingsPage.handleSendSms.
      destruct H as [-> | [-> | [-> | [-> | ->]]]]; cbn [Str.nonempty negb orb];
        rewrite ?Bool.orb_true_r; reflexivity. }
    unfold done. rewrite E. repeat split.
Qed.

Lemma handleSendSms_dispatch_witness :
  map mark_id
    (SettingsPage.marks
       (SettingsPage.final
          (SettingsPage.handleSendSms "AC0123" "secret" "+14155552671" "Hi"
             (fun _ => "Hi") trial_fetch "null"
             [customer "c01" App.Pending; customer "c02" App.Pending])))
  = ["c01"; "c02"].
Proof.
  destruct (handleSendSms_dispatch "AC0123" "secret" "+14155552671" "Hi"
              (fun _ => "Hi") trial_fetch "null"
              [customer "c01" App.Pending; customer "c02" App.Pending])
    as [H _].
  destruct H as (_ & Hm & _); try discriminate.
  exact Hm.
Defined.

Lemma wa_send_one_cases
  (token pnid : string) (debug : bool) (build : App.Customer -> string)
  (fetch : nat -> MetaSend.Request -> WhatsAppBatch.FetchOutcome)
  (nrm : string) (acc : WhatsAppBatch.Progress) (cust : App.Customer) :
  WhatsAppBatch.send_one token pnid debug build fetch nrm acc cust
  = WhatsAppBatch.succeeded cust (wa_payload token pnid debug build cust) acc
  \/ exists msg,
       WhatsAppBatch.send_one token pnid debug build fetch nrm acc cust
       = WhatsAppBatch.failed cust msg (wa_payload token pnid debug build cust)
           acc.
Proof.
  unfold WhatsAppBatch.send_one, WhatsAppBatch.caught.
  fold (wa_payload token pnid debug build cust).
  destruct (fetch _ _) as [ok st data|m]; [|eauto].
  destruct data as [success error| |]; [|destruct ok; cbn [negb]; eauto|eauto].
  destruct (negb ok || negb success); eauto.
Qed.

Lemma wa_send_one_step
  (token pnid : string) (debug : bool) (build : App.Customer -> string)
  (fetch : nat -> MetaSend.Request -> WhatsAppBatch.FetchOutcome)
  (nrm : string) (acc : WhatsAppBatch.Progress) (cust : App.Customer) :
  let acc' := WhatsAppBatch.send_one token pnid debug build fetch nrm acc cust in
  WhatsAppBatch.posts acc'
    = (WhatsAppBatch.posts acc ++ [wa_payload token pnid debug build cust])%list
  /\ map mark_id (WhatsAppBatch.marks acc')
     = (map mark_id (WhatsAppBatch.marks acc) ++ [App.id cust])%list
  /\ WhatsAppBatch.success_count acc' + List.length (WhatsAppBatch.failures acc')
     = WhatsAppBatch.success_count acc
       + List.length (WhatsAppBatch.failures acc) + 1
  /\ (failed_reasons (WhatsAppBatch.marks acc)
        = map WhatsAppBatch.f_error (WhatsAppBatch.failures acc) ->
      failed_reasons (WhatsAppBatch.marks acc')
        = map WhatsAppBatch.f_error (WhatsAppBatch.failures acc'))
  /\ (sent_contexts (WhatsAppBatch.marks acc)
        = repeat "wa-meta" (WhatsAppBatch.success_count acc) ->
      sent_contexts (WhatsAppBatch.marks acc')
        = repeat "wa-meta" (WhatsAppBatch.success_count acc'))
  /\ (forall f, In f (WhatsAppBatch.failures acc') ->
        In f (WhatsAppBatch.failures acc)
        \/ (WhatsAppBatch.f_name f = App.name cust
            /\ WhatsAppBatch.f_phone f = App.phone cust)).
Proof.
  cbv zeta.
  destruct (wa_send_one_cases token pnid debug build fetch nrm acc cust)
    as [E|(msg & E)]; rewrite E;
    cbn [WhatsAppBatch.succeeded WhatsAppBatch.failed WhatsAppBatch.posts
         WhatsAppBatch.marks WhatsAppBatch.failures
         WhatsAppBatch.success_count];
    unfold failed_reasons, sent_contexts;
    rewrite ?map_app, ?flat_map_app, ?length_app;
    cbn [map flat_map app mark_id List.length];
    rewrite ?app_nil_r;
    (split; [reflexivity|]); (split; [reflexivity|]); (split; [lia|]);
    (split; [intros H; rewrite ?H; auto | split; [intros H; rewrite ?H; auto|]]).
  - symmetry. apply repeat_cons.
  - intros f Hf. now left.
  - intros f Hf. apply in_app_or in Hf as [Hf|[<-|[]]]; [now left|].
    right. split; reflexivity.
Qed.

Lemma wa_send_all
  (token pnid : string) (debug : bool) (build : App.Customer -> string)
  (fetch : nat -> MetaSend.Request -> WhatsAppBatch.FetchOutcome)
  (nrm : string) (l : list App.Customer) :
  forall acc,
    let done :=
      fold_left (WhatsAppBatch.send_one token pnid debug build fetch nrm) l acc in
    WhatsAppBatch.posts done
      = (WhatsAppBatch.posts acc ++ map (wa_payload token pnid debug build) l)%list
    /\ map mark_id (WhatsAppBatch.marks done)
       = (map mark_id (WhatsAppBatch.marks acc) ++ map App.id l)%list
    /\ WhatsAppBatch.success_count done
       + List.length (WhatsAppBatch.failures done)
       = WhatsAppBatch.success_count acc
         + List.length (WhatsAppBatch.failures acc) + List.length l
    /\ (failed_reasons (WhatsAppBatch.marks acc)
          = map WhatsAppBatch.f_error (WhatsAppBatch.failures acc) ->
        failed_reasons (WhatsAppBatch.marks done)
          = map WhatsAppBatch.f_error (WhatsAppBatch.failures done))
    /\ (sent_contexts (WhatsAppBatch.marks acc)
          = repeat "wa-meta" (WhatsAppBatch.success_count acc) ->
        sent_contexts (WhatsAppBatch.marks done)
          = repeat "wa-meta" (WhatsAppBatch.success_count done))
    /\ (forall f, In f (WhatsAppBatch.failures done) ->
          In f (WhatsAppBatch.failures acc)
          \/ exists cust, In cust l /\ WhatsAppBatch.f_name f = App.name cust
                          /\ WhatsAppBatch.f_phone f = App.phone cust).
Proof.
  induction l as [|cust l IH]; intros acc; cbn [fold_left map List.length].
  - rewrite !app_nil_r. repeat split; auto.
  - cbv zeta in *.
    destruct (IH (WhatsAppBatch.send_one token pnid debug build fetch nrm acc cust))
      as (Hp & Hm & Hn & Hf & Hs & Hin).
    destruct (wa_send_one_step token pnid debug build fetch nrm acc cust)
      as (Hp1 & Hm1 & Hn1 & Hf1 & Hs1 & Hin1).
    rewrite Hp, Hm, Hn, Hp1, Hm1, Hn1, <- !app_assoc.
    split; [reflexivity|]. split; [reflexivity|]. split; [lia|].
    split; [auto|]. split; [auto|].
    intros f Hf0. destruct (Hin f Hf0) as [H|(c & Hc & H)].
    + destruct (Hin1 f H) as [H'|H']; [now left|].
      right. exists cust. split; [now left | exact H'].
    + right. exists c. split; [now right | exact H].
Qed.

(** X25: the batch WhatsApp send of the settings page.  When the guard
    passes, it POSTs once per selected recipient, in the order of the
    selection, the entered token and phone-number id, the recipient's phone
    and the personalised message; every recipient is counted once, as a
    success or as a failure, and reported once, as sent (context "wa-meta")
    or as failed with the error recorded; a failure carries the name and
    phone of a recipient.  The status line gives the number sent when
    nothing failed, and otherwise the successes out of the total, the number
    of failures and the name and error of the first one. *)
Theorem handleSendMetaWhatsapp_accounts
  (token pnid template : string) (debug : bool)
  (build : App.Customer -> string)
  (fetch : nat -> MetaSend.Request -> WhatsAppBatch.FetchOutcome)
  (null_read_message : string) (recipients : list App.Customer) :
  token <> "" -> pnid <> "" -> template <> "" -> recipients <> [] ->
  let out :=
    WhatsAppBatch.handleSendMetaWhatsapp token pnid template debug build fetch
      null_read_message recipients in
  let done := WhatsAppBatch.final out in
  let sent := WhatsAppBatch.success_count done in
  let fails := WhatsAppBatch.failures done in
  let total := List.length recipients in
  WhatsAppBatch.posts done = map (wa_payload token pnid debug build) recipients
  /\ map mark_id (WhatsAppBatch.marks done) = map App.id recipients
  /\ sent + List.length fails = total
  /\ failed_reasons (WhatsAppBatch.marks done) = map WhatsAppBatch.f_error fails
  /\ sent_contexts (WhatsAppBatch.marks done) = repeat "wa-meta" sent
  /\ (forall f, In f fails ->
        exists cust, In cust recipients /\ WhatsAppBatch.f_name f = App.name cust
                     /\ WhatsAppBatch.f_phone f = App.phone cust)
  /\ (fails = [] ->
      WhatsAppBatch.waSendStatus out
      = "All " ++ Str.of_nat total
        ++ " WhatsApp messages sent successfully via Meta. (Note: 'success' = accepted by API, not guaranteed delivered. Use a template if user hasn't replied in 24h.)")
  /\ (forall first rest, fails = first :: rest ->
      WhatsAppBatch.waSendStatus out
      = "Sent " ++ Str.of_nat sent ++ "/" ++ Str.of_nat total
        ++ ". Failed: " ++ Str.of_nat (S (List.length rest))
        ++ ". First error: " ++ WhatsAppBatch.f_name first ++ " - "
        ++ WhatsAppBatch.f_error first).
Proof.
  intros Ht Hp Hm Hr out done sent fails total.
  assert (E : out =
    let d := fold_left
               (WhatsAppBatch.send_one token pnid debug build fetch
                  null_read_message) recipients WhatsAppBatch.start in
    {| WhatsAppBatch.waSendStatus :=
         WhatsAppBatch.summary total (WhatsAppBatch.success_count d)
           (WhatsAppBatch.failures d);
       WhatsAppBatch.final := d |}).
  { unfold out, WhatsAppBatch.handleSendMetaWhatsapp.
    rewrite !nonempty_true by assumption.
    destruct recipients; [congruence | reflexivity]. }
  destruct (wa_send_all token pnid debug build fetch null_read_message
              recipients WhatsAppBatch.start) as (H1 & H2 & H3 & H4 & H5 & H6).
  cbv zeta in *.
  assert (Ed : done = fold_left
                        (WhatsAppBatch.send_one token pnid debug build fetch
                           null_read_message) recipients WhatsAppBatch.start)
    by (unfold done; now rewrite E).
  rewrite <- Ed in *.
  assert (Hcount : sent + List.length fails = total) by exact H3.
  split; [exact H1|]. split; [exact H2|]. split; [exact Hcount|].
  split; [now apply H4|]. split; [now apply H5|]. split.
  { intros f Hf. destruct (H6 f Hf) as [[]|H]. exact H. }
  assert (Hst : WhatsAppBatch.waSendStatus out
                = WhatsAppBatch.summary total sent fails)
    by (unfold sent, fails, done; rewrite E; reflexivity).
  rewrite Hst. split.
  - intros Hnil. rewrite Hnil in *. cbn [List.length] in Hcount.
    rewrite Nat.add_0_r in Hcount. now rewrite Hcount.
  - intros first rest Hf. rewrite Hf. reflexivity.
Qed.

Lemma handleSendMetaWhatsapp_accounts_witness :
  WhatsAppBatch.waSendStatus
    (WhatsAppBatch.handleSendMetaWhatsapp "EAAB" "1055" "Hi" false
       (fun _ => "Hi") wa_fetch "null"
       [customer "c01" App.Pending; customer "c02" App.Pending])
  = "Sent 1/2. Failed: 1. First error: Customer c02 - Recipient not in allowed list".
Proof.
  destruct (handleSendMetaWhatsapp_accounts "EAAB" "1055" "Hi" false
              (fun _ => "Hi") wa_fetch "null"
              [customer "c01" App.Pending; customer "c02" App.Pending])
    as (_ & _ & _ & _ & _ & _ & _ & H); try discriminate.
  exact (H _ [] eq_refl).
Defined.

(** ** The settings page and the queue *)





(** ** The upload of a customer sheet *)

Lemma upload_verdict (raw : Upload.Cell) :
  Upload.normalizePhone raw = verdict (Phone.normalizePhone (Upload.text raw)).
Proof.
  assert (Hcore : forall s,
    (let cleaned := Phone.cleaned s in
     if Str.startsWith "+" cleaned then
       if Phone.re_e164_digits
            (String.substring 1 (String.length cleaned - 1) cleaned)
       then Some cleaned else None
     else
       if Phone.re_mobile10 (Phone.strip_zeros cleaned)
       then Some ("+91" ++ Phone.strip_zeros cleaned)
       else if Phone.re_e164_digits (Phone.strip_zeros cleaned) then None
       else None)
    = verdict
        (let cleaned := Phone.cleaned s in
         if Str.startsWith "+" cleaned then
           if Phone.re_e164_digits
                (String.substring 1 (String.length cleaned - 1) cleaned)
           then Phone.Ok cleaned else Phone.Fail "Invalid E.164 format"
         else
           if Phone.re_mobile10 (Phone.strip_zeros cleaned)
           then Phone.Ok ("+91" ++ Phone.strip_zeros cleaned)
           else if Phone.re_e164_digits (Phone.strip_zeros cleaned)
                then Phone.Fail "Ambiguous country code; include +<country_code>"
                else Phone.Fail "Unrecognized phone pattern")).
  { intros s. cbv zeta. destruct (Str.startsWith _ _).
    - now destruct (Phone.re_e164_digits _).
    - destruct (Phone.re_mobile10 _); [reflexivity|].
      now destruct (Phone.re_e164_digits _). }
  destruct raw as [|s|z].
  - reflexivity.
  - destruct s as [|a s]; [reflexivity|].
    unfold Upload.normalizePhone, Phone.normalizePhone.
    cbn [Upload.truthy Upload.text Str.nonempty negb]. apply Hcore.
  - unfold Upload.normalizePhone, Phone.normalizePhone.
    cbn [Upload.truthy Upload.text]. destruct (Z.eqb_spec z 0) as [->|Hz].
    + reflexivity.
    + cbn [negb]. destruct (Str.of_Z z) as [|a s] eqn:E.
      * reflexivity.
      * cbn [Str.nonempty negb]. apply Hcore.
Qed.

Lemma row_result_cases (row : Upload.SheetRow) :
  (fst (Upload.row_result row) = [] /\ snd (Upload.row_result row) <= 1)
  \/ exists name value,
       Upload.customerName row = Some name /\ name <> ""
       /\ Upload.normalizePhone (Upload.rawPhone row) = Some value
       /\ Upload.row_result row
          = ([{| Customers.r_name := name; Customers.r_phone := value |}], 0).
Proof.
  unfold Upload.row_result.
  destruct (Upload.normalizePhone (Upload.rawPhone row)) as [value|].
  - destruct (Upload.customerName row) as [[|a name]|]; cbn.
    + left. split; [reflexivity | lia].
    + right. exists (String a name), value. repeat split. discriminate.
    + left. split; [reflexivity | lia].
  - left. split; [reflexivity|]. cbn. destruct (_ && _); lia.
Qed.

Lemma fold_add_shift (f : Upload.SheetRow -> nat) (l : list Upload.SheetRow) :
  forall n, fold_left (fun k row => k + f row) l n
            = n + fold_left (fun k row => k + f row) l 0.
Proof.
  induction l as [|x l IH]; intros n; cbn [fold_left]; [lia|].
  rewrite (IH (n + f x)), (IH (0 + f x)). lia.
Qed.

Lemma upload_rows (json : list Upload.SheetRow) :
  Forall (fun d => Customers.r_name d <> ""
                   /\ exists row, In row json
                        /\ Upload.customerName row = Some (Customers.r_name d)
                        /\ Upload.normalizePhone (Upload.rawPhone row)
                           = Some (Customers.r_phone d))
    (Upload.customersData json)
  /\ List.length (Upload.customersData json) + Upload.normalizationInvalid json
     <= List.length json.
Proof.
  unfold Upload.customersData, Upload.normalizationInvalid.
  induction json as [|row json [IH1 IH2]]; cbn [flat_map fold_left List.length].
  - split; [constructor | lia].
  - rewrite fold_add_shift, length_app.
    assert (IH1' : Forall
              (fun d => Customers.r_name d <> ""
                 /\ exists row0, In row0 (row :: json)
                      /\ Upload.customerName row0 = Some (Customers.r_name d)
                      /\ Upload.normalizePhone (Upload.rawPhone row0)
                         = Some (Customers.r_phone d))
              (flat_map (fun row0 => fst (Upload.row_result row0)) json)).
    { eapply Forall_impl; [|exact IH1]. cbv beta.
      intros d (Hn & r & Hr & H). split; [exact Hn|].
      exists r. split; [now right | exact H]. }
    destruct (row_result_cases row) as [[E Hle]|(name & value & Hn & Hne & Hv & E)].
    + rewrite E. cbn [app List.length]. split; [exact IH1' | lia].
    + rewrite E. cbn [fst snd app List.length]. split; [|lia].
      constructor; [|exact IH1']. cbn. split; [exact Hne|].
      exists row. split; [now left | split; assumption].
Qed.

(** X27: what an uploaded sheet gives.  The normalizer of the upload gives
    the verdict of the server's normalizer on the text of the cell, and the
    same value; every row kept has a name that is not empty and a phone in
    E.164 form which the server accepts unchanged; and no row is counted
    twice: the rows kept and the rows counted as phone-format issues are
    together no more than the rows of the sheet. *)
Theorem upload_rows_are_server_valid (json : list Upload.SheetRow) :
  (forall raw,
     Upload.normalizePhone raw
     = verdict (Phone.normalizePhone (Upload.text raw)))
  /\ Forall (fun d => Customers.r_name d <> ""
                      /\ E164 (Customers.r_phone d)
                      /\ Phone.normalizePhone (Customers.r_phone d)
                         = Phone.Ok (Customers.r_phone d))
       (Upload.customersData json)
  /\ List.length (Upload.customersData json) + Upload.normalizationInvalid json
     <= List.length json.
Proof.
  split; [exact upload_verdict|].
  destruct (upload_rows json) as [Hrows Hcount]. split; [|exact Hcount].
  eapply Forall_impl; [|exact Hrows]. cbv beta.
  intros d (Hn & row & _ & _ & Hv). split; [exact Hn|].
  rewrite upload_verdict in Hv.
  destruct (Phone.normalizePhone (Upload.text (Upload.rawPhone row)))
    as [v|reason] eqn:E; [|discriminate].
  injection Hv as <-. apply ok_value_e164 in E.
  split; [exact E | now apply E164_accepted].
Qed.

Lemma bulk_members (env : App.Env) (rows : list Customers.Row) :
  forall t c, In c (Customers.bulk_customers env t rows) ->
    App.status c = App.Pending
    /\ exists d, In d rows /\ App.name c = Customers.r_name d
                 /\ App.phone c = Customers.r_phone d.
Proof.
  induction rows as [|d rows IH]; intros t c; cbn [Customers.bulk_customers].
  - intros [].
  - intros [<-|Hin].
    + split; [reflexivity|]. exists d. repeat split. now left.
    + destruct (IH _ c Hin) as (Hs & d' & Hd & H). split; [exact Hs|].
      exists d'. split; [now right | exact H].
Qed.

(** X28: an uploaded sheet, end to end.  With the endpoint served by the
    [/send-sms] handler and a Twilio client that creates every message, the
    Twilio settings filled in with a sender number the normalizer accepts, a
    message that is never empty and distinct generated ids: when the sheet
    has a row to keep, the alert reports the rows kept as added, and the
    phone-format issues as the invalid entries; the drain that follows ends,
    POSTs once per row kept, in the order of the sheet, and leaves every
    customer of the upload Sent. *)
Theorem upload_then_drain_against_server
  (env : App.Env) (twilio : Server.TwilioCall -> Server.TwilioOutcome)
  (json : list Upload.SheetRow) (w : App.World) :
  (forall n req, App.fetch env n req = served_by twilio n req) ->
  creds_ok env ->
  (forall call, exists sid, twilio call = Server.Created sid) ->
  Phone.ok (Phone.normalizePhone (App.twilioPhoneNumber (App.settings env)))
  = true ->
  (forall name phone,
     App.formatTemplate env (App.settings env)
       (App.messageTemplate (App.settings env)) name phone <> "") ->
  App.queueActive w = false -> App.smsQueue w = [] ->
  let rows := Upload.customersData json in
  let bad := Upload.normalizationInvalid json in
  let new := Customers.bulk_customers env (App.ticks w) rows in
  NoDup (map App.id new) -> rows <> [] ->
  let out := Upload.handleFileUpload env json w in
  fst out
  = ("Upload complete!" ++ Upload.nl ++ Upload.nl ++ "Added: "
     ++ Str.of_nat (List.length rows) ++ " new customers." ++ Upload.nl
     ++ "Duplicates Skipped: 0" ++ Upload.nl ++ "Invalid Entries Skipped: "
     ++ Str.of_nat bad
     ++ (if Nat.ltb 0 bad
         then " (Phone format issues: " ++ Str.of_nat bad ++ ")" else ""))
  /\ exists w',
       App.drain env (List.length rows) (snd out) = Some w'
       /\ App.smsQueue w' = []
       /\ (forall c, In c new ->
             option_map App.status (lookup (App.id c) w') = Some App.Sent)
       /\ map fst (App.requests w')
          = (map fst (App.requests w) ++ map App.id new)%list.
Proof.
  intros Hserved Hc Htw Hfrom Hbody Ha Hq rows bad new Hnd Hne out.
  assert (Hout : out =
    (("Upload complete!" ++ Upload.nl ++ Upload.nl ++ "Added: "
      ++ Str.of_nat (List.length new) ++ " new customers." ++ Upload.nl
      ++ "Duplicates Skipped: 0" ++ Upload.nl ++ "Invalid Entries Skipped: "
      ++ Str.of_nat bad
      ++ (if Nat.ltb 0 bad
          then " (Phone format issues: " ++ Str.of_nat bad ++ ")" else ""))%string,
     snd (Customers.handleBulkAddCustomers env rows w))).
  { unfold out, Upload.handleFileUpload. fold rows bad.
    destruct rows as [|d rows0] eqn:Er; [congruence|]. reflexivity. }
  rewrite Hout. cbn [fst snd]. split.
  { unfold new. now rewrite bulk_length. }
  set (w1 := App.tick (2 * List.length rows)
               (App.setCustomers (fun prev => (new ++ prev)%list) w)).
  set (w2 := fold_left
               (fun w c => App.logActivity env "Bulk uploaded" (App.name c) w)
               new w1).
  change (snd (Customers.handleBulkAddCustomers env rows w))
    with (App.enqueueSmsCustomers (map App.id new) w2).
  destruct (fold_log env "Bulk uploaded" new w1)
    as (Hc2 & Hq2 & Ha2 & Hr2 & _ & _).
  fold w2 in Hc2, Hq2, Ha2, Hr2.
  destruct (upload_rows json) as [Hrows _]. fold rows in Hrows.
  rewrite Forall_forall in Hrows.
  destruct (drain_of_ready env w2 (map App.id new)) as
    (w' & Hd & Hq' & _ & Hsent & _ & _ & Hreq).
  - exact Hc.
  - now rewrite Ha2.
  - now rewrite Hq2.
  - exact Hnd.
  - intros i Hi. apply in_map_iff in Hi as (c & <- & Hin).
    destruct (bulk_members env rows _ c Hin) as (Hs & d & Hd & _ & Hp).
    destruct (Hrows d Hd) as (_ & row & _ & _ & Hv).
    rewrite upload_verdict in Hv.
    destruct (Phone.normalizePhone (Upload.text (Upload.rawPhone row)))
      as [v|reason] eqn:E; [|discriminate].
    injection Hv as Hv. apply ok_value_e164, E164_accepted in E.
    rewrite Hv, <- Hp in E.
    assert (Hne' : App.phone c <> "").
    { intros E0. rewrite E0 in E. discriminate E. }
    exists c. split.
    { unfold lookup. rewrite Hc2. now apply find_unique. }
    split; [exact Hs|]. split; [exact Hne'|].
    apply (valid_phone_answered_ok env twilio Hserved Hc c Htw Hfrom);
      [now rewrite E | exact Hne' | apply Hbody].
  - exists w'.
    replace (List.length (map App.id new)) with (List.length rows) in Hd
      by (rewrite length_map; symmetry; apply bulk_length).
    split; [exact Hd|]. split; [exact Hq'|]. split.
    + intros c Hin. apply Hsent. now apply in_map.
    + now rewrite Hreq, Hr2.
Qed.

Lemma upload_then_drain_against_server_witness :
  exists w',
    App.drain env2 2 (snd (Upload.handleFileUpload env2 sheet (idle [] [])))
    = Some w'
    /\ map (fun r => Server.to (snd r)) (App.requests w')
       = [Some "+919876543210"; Some "+919123456780"].
Proof.
  destruct (upload_then_drain_against_server env2
              (fun _ => Server.Created "SM1") sheet (idle [] []))
    as (_ & w' & Hd & _).
  - reflexivity.
  - repeat split; discriminate.
  - intros call. now exists "SM1".
  - reflexivity.
  - discriminate.
  - reflexivity.
  - reflexivity.
  - cbv. repeat constructor; cbn; intuition discriminate.
  - discriminate.
  - exists w'. split; [exact Hd|].
    cbv in Hd. injection Hd as <-. reflexivity.
Defined.

(** ** The funnel figures of the dashboard *)



(** ** Sending again from a dashboard row *)

(** X30: "send message" on a dashboard row.  For an id nobody has nothing
    happens.  For a customer that is not Pending the id is put in the
    backlog, but the drain that follows holds it back: nothing is sent,
    nothing is logged and no customer changes.  Only a Pending customer is
    sent to: with the Twilio settings filled in, a phone entered and the
    POST answered with success, it ends Sent after one POST. *)
Theorem send_message_sends_only_to_pending (env : App.Env) (i : string)
  (w : App.World) :
  App.queueActive w = false -> App.smsQueue w = [] ->
  let wq := Customers.handleSendMessage i w in
  (lookup i w = None -> wq = w)
  /\ (forall c, lookup i w = Some c -> App.status c <> App.Pending ->
        App.smsQueue wq = [i]
        /\ exists w',
             App.drain env 1 wq = Some w' /\ App.smsQueue w' = []
             /\ App.customers w' = App.customers w
             /\ App.activityLogs w' = App.activityLogs w
             /\ App.requests w' = App.requests w)
  /\ (forall c, lookup i w = Some c -> App.status c = App.Pending ->
        creds_ok env -> App.phone c <> "" -> answered_ok env c ->
        exists w',
          App.drain env 1 wq = Some w' /\ App.smsQueue w' = []
          /\ option_map App.status (lookup i w') = Some App.Sent
          /\ map fst (App.requests w') = (map fst (App.requests w) ++ [i])%list).
Proof.
  intros Ha Hq wq.
  assert (Hwq : forall c, lookup i w = Some c ->
                  wq = App.enqueueSmsCustomers [i] w).
  { intros c Hl. unfold wq, Customers.handleSendMessage.
    unfold lookup in Hl. now rewrite Hl. }
  split; [|split].
  - intros Hl. unfold wq, Customers.handleSendMessage.
    unfold lookup in Hl. now rewrite Hl.
  - intros c Hl Hs. rewrite (Hwq c Hl).
    assert (Hq1 : App.smsQueue (App.enqueueSmsCustomers [i] w) = [i])
      by (cbn; now rewrite Hq).
    split; [exact Hq1|].
    destruct (drain_invariant env
                (fun w1 => App.customers w1 = App.customers w
                           /\ App.activityLogs w1 = App.activityLogs w
                           /\ App.requests w1 = App.requests w
                           /\ (forall j, In j (App.smsQueue w1) -> j = i)))
      with (fuel := 1) (w := App.enqueueSmsCustomers [i] w)
      as (w' & Hd & (Hc & Hlg & Hr & _) & Hq' & _).
    + intros w1 _ _ (Hc & Hlg & Hr & Hin).
      destruct (one_batch_fields env w1) as (Hq2 & _).
      assert (E : App.customers (one_batch env w1) = App.customers w1
                  /\ App.activityLogs (one_batch env w1) = App.activityLogs w1
                  /\ App.requests (one_batch env w1) = App.requests w1).
      { unfold one_batch. rewrite fold_silent; [repeat split|].
        intros j Hj. apply In_firstn, Hin in Hj. subst j.
        apply held_back_customers with (w := w); [exact Hc|].
        right. now exists c. }
      destruct E as (-> & -> & ->). repeat split; auto.
      rewrite Hq2. intros j Hj. apply Hin. eapply In_skipn, Hj.
    + rewrite Hq1. apply le_n.
    + exact Ha.
    + repeat split. rewrite Hq1. intros j [<-|[]]. reflexivity.
    + exists w'. auto.
  - intros c Hl Hs Hc Hp Hok. rewrite (Hwq c Hl).
    destruct (drain_of_ready env w [i]) as
      (w' & Hd & Hq' & _ & Hsent & _ & _ & Hreq); auto.
    + repeat constructor. intros [].
    + intros j [<-|[]]. exists c. auto.
    + exists w'. repeat split; auto. apply Hsent. now left.
Qed.

Lemma send_message_sends_only_to_pending_witness :
  exists w',
    App.drain env0 1
      (Customers.handleSendMessage "c01" (idle [customer "c01" App.Failed] []))
    = Some w'
    /\ App.requests w' = [].
Proof.
  destruct (send_message_sends_only_to_pending env0 "c01"
              (idle [customer "c01" App.Failed] []) eq_refl eq_refl)
    as (_ & H & _).
  destruct (H (customer "c01" App.Failed) eq_refl) as (_ & w' & Hd & _ & _ & _ & Hr).
  - discriminate.
  - exists w'. split; [exact Hd | exact Hr].
Defined.
